(** * obsidian-desmos: the graph DSL, its fingerprint and the render cache

    A shallow embedding of the plugin's compiled bundle (main.js):
    - [Js]: the JavaScript string primitives the parser relies on
      ([split], [trim], [toUpperCase], [parseInt], [JSON.stringify]);
    - [Sha256]: the SHA-256 digest behind [crypto.createHash("sha256")];
    - [Dsl]: [isHexColor], [Dsl.assert_sanity], [Dsl.assert_notbanned],
      [Dsl.parse] and the [Dsl] constructor;
    - [Renderer]: [Renderer.render] and the message [handler] it registers,
      as transitions of an explicit world state.

    Modelling conventions.
    - A JavaScript string is a [string] of character codes below 128 (ASCII
      source text); [toUpperCase], [trim] and [parseInt] are given on that
      alphabet.
    - A JavaScript number holding an integer is a [Z]; this is exact on the
      safe-integer range, which covers every realistic graph setting.
    - A thrown [SyntaxError] is the [Err] branch of [Result]; the constructor
      of [ParseError] names the throw site and [error_message] rebuilds the
      text the code interpolates. *)

From Stdlib Require Import ZArith List String Ascii Bool Lia.
From Stdlib Require Import DecimalString DecimalZ.
From stdpp Require Import gmap strings list.
Import ListNotations.

Local Open Scope string_scope.
Local Open Scope Z_scope.

(** ** JavaScript primitives *)

Module Js.

(** [value.includes(c)] for a one-character needle. *)
Fixpoint includes (c : ascii) (s : string) : bool :=
  match s with
  | EmptyString => false
  | String d s' => Ascii.eqb c d || includes c s'
  end.

(** Membership of a string in an array of strings ([Array.prototype.includes]). *)
Definition array_includes (l : list string) (s : string) : bool :=
  existsb (String.eqb s) l.

(** JavaScript truthiness of a string: only the empty string is falsy. *)
Definition truthy (s : string) : bool :=
  match s with EmptyString => false | String _ _ => true end.

(** Truthiness of a possibly undefined string property. *)
Definition truthy_prop (o : option string) : bool :=
  match o with None => false | Some s => truthy s end.

(** Truthiness of an object reference: an object is truthy whatever its
    properties hold. *)
Definition truthy_object {A : Type} (o : A) : bool := true.

(** [array.filter(Boolean)] on an array of strings. *)
Definition filter_Boolean (l : list string) : list string :=
  List.filter truthy l.

(** The ASCII members of the WhiteSpace and LineTerminator productions:
    TAB, LF, VT, FF, CR and SPACE.  [trim] and [trimStart] below strip
    these; they are [String.prototype.trim] and the white-space skip of
    [parseInt] on ASCII text ([is_ascii]), where no other white space
    occurs. *)
Definition is_white_space (c : ascii) : bool :=
  let n := N_of_ascii c in
  N.eqb n 9 || N.eqb n 10 || N.eqb n 11 || N.eqb n 12 || N.eqb n 13 || N.eqb n 32.

Fixpoint trimStart (s : string) : string :=
  match s with
  | EmptyString => EmptyString
  | String c s' => if is_white_space c then trimStart s' else s
  end.

Fixpoint trimEnd (s : string) : string :=
  match s with
  | EmptyString => EmptyString
  | String c s' =>
      match trimEnd s' with
      | EmptyString => if is_white_space c then EmptyString else String c EmptyString
      | t => String c t
      end
  end.

(** [String.prototype.trim]. *)
Definition trim (s : string) : string := trimEnd (trimStart s).

Definition is_lower (c : ascii) : bool :=
  let n := N_of_ascii c in N.leb 97 n && N.leb n 122.

Definition is_upper (c : ascii) : bool :=
  let n := N_of_ascii c in N.leb 65 n && N.leb n 90.

Definition is_digit (c : ascii) : bool :=
  let n := N_of_ascii c in N.leb 48 n && N.leb n 57.

Definition upper_char (c : ascii) : ascii :=
  if is_lower c then ascii_of_N (N_of_ascii c - 32) else c.

(** [String.prototype.toUpperCase] on ASCII text ([is_ascii]): only the
    letters a to z change.  Outside ASCII the JavaScript function also maps
    characters to letters or letter pairs; the statements that read the
    value of [toUpperCase] are made for ASCII text. *)
Fixpoint toUpperCase (s : string) : string :=
  match s with
  | EmptyString => EmptyString
  | String c s' => String (upper_char c) (toUpperCase s')
  end.

(** Puts a character in front of the first segment of a split in progress. *)
Definition cons_head (c : ascii) (l : list string) : list string :=
  match l with
  | [] => [String c EmptyString]
  | h :: t => String c h :: t
  end.

(** [s.split(sep)] for a non-empty string separator: the occurrences of
    [sep] are found from the left and do not overlap; [skip] counts the
    characters of a matched separator that are still to be dropped. *)
Fixpoint split_from (sep s : string) (skip : nat) : list string :=
  match s with
  | EmptyString => [EmptyString]
  | String c s' =>
      match skip with
      | S k => split_from sep s' k
      | O =>
          if String.prefix sep s
          then EmptyString :: split_from sep s' (Nat.pred (String.length sep))
          else cons_head c (split_from sep s' O)
      end
  end.

Definition split (sep s : string) : list string := split_from sep s O.

(** [s.split(/[...]+/)] for a character class: a maximal run of separator
    characters is one separator; [in_run] tells that the previous character
    was a separator. *)
Fixpoint split_class_from (is_sep : ascii -> bool) (s : string) (in_run : bool)
  : list string :=
  match s with
  | EmptyString => [EmptyString]
  | String c s' =>
      if is_sep c
      then if in_run then split_class_from is_sep s' true
           else EmptyString :: split_class_from is_sep s' true
      else cons_head c (split_class_from is_sep s' false)
  end.

Definition split_class (is_sep : ascii -> bool) (s : string) : list string :=
  split_class_from is_sep s false.

(** [array.join(sep)]. *)
Definition join (sep : string) (l : list string) : string := String.concat sep l.

(** The value of a character as a digit, for radixes up to 36. *)
Definition digit_value (c : ascii) : option Z :=
  let n := Z.of_N (N_of_ascii c) in
  if is_digit c then Some (n - 48)
  else if is_lower c then Some (n - 87)
  else if is_upper c then Some (n - 55)
  else None.

(** The longest prefix of radix-[r] digits of [s], folded into [acc];
    [seen] tells whether a digit was read. *)
Fixpoint read_digits (r : Z) (s : string) (acc : Z) (seen : bool) : option Z :=
  match s with
  | EmptyString => if seen then Some acc else None
  | String c s' =>
      match digit_value c with
      | Some d =>
          if d <? r then read_digits r s' (acc * r + d) true
          else if seen then Some acc else None
      | None => if seen then Some acc else None
      end
  end.

(** [parseInt(s)] with no radix argument; [None] is NaN.  Leading white
    space is skipped, a sign is read, a [0x]/[0X] prefix selects radix 16,
    and whatever follows the digits is ignored.  The result is the
    mathematical integer that was read: it is the number JavaScript
    returns when it is a safe integer ([isSafeInteger]); beyond, JavaScript
    rounds to a double and ends at an infinity.  Whether the result is NaN
    does not depend on the size. *)
Definition parseInt (s : string) : option Z :=
  let s1 := trimStart s in
  let '(sign, s2) :=
    match s1 with
    | String "-" r => (-1, r)
    | String "+" r => (1, r)
    | _ => (1, s1)
    end in
  let '(radix, s3) :=
    match s2 with
    | String "0" (String "x" r) => (16, r)
    | String "0" (String "X" r) => (16, r)
    | _ => (10, s2)
    end in
  match read_digits radix s3 0 false with
  | Some n => Some (sign * n)
  | None => None
  end.

Definition hex_digit (n : N) : ascii :=
  ascii_of_N (if N.ltb n 10 then n + 48 else n + 87).

(** [Number.prototype.toString] on an integer, as used by template
    literals and by [JSON.stringify]: decimal digits, with a minus sign in
    front of a negative number.  This is the text JavaScript writes for a
    safe integer ([isSafeInteger]); it writes an exponent from 10^21 on, and
    [JSON.stringify] writes [null] for an infinity. *)
Definition number_toString (n : Z) : string :=
  NilEmpty.string_of_int (Z.to_int n).

(** One character of [QuoteJSONString]. *)
Definition quote_char (c : ascii) : string :=
  let n := N_of_ascii c in
  if N.eqb n 8 then "\b"
  else if N.eqb n 9 then "\t"
  else if N.eqb n 10 then "\n"
  else if N.eqb n 12 then "\f"
  else if N.eqb n 13 then "\r"
  else if N.eqb n 34 then String "\" (String c EmptyString)
  else if N.eqb n 92 then "\\"
  else if N.ltb n 32
       then "\u00" ++ String (hex_digit (n / 16)) (String (hex_digit (n mod 16)) EmptyString)
       else String c EmptyString.

Fixpoint quote_body (s : string) : string :=
  match s with
  | EmptyString => EmptyString
  | String c s' => quote_char c ++ quote_body s'
  end.

(** [JSON.stringify] of a string. *)
Definition quote (s : string) : string :=
  String (ascii_of_N 34) (quote_body s ++ String (ascii_of_N 34) EmptyString).

(** Reading back: what tells that the serialization loses nothing. *)

Definition hex_value (c : ascii) : N :=
  let n := N_of_ascii c in if N.leb 97 n then n - 87 else n - 48.

(** The character at the head of a quoted text, with the text that follows
    it: the inverse of [quote_char]. *)
Definition unquote_char (s : string) : option (ascii * string) :=
  match s with
  | EmptyString => None
  | String c rest =>
      if Ascii.eqb c "\" then
        match rest with
        | EmptyString => None
        | String x rest' =>
            if Ascii.eqb x "b" then Some (ascii_of_N 8, rest')
            else if Ascii.eqb x "t" then Some (ascii_of_N 9, rest')
            else if Ascii.eqb x "n" then Some (ascii_of_N 10, rest')
            else if Ascii.eqb x "f" then Some (ascii_of_N 12, rest')
            else if Ascii.eqb x "r" then Some (ascii_of_N 13, rest')
            else if Ascii.eqb x "u" then
              match rest' with
              | String _ (String _ (String h (String l rest''))) =>
                  Some (ascii_of_N (16 * hex_value h + hex_value l), rest'')
              | _ => None
              end
            else Some (x, rest')
        end
      else Some (c, rest)
  end.

(** Whether every character of a text passes a test. *)
Fixpoint every (p : ascii -> bool) (s : string) : bool :=
  match s with
  | EmptyString => true
  | String c s' => p c && every p s'
  end.

(** The characters of a printed integer: the digits and the minus sign. *)
Definition is_num_char (c : ascii) : bool := is_digit c || Ascii.eqb c "-".

(** A text of ASCII characters only. *)
Definition is_ascii_char (c : ascii) : bool := N.ltb (N_of_ascii c) 128.

Definition is_ascii (s : string) : bool := every is_ascii_char s.

(** [Number.MAX_SAFE_INTEGER] and [Number.isSafeInteger] on an integer:
    the integers that a JavaScript number holds exactly, together with
    their neighbours. *)
Definition MAX_SAFE_INTEGER : Z := 2 ^ 53 - 1.

Definition isSafeInteger (n : Z) : bool := Z.abs n <=? MAX_SAFE_INTEGER.

End Js.

(** ** SHA-256 (FIPS 180-4), the digest behind [crypto.createHash("sha256")] *)

Module Sha256.

Definition add32 (x y : Z) : Z := (x + y) mod 2 ^ 32.

Definition rotr (n x : Z) : Z :=
  Z.lor (Z.shiftr x n) ((Z.shiftl x (32 - n)) mod 2 ^ 32).

Definition shr (n x : Z) : Z := Z.shiftr x n.

Definition not32 (x : Z) : Z := Z.lxor x 0xffffffff.

Definition Ch (x y z : Z) : Z := Z.lxor (Z.land x y) (Z.land (not32 x) z).

Definition Maj (x y z : Z) : Z :=
  Z.lxor (Z.lxor (Z.land x y) (Z.land x z)) (Z.land y z).

Definition Sigma0 (x : Z) : Z := Z.lxor (Z.lxor (rotr 2 x) (rotr 13 x)) (rotr 22 x).
Definition Sigma1 (x : Z) : Z := Z.lxor (Z.lxor (rotr 6 x) (rotr 11 x)) (rotr 25 x).
Definition sigma0 (x : Z) : Z := Z.lxor (Z.lxor (rotr 7 x) (rotr 18 x)) (shr 3 x).
Definition sigma1 (x : Z) : Z := Z.lxor (Z.lxor (rotr 17 x) (rotr 19 x)) (shr 10 x).

Definition is_prime (n : nat) : bool :=
  List.forallb (fun d => negb (Nat.eqb (Nat.modulo n d) 0)) (List.seq 2 (n - 2)).

(** The first [n] prime numbers. *)
Definition primes (n : nat) : list Z :=
  List.map Z.of_nat (List.firstn n (List.filter is_prime (List.seq 2 310))).

(** The integer cube root, found bit by bit from bit [bits] down. *)
Fixpoint cube_root (bits : nat) (n r : Z) : Z :=
  match bits with
  | O => r
  | S b =>
      let r' := r + 2 ^ Z.of_nat b in
      cube_root b n (if r' * r' * r' <=? n then r' else r)
  end.

(** The round constants: the first 32 bits of the fractional parts of the
    cube roots of the first 64 primes. *)
Definition K : list Z :=
  Eval vm_compute in
    List.map (fun p => cube_root 40 (p * 2 ^ 96) 0 mod 2 ^ 32) (primes 64).

(** The initial hash value: the first 32 bits of the fractional parts of
    the square roots of the first 8 primes. *)
Definition H_init : list Z :=
  Eval vm_compute in
    List.map (fun p => Z.sqrt (p * 2 ^ 64) mod 2 ^ 32) (primes 8).

(** [n] as [k] big-endian bytes. *)
Fixpoint be_bytes (k : nat) (n : Z) : list Z :=
  match k with
  | O => []
  | S k' => (Z.shiftr n (8 * Z.of_nat k')) mod 256 :: be_bytes k' n
  end.

(** The message followed by the bit 1, zero bits up to 56 modulo 64 bytes,
    and the bit length of the message on 64 bits. *)
Definition pad (msg : list Z) : list Z :=
  let l := Z.of_nat (List.length msg) in
  msg ++ [0x80] ++ List.repeat 0 (Z.to_nat ((55 - l) mod 64)) ++ be_bytes 8 (8 * l).

(** Big-endian words of a byte sequence, four bytes a word. *)
Fixpoint words (fuel : nat) (bs : list Z) : list Z :=
  match fuel, bs with
  | S k, b0 :: b1 :: b2 :: b3 :: rest =>
      (((b0 * 256 + b1) * 256 + b2) * 256 + b3) :: words k rest
  | _, _ => []
  end.

(** The message schedule: [n] more words after those of [W]. *)
Fixpoint schedule (n : nat) (W : list Z) : list Z :=
  match n with
  | O => W
  | S k =>
      let t := List.length W in
      let at_ (i : nat) := List.nth (t - i) W 0 in
      schedule k
        (W ++ [add32 (add32 (add32 (sigma1 (at_ 2%nat)) (at_ 7%nat))
                            (sigma0 (at_ 15%nat))) (at_ 16%nat)])
  end.

Record Regs : Type := mkRegs {
  ra : Z; rb : Z; rc : Z; rd : Z; re : Z; rf : Z; rg : Z; rh : Z }.

Definition round (r : Regs) (kw : Z * Z) : Regs :=
  let T1 :=
    add32 (add32 (add32 (add32 (rh r) (Sigma1 (re r))) (Ch (re r) (rf r) (rg r)))
                 (fst kw)) (snd kw) in
  let T2 := add32 (Sigma0 (ra r)) (Maj (ra r) (rb r) (rc r)) in
  mkRegs (add32 T1 T2) (ra r) (rb r) (rc r) (add32 (rd r) T1) (re r) (rf r) (rg r).

Definition regs_of (H : list Z) : Regs :=
  mkRegs (List.nth 0 H 0) (List.nth 1 H 0) (List.nth 2 H 0) (List.nth 3 H 0)
         (List.nth 4 H 0) (List.nth 5 H 0) (List.nth 6 H 0) (List.nth 7 H 0).

Definition regs_list (r : Regs) : list Z :=
  [ra r; rb r; rc r; rd r; re r; rf r; rg r; rh r].

(** One 64-byte block folded into the chaining value [H]. *)
Definition compress (H : list Z) (block : list Z) : list Z :=
  let W := schedule 48 (words 16 block) in
  let r := List.fold_left round (List.combine K W) (regs_of H) in
  List.map (fun p => add32 (fst p) (snd p)) (List.combine H (regs_list r)).

Fixpoint blocks (fuel : nat) (H : list Z) (bs : list Z) : list Z :=
  match fuel with
  | O => H
  | S k =>
      match bs with
      | [] => H
      | _ => blocks k (compress H (List.firstn 64 bs)) (List.skipn 64 bs)
      end
  end.

Definition digest (msg : list Z) : list Z :=
  let p := pad msg in
  blocks (List.length p) H_init p.

Definition hex_byte (b : Z) : string :=
  String (Js.hex_digit (Z.to_N (b / 16)))
    (String (Js.hex_digit (Z.to_N (b mod 16))) EmptyString).

(** [.digest("hex")]: the eight words in lowercase hexadecimal. *)
Definition hex (ws : list Z) : string :=
  String.concat "" (List.map hex_byte (List.concat (List.map (be_bytes 4) ws))).

(** [.update(text)] encodes the text as UTF-8, the identity on ASCII. *)
Definition bytes_of_string (s : string) : list Z :=
  List.map (fun c => Z.of_N (N_of_ascii c)) (list_ascii_of_string s).

(** [crypto.createHash("sha256").update(text).digest("hex")]. *)
Definition sha256_hex (text : string) : string := hex (digest (bytes_of_string text)).

End Sha256.

(** ** The graph DSL (class [Dsl]) *)

Module Dsl.

(** The messages of the [SyntaxError]s that [Dsl.parse] and the [Dsl]
    constructor throw, one constructor a throw site. *)
Inductive ParseError : Type :=
  | TooManySegments
  | MissingFieldValue (key : string)
  | InvalidFieldType (key : string)
  | UnrecognizedField (key : string)
  | BannedCharacter (c : ascii) (ctx : string)
  | DuplicateStyle (previous current : string)
  | DuplicateColor (previous current : string)
  | InvalidBoundaryLeftRight (l r : Z)
  | InvalidBoundaryBottomTop (b t : Z).

Inductive Result (A : Type) : Type :=
  | Ok (a : A)
  | Err (e : ParseError).

Arguments Ok {A} a.
Arguments Err {A} e.

(** Sequencing of statements that may throw. *)
#[global] Instance Result_bind : MBind Result :=
  fun A B (f : A -> Result B) (r : Result A) =>
    match r with
    | Ok a => f a
    | Err e => Err e
    end.

(** [array.map(f)] for a callback that may throw: the first throw ends it. *)
Fixpoint mapM {A B : Type} (f : A -> Result B) (l : list A) : Result (list B) :=
  match l with
  | [] => Ok []
  | x :: l' => y ← f x; ys ← mapM f l'; Ok (y :: ys)
  end.

(** [array.reduce(f, init)] for a callback that may throw. *)
Fixpoint reduceM {A B : Type} (f : B -> A -> Result B) (l : list A) (acc : B)
  : Result B :=
  match l with
  | [] => Ok acc
  | x :: l' => acc' ← f acc x; reduceM f l' acc'
  end.

Definition LF : ascii := ascii_of_N 10.
Definition DQUOTE : ascii := ascii_of_N 34.
Definition SQUOTE : ascii := ascii_of_N 39.
Definition BACKTICK : ascii := ascii_of_N 96.

(** The text of each error, as the template literals build it. *)
Definition error_message (e : ParseError) : string :=
  match e with
  | TooManySegments => "Too many segments"
  | MissingFieldValue key => "Field '" ++ key ++ "' must have a value"
  | InvalidFieldType key => "Field '" ++ key ++ "' must have an integer value"
  | UnrecognizedField key => "Unrecognised field: " ++ key
  | BannedCharacter c ctx =>
      "Unexpected character " ++ String c EmptyString ++ " in " ++ ctx
  | DuplicateStyle previous current =>
      "Duplicate style identifiers detected: " ++ previous ++ ", " ++ current
  | DuplicateColor previous current =>
      "Duplicate color identifiers detected: " ++ previous ++ ", " ++ current
  | InvalidBoundaryLeftRight l r =>
      "Right boundary (" ++ Js.number_toString r
      ++ ") must be greater than left boundary (" ++ Js.number_toString l ++ ")"
  | InvalidBoundaryBottomTop b t =>
      String LF "                Top boundary (" ++ Js.number_toString t
      ++ ") must be greater than bottom boundary (" ++ Js.number_toString b
      ++ ")" ++ String LF "            "
  end.

(** *** Data model *)

(** [interface Fields]; the order of the projections is the key order of
    [FIELD_DEFAULTS]. *)
Record Fields : Type := mkFields {
  width : Z;
  height : Z;
  left : Z;
  right : Z;
  bottom : Z;
  top : Z
}.

Definition FIELD_DEFAULTS : Fields :=
  {| width := 600; height := 400; left := -10; right := 10; bottom := -7; top := 7 |}.

(** The own keys of [FIELD_DEFAULTS], in insertion order. *)
Definition field_keys : list string :=
  ["width"; "height"; "left"; "right"; "bottom"; "top"].

(** [FIELD_DEFAULTS.hasOwnProperty(key)]. *)
Definition hasOwnProperty (key : string) : bool :=
  Js.array_includes field_keys key.

(** [Object.values(EquationStyle)]. *)
Definition EquationStyle : list string :=
  ["SOLID"; "DASHED"; "DOTTED"; "POINT"; "OPEN"; "CROSS"].

(** [Object.values(EquationColor)]. *)
Definition EquationColor : list string :=
  ["RED"; "BLUE"; "GREEN"; "PURPLE"; "ORANGE"; "BLACK"].

(** An object with string values: its own properties in insertion order. *)
Definition Obj : Type := list (string * string).

Fixpoint obj_get (key : string) (o : Obj) : option string :=
  match o with
  | [] => None
  | (k, v) :: o' => if String.eqb k key then Some v else obj_get key o'
  end.

(** [o[key] = v]: an existing property keeps its place, a new one goes
    last. *)
Fixpoint obj_set (key v : string) (o : Obj) : Obj :=
  match o with
  | [] => [(key, v)]
  | (k, v0) :: o' =>
      if String.eqb k key then (k, v) :: o' else (k, v0) :: obj_set key v o'
  end.

(** [interface Equation]: the properties [equation], [style], [color] and
    [restriction] of an equation object. *)
Definition equation_of (e : Obj) : option string := obj_get "equation" e.
Definition style_of (e : Obj) : option string := obj_get "style" e.
Definition color_of (e : Obj) : option string := obj_get "color" e.
Definition restriction_of (e : Obj) : option string := obj_get "restriction" e.

(** An instance of [Dsl]. *)
Record Dsl : Type := mkDsl {
  equations : list Obj;
  fields : Fields;
  hash : string
}.

(** *** [isHexColor] *)

Definition is_alnum (c : ascii) : bool :=
  Js.is_digit c || Js.is_lower c || Js.is_upper c.

Fixpoint all_alnum (s : string) : bool :=
  match s with
  | EmptyString => true
  | String c s' => is_alnum c && all_alnum s'
  end.

(** [/^[0-9a-zA-Z]+$/.test(value)]. *)
Definition alnum_test (s : string) : bool := Js.truthy s && all_alnum s.

Definition isHexColor (value : string) : bool :=
  match value with
  | String "#" rest => alnum_test rest
  | _ => false
  end.

(** *** [JSON.stringify(this)] in the constructor *)

Definition json_property (kv : string * string) : string :=
  Js.quote (fst kv) ++ ":" ++ Js.quote (snd kv).

Definition json_obj (o : Obj) : string :=
  "{" ++ Js.join "," (List.map json_property o) ++ "}".

Definition json_equations (l : list Obj) : string :=
  "[" ++ Js.join "," (List.map json_obj l) ++ "]".

Definition json_number_property (key : string) (n : Z) : string :=
  Js.quote key ++ ":" ++ Js.number_toString n.

Definition json_fields (f : Fields) : string :=
  "{" ++ Js.join ","
    [ json_number_property "width" (width f);
      json_number_property "height" (height f);
      json_number_property "left" (left f);
      json_number_property "right" (right f);
      json_number_property "bottom" (bottom f);
      json_number_property "top" (top f) ] ++ "}".

(** The text that is hashed: [this] has the properties [equations] and
    [fields] when the constructor serializes it. *)
Definition stringify (eqs : list Obj) (f : Fields) : string :=
  "{" ++ Js.quote "equations" ++ ":" ++ json_equations eqs ++ ","
      ++ Js.quote "fields" ++ ":" ++ json_fields f ++ "}".

(** *** The constructor *)

(** [Object.assign(Object.assign({}, FIELD_DEFAULTS), fields)], for a
    [fields] object whose keys are among those of [FIELD_DEFAULTS] (or which
    is undefined, the empty map here). *)
Definition assign_fields (d : Fields) (o : gmap string Z) : Fields :=
  {| width := default (width d) (o !! "width");
     height := default (height d) (o !! "height");
     left := default (left d) (o !! "left");
     right := default (right d) (o !! "right");
     bottom := default (bottom d) (o !! "bottom");
     top := default (top d) (o !! "top") |}.

(** [fields[key]]. *)
Definition field_value (f : Fields) (key : string) : option Z :=
  if String.eqb key "width" then Some (width f)
  else if String.eqb key "height" then Some (height f)
  else if String.eqb key "left" then Some (left f)
  else if String.eqb key "right" then Some (right f)
  else if String.eqb key "bottom" then Some (bottom f)
  else if String.eqb key "top" then Some (top f)
  else None.

Definition assert_sanity (f : Fields) : Result unit :=
  if left f >=? right f then Err (InvalidBoundaryLeftRight (left f) (right f))
  else if bottom f >=? top f then Err (InvalidBoundaryBottomTop (bottom f) (top f))
  else Ok tt.

Definition fingerprint (eqs : list Obj) (f : Fields) : string :=
  Sha256.sha256_hex (stringify eqs f).

Definition new_Dsl (eqs : list Obj) (o : gmap string Z) : Result Dsl :=
  let f := assign_fields FIELD_DEFAULTS o in
  _ ← assert_sanity f;
  Ok {| equations := eqs; fields := f; hash := fingerprint eqs f |}.

(** *** [Dsl.assert_notbanned] *)

Definition bannedChars : list ascii := [DQUOTE; SQUOTE; BACKTICK].

Fixpoint check_banned (cs : list ascii) (value ctx : string) : Result unit :=
  match cs with
  | [] => Ok tt
  | c :: cs' =>
      if Js.includes c value then Err (BannedCharacter c ctx)
      else check_banned cs' value ctx
  end.

Definition assert_notbanned (value ctx : string) : Result unit :=
  check_banned bannedChars value ctx.

(** *** [Dsl.parse]: the settings block *)

(** [const [key, ...value] = setting.split("="); return [key, value.join("=")]]. *)
Definition key_value (setting : string) : string * string :=
  match Js.split "=" setting with
  | key :: value => (key, Js.join "=" value)
  | [] => (EmptyString, EmptyString)
  end.

(** The callback of [reduce].  Every default is a number, so [typeof
    field_v] is always ["number"] and the ["string"] case is never taken. *)
Definition field_step (settings : gmap string Z) (kv : string * string)
  : Result (gmap string Z) :=
  let '(key, value) := kv in
  if hasOwnProperty key then
    if negb (Js.truthy value) then Err (MissingFieldValue key)
    else
      match Js.parseInt value with
      | None => Err (InvalidFieldType key)
      | Some s => Ok (<[key := s]> settings)
      end
  else Err (UnrecognizedField key).

Definition is_setting_delimiter (c : ascii) : bool :=
  Ascii.eqb c ";" || Ascii.eqb c LF.

(** The entries of a settings block: [split(/[;\n]+/)], [trim], [filter],
    then the split on the first equals sign. *)
Definition setting_entries (block : string) : list (string * string) :=
  List.map key_value
    (Js.filter_Boolean (List.map Js.trim (Js.split_class is_setting_delimiter block))).

Definition parse_fields (block : string) : Result (gmap string Z) :=
  reduceM field_step (setting_entries block) ∅.

(** *** [Dsl.parse]: the equations *)

Definition lines (body : string) : list string :=
  Js.filter_Boolean (Js.split (String LF EmptyString) body).

(** The last branch of the loop body, once the banned-character check has
    passed: an absent (or empty) restriction starts as the empty string,
    then the wrapped segment is concatenated. *)
Definition add_restriction (segment : string) (equation : Obj) : Obj :=
  let equation1 :=
    if negb (Js.truthy_prop (restriction_of equation))
    then obj_set "restriction" EmptyString equation
    else equation in
  obj_set "restriction"
    (default EmptyString (restriction_of equation1) ++ "{" ++ segment ++ "}")
    equation1.

(** One turn of the loop over the segments that follow the expression. *)
Definition process_segment (equation : Obj) (segment : string) : Result Obj :=
  let segmentUpperCase := Js.toUpperCase segment in
  if Js.array_includes EquationStyle segmentUpperCase then
    if negb (Js.truthy_prop (style_of equation))
    then Ok (obj_set "style" segmentUpperCase equation)
    else Err (DuplicateStyle (default EmptyString (style_of equation)) segmentUpperCase)
  else if Js.array_includes EquationColor segmentUpperCase || isHexColor segment then
    if negb (Js.truthy_prop (color_of equation))
    then
      if isHexColor segment
      then Ok (obj_set "color" segment equation)
      else Ok (obj_set "color" segmentUpperCase equation)
    else Err (DuplicateColor (default EmptyString (color_of equation)) segmentUpperCase)
  else
    _ ← assert_notbanned segment "graph configuration";
    Ok (add_restriction segment equation).

(** The callback of [equations.map].  [split] always returns a first
    segment, which [shift] takes as the expression. *)
Definition process_equation (eq : string) : Result Obj :=
  match Js.split "|" eq with
  | [] => Ok []
  | first :: segments =>
      let equation := [("equation", first)] in
      _ ← assert_notbanned first "graph equation";
      reduceM process_segment segments equation
  end.

(** The [switch] on the number of segments: the settings, if any, are
    parsed before the equation lines are cut out; [None] stands for
    [equations] left undefined. *)
Definition parse_split (split : list string)
  : Result (option (list string) * gmap string Z) :=
  match split with
  | [] => Ok (Some [], ∅)
  | [body] => Ok (Some (lines body), ∅)
  | [block; body] =>
      settings ← parse_fields block;
      Ok (Some (lines body), settings)
  | _ => Ok (None, ∅)
  end.

(** What follows the [switch] once [equations] is defined. *)
Definition build (eqs : list string) (settings : gmap string Z) : Result Dsl :=
  processed ← mapM process_equation eqs;
  new_Dsl processed settings.

Definition parse (source : string) : Result Dsl :=
  sf ← parse_split (Js.split "---" source);
  match fst sf with
  | None => Err TooManySegments
  | Some eqs => build eqs (snd sf)
  end.

End Dsl.

(** ** The specification's vocabulary for the DSL *)

Module DslSpec.

Import Dsl.

(** The three kinds of modifier of an equation line, with what the
    equation keeps of each. *)
Inductive SegmentKind : Type :=
  | StyleToken (style : string)
  | ColorToken (color : string)
  | RestrictionFragment (wrapped : string).

(** The classification in the specification's words: a style if the segment
    is a style name whatever its letter case; else a color if it is a color
    name whatever its letter case (kept as the uppercase constant) or has
    the hex form (kept as written); else a restriction fragment, wrapped in
    braces. *)
Definition classify (segment : string) : SegmentKind :=
  if Js.array_includes EquationStyle (Js.toUpperCase segment)
  then StyleToken (Js.toUpperCase segment)
  else if Js.array_includes EquationColor (Js.toUpperCase segment)
  then ColorToken (Js.toUpperCase segment)
  else if isHexColor segment
  then ColorToken segment
  else RestrictionFragment ("{" ++ segment ++ "}").

(** Two segments that the classification treats alike: the same style, the
    same color up to letter case, or two restriction fragments. *)
Definition same_kind (k1 k2 : SegmentKind) : Prop :=
  match k1, k2 with
  | StyleToken s1, StyleToken s2 => s1 = s2
  | ColorToken c1, ColorToken c2 => Js.toUpperCase c1 = Js.toUpperCase c2
  | RestrictionFragment _, RestrictionFragment _ => True
  | _, _ => False
  end.

Definition style_token (segment : string) : option string :=
  match classify segment with StyleToken s => Some s | _ => None end.

Definition color_token (segment : string) : option string :=
  match classify segment with ColorToken c => Some c | _ => None end.

Definition restriction_fragment (segment : string) : option string :=
  match classify segment with RestrictionFragment r => Some r | _ => None end.

(** The tokens of each kind among the segments of a line, in encounter
    order. *)
Definition style_tokens (segments : list string) : list string :=
  omap style_token segments.

Definition color_tokens (segments : list string) : list string :=
  omap color_token segments.

Definition restriction_fragments (segments : list string) : list string :=
  omap restriction_fragment segments.

(** The accumulated restriction: absent when no fragment was met. *)
Definition accumulated (fragments : list string) : option string :=
  match fragments with
  | [] => None
  | _ => Some (String.concat EmptyString fragments)
  end.

(** [parse] reaches the line: the settings block of the source, if any, is
    accepted, and so is every line of the body before this one. *)
Definition reaches_line (source line : string) : Prop :=
  exists body settings before after processed,
    ((Js.split "---" source = [body] /\ settings = ∅)
     \/ (exists block,
           Js.split "---" source = [block; body]
           /\ parse_fields block = Ok settings))
    /\ lines body = (before ++ line :: after)%list
    /\ mapM process_equation before = Ok processed.

(** The token an equation keeps: the one it already has, else the first
    one met. *)
Definition first_or (o : option string) (l : list string) : option string :=
  match o with Some s => Some s | None => head l end.

(** One if the property is set, else zero. *)
Definition taken (o : option string) : nat :=
  match o with Some _ => 1%nat | None => 0%nat end.

(** Two equations with equal expression, style, color and restriction. *)
Definition same_equation (e1 e2 : Obj) : Prop :=
  equation_of e1 = equation_of e2
  /\ style_of e1 = style_of e2
  /\ color_of e1 = color_of e2
  /\ restriction_of e1 = restriction_of e2.

(** Field-for-field-equal content: the equations are pairwise the same, in
    order, and the six fields are equal. *)
Definition same_content (d1 d2 : Dsl) : Prop :=
  Forall2 same_equation (equations d1) (equations d2) /\ fields d1 = fields d2.

End DslSpec.

(** ** The render coordinator (class [Renderer]) *)

Module Renderer.

Inductive CacheLocation : Type := Memory | Filesystem.

(** [settings.cache]. *)
Record CacheSettings : Type := mkCacheSettings {
  enabled : bool;
  location : CacheLocation;
  directory : option string
}.

(** The plugin settings; one object, shared by the plugin, the settings tab
    and every handler. *)
Record Settings : Type := mkSettings {
  debounce : Z;
  cache : CacheSettings
}.

Definition DEFAULT_SETTINGS_STATIC : Settings :=
  {| debounce := 500;
     cache := {| enabled := true; location := Memory; directory := None |} |}.

(** What the code takes from [path] and [os]. *)
Record Platform : Type := mkPlatform {
  isAbsolute : string -> bool;
  path_join : string -> string -> string;
  tmpdir : string
}.

(** A child of the output element. [ErrorBox err] is the markup that
    [renderError] writes around [err]; [Iframe args] is the isolated
    calculator page built for [args], the external renderer at work. *)
Inductive Node : Type :=
  | Img (src : string)
  | Iframe (args : Dsl.Dsl)
  | ErrorBox (err : string).

(** [MessageEvent]: [origin], and [t], [d], [data], [hash] of its payload. *)
Record Message : Type := mkMessage {
  origin : string;
  msg_t : string;
  msg_d : string;
  msg_data : string;
  msg_hash : string
}.

(** The closure [handler] of one call of [render]: the request (its promise
    and [resolve]), and the [hash], [el], [cache_dir] and [cache_target] it
    captured. *)
Record Handler : Type := mkHandler {
  h_request : nat;
  h_hash : string;
  h_el : nat;
  h_cache_dir : string;
  h_cache_target : string
}.

(** An entry of the file system; a file holds its bytes in base64. *)
Inductive FsEntry : Type :=
  | Directory
  | File (base64 : string).

(** File operations started and not yet completed ([fs.promises]). *)
Inductive FsOp : Type :=
  | ReadFileThenShow (path : string) (el : nat)
  | WriteFile (path : string) (base64 : string).

Record World : Type := mkWorld {
  settings : Settings;
  graph_cache : gmap string string;
  files : gmap string FsEntry;
  dom : gmap nat (list Node);
  listeners : list Handler;
  resolved : gset nat;
  pending : list FsOp;
  notices : list string;
  next_request : nat
}.

Definition set_settings (s : Settings) (w : World) : World :=
  mkWorld s (graph_cache w) (files w) (dom w) (listeners w) (resolved w)
    (pending w) (notices w) (next_request w).

Definition set_graph_cache (c : gmap string string) (w : World) : World :=
  mkWorld (settings w) c (files w) (dom w) (listeners w) (resolved w)
    (pending w) (notices w) (next_request w).

Definition set_files (f : gmap string FsEntry) (w : World) : World :=
  mkWorld (settings w) (graph_cache w) f (dom w) (listeners w) (resolved w)
    (pending w) (notices w) (next_request w).

Definition set_dom (d : gmap nat (list Node)) (w : World) : World :=
  mkWorld (settings w) (graph_cache w) (files w) d (listeners w) (resolved w)
    (pending w) (notices w) (next_request w).

Definition set_listeners (l : list Handler) (w : World) : World :=
  mkWorld (settings w) (graph_cache w) (files w) (dom w) l (resolved w)
    (pending w) (notices w) (next_request w).

Definition set_resolved (r : gset nat) (w : World) : World :=
  mkWorld (settings w) (graph_cache w) (files w) (dom w) (listeners w) r
    (pending w) (notices w) (next_request w).

Definition set_pending (p : list FsOp) (w : World) : World :=
  mkWorld (settings w) (graph_cache w) (files w) (dom w) (listeners w) (resolved w)
    p (notices w) (next_request w).

Definition set_notices (n : list string) (w : World) : World :=
  mkWorld (settings w) (graph_cache w) (files w) (dom w) (listeners w) (resolved w)
    (pending w) n (next_request w).

Definition set_next_request (n : nat) (w : World) : World :=
  mkWorld (settings w) (graph_cache w) (files w) (dom w) (listeners w) (resolved w)
    (pending w) (notices w) n.

(** The children of an element. *)
Definition children (el : nat) (w : World) : list Node :=
  default [] (dom w !! el).

(** [el.appendChild(node)]. *)
Definition appendChild (el : nat) (n : Node) (w : World) : World :=
  set_dom (<[el := (children el w ++ [n])%list]> (dom w)) w.

(** [el.empty()]. *)
Definition empty (el : nat) (w : World) : World :=
  set_dom (<[el := []]> (dom w)) w.

(** [renderError(err, el)]: the markup replaces the children of [el]. *)
Definition renderError (err : string) (el : nat) (w : World) : World :=
  set_dom (<[el := [ErrorBox err]]> (dom w)) w.

(** [fs.existsSync(path)]. *)
Definition existsSync (path : string) (w : World) : bool :=
  bool_decide (is_Some (files w !! path)).

(** [new obsidian.Notice(text, 10000)]. *)
Definition Notice (text : string) (w : World) : World :=
  set_notices (notices w ++ [text])%list w.

Definition location_eqb (a b : CacheLocation) : bool :=
  match a, b with
  | Memory, Memory => true
  | Filesystem, Filesystem => true
  | _, _ => false
  end.

Definition cache_dir (P : Platform) (vault_root : string) (s : Settings) : string :=
  match directory (cache s) with
  | Some dir =>
      if Js.truthy dir
      then if isAbsolute P dir then dir else path_join P vault_root dir
      else tmpdir P
  | None => tmpdir P
  end.

Definition cache_target (P : Platform) (vault_root : string) (s : Settings)
  (hash : string) : string :=
  path_join P (cache_dir P vault_root s) ("desmos-graph-" ++ hash ++ ".png").

Definition png_prefix : string := "data:image/png;base64,".

(** [data.replace(/^data:image\/png;base64,/, "")]. *)
Fixpoint strip_prefix (p s : string) : option string :=
  match p, s with
  | EmptyString, _ => Some s
  | String a p', String b s' => if Ascii.eqb a b then strip_prefix p' s' else None
  | String _ _, EmptyString => None
  end.

Definition strip_png_prefix (data : string) : string :=
  default data (strip_prefix png_prefix data).

(** [window.removeEventListener("message", handler)]: the closure of the
    request is taken off the list. *)
Definition removeEventListener (h : Handler) (w : World) : World :=
  set_listeners
    (List.filter (fun h' => negb (Nat.eqb (h_request h') (h_request h))) (listeners w)) w.

(** [window.addEventListener("message", handler)]. *)
Definition addEventListener (h : Handler) (w : World) : World :=
  set_listeners (listeners w ++ [h])%list w.

(** The cache write of the success branch. *)
Definition populate (h : Handler) (data : string) (w : World) : World :=
  if Js.truthy_object (cache (settings w)) then
    if location_eqb (location (cache (settings w))) Memory then
      set_graph_cache (<[h_hash h := data]> (graph_cache w)) w
    else if location_eqb (location (cache (settings w))) Filesystem then
      if existsSync (h_cache_dir h) w
      then set_pending (pending w ++ [WriteFile (h_cache_target h) (strip_png_prefix data)])%list w
      else Notice ("desmos-graph: cache directory not found: '" ++ h_cache_dir h ++ "'") w
    else w
  else w.

(** The guard of [handler]: origin, type tag and fingerprint. *)
Definition matches (h : Handler) (message : Message) : bool :=
  String.eqb (origin message) "app://obsidian.md"
  && String.eqb (msg_t message) "desmos-graph"
  && String.eqb (msg_hash message) (h_hash h).

(** The closure [handler], run on one message. *)
Definition handler (h : Handler) (message : Message) (w : World) : World :=
  if matches h message
  then
    let w1 := empty (h_el h) w in
    let w2 :=
      if String.eqb (msg_d message) "error"
      then renderError (msg_data message) (h_el h) w1
      else w1 in
    if String.eqb (msg_d message) "render"
    then
      let data := msg_data message in
      let w3 := removeEventListener h w2 in
      let w4 := appendChild (h_el h) (Img data) w3 in
      let w5 := set_resolved ({[h_request h]} ∪ resolved w4) w4 in
      populate h data w5
    else w2
  else w.

(** The cache miss: the page is handed to the external renderer and the
    handler is registered. *)
Definition submit (P : Platform) (vault_root : string) (args : Dsl.Dsl) (el : nat)
  (w : World) : World :=
  let h :=
    {| h_request := next_request w;
       h_hash := Dsl.hash args;
       h_el := el;
       h_cache_dir := cache_dir P vault_root (settings w);
       h_cache_target := cache_target P vault_root (settings w) (Dsl.hash args) |} in
  addEventListener h (appendChild el (Iframe args) (set_next_request (S (next_request w)) w)).

(** [location == Memory && hash in plugin.graph_cache]. *)
Definition memory_hit (args : Dsl.Dsl) (w : World) : bool :=
  location_eqb (location (cache (settings w))) Memory
  && bool_decide (is_Some (graph_cache w !! Dsl.hash args)).

(** [location == Filesystem && fs.existsSync(cache_target)]. *)
Definition filesystem_hit (P : Platform) (vault_root : string) (args : Dsl.Dsl)
  (w : World) : bool :=
  location_eqb (location (cache (settings w))) Filesystem
  && existsSync (cache_target P vault_root (settings w) (Dsl.hash args)) w.

(** [Renderer.render(args, settings, el, plugin)], where [settings] is the
    plugin's settings object; the promise it returns is the request
    [next_request w].  The two cache branches return without a call of
    [resolve]; after [memory_hit] the lookup of the hash finds the data. *)
Definition render (P : Platform) (vault_root : string) (args : Dsl.Dsl) (el : nat)
  (w : World) : World :=
  let hash := Dsl.hash args in
  let target := cache_target P vault_root (settings w) hash in
  if Js.truthy_object (cache (settings w)) then
    if memory_hit args w
    then
      match graph_cache w !! hash with
      | Some data =>
          appendChild el (Img data) (set_next_request (S (next_request w)) w)
      | None => w
      end
    else if filesystem_hit P vault_root args w
    then
      set_pending (pending w ++ [ReadFileThenShow target el])%list
        (set_next_request (S (next_request w)) w)
    else submit P vault_root args el w
  else submit P vault_root args el w.

(** The window delivers a message to the listeners registered when the
    dispatch starts, in registration order. *)
Definition dispatch (message : Message) (w : World) : World :=
  List.fold_left (fun w' h => handler h message w') (listeners w) w.

(** Completion of a started file operation.  A read shows the image when
    the file is there; a write stores the bytes, or, when it fails, raises
    the notice of its [catch].  The bytes of a file are kept as their
    base64 text: the write decodes the text it is given and the read
    encodes the bytes again, which gives the text back when it is the
    canonical encoding of some bytes ([Base64.encode]), as the picture of a
    data URL is; the statements about a read after a write are made for
    such text. *)
Definition complete (op : FsOp) (write_error : option string) (w : World) : World :=
  match op with
  | ReadFileThenShow path el =>
      match files w !! path with
      | Some (File b64) => appendChild el (Img (png_prefix ++ b64)) w
      | _ => w
      end
  | WriteFile path b64 =>
      match write_error with
      | None => set_files (<[path := File b64]> (files w)) w
      | Some err =>
          Notice ("desmos-graph: unexpected error when trying to cache graph: " ++ err) w
      end
  end.

(** The settings tab's cache toggle: [settings.cache.enabled = value]. *)
Definition set_cache_enabled (value : bool) (w : World) : World :=
  set_settings
    {| debounce := debounce (settings w);
       cache := {| enabled := value;
                   location := location (cache (settings w));
                   directory := directory (cache (settings w)) |} |} w.

(** Every registered closure belongs to a request already made. *)
Definition well_numbered (w : World) : Prop :=
  Forall (fun h => (h_request h < next_request w)%nat) (listeners w).

(** Whether the external renderer was invoked for the element: an iframe is
    among its children. *)
Definition is_iframe (n : Node) : bool :=
  match n with Iframe _ => true | _ => false end.

Definition renderer_invoked (el : nat) (w : World) : bool :=
  existsb is_iframe (children el w).

End Renderer.

(** ** Sample inputs *)

Module Sample.

Import Renderer.

(** A POSIX reading of [path.isAbsolute], [path.join] and [os.tmpdir]. *)
Definition posix : Platform :=
  {| isAbsolute := fun p => String.prefix "/" p;
     path_join := fun a b => a ++ "/" ++ b;
     tmpdir := "/tmp" |}.

(** The value of [Dsl.parse("y=x")]. *)
Definition spec_yx : Dsl.Dsl :=
  {| Dsl.equations := [[("equation", "y=x")]];
     Dsl.fields := Dsl.FIELD_DEFAULTS;
     Dsl.hash := "33224ef44cef3760a5fadd957a6b38309773af1ecb4d79eea0c608a103fe4234" |}.

Definition picture : string := "data:image/png;base64,iVBORw0KGgo=".

(** The settings after the cache toggle of the settings tab is switched
    off. *)
Definition settings_off : Settings :=
  {| debounce := 500;
     cache := {| enabled := false; location := Memory; directory := None |} |}.

Definition settings_off_fs : Settings :=
  {| debounce := 500;
     cache := {| enabled := false; location := Filesystem; directory := None |} |}.

Definition world (s : Settings) (c : gmap string string) (f : gmap string FsEntry)
  : World :=
  {| settings := s; graph_cache := c; files := f; dom := ∅; listeners := [];
     resolved := ∅; pending := []; notices := []; next_request := 0 |}.

(** A session with nothing cached. *)
Definition cold (s : Settings) : World := world s ∅ ∅.

(** A session whose memory cache holds the picture of [spec_yx]. *)
Definition warm (s : Settings) : World :=
  world s {[ Dsl.hash spec_yx := picture ]} ∅.

(** The completion signals of the calculator page for [spec_yx]. *)
Definition render_message : Message :=
  {| origin := "app://obsidian.md"; msg_t := "desmos-graph"; msg_d := "render";
     msg_data := picture; msg_hash := Dsl.hash spec_yx |}.

Definition error_message : Message :=
  {| origin := "app://obsidian.md"; msg_t := "desmos-graph"; msg_d := "error";
     msg_data := "Too many variables"; msg_hash := Dsl.hash spec_yx |}.

End Sample.

(** ** More of the bundle: the plotting commands, the plugin and its settings *)

Module JsReplace.

(** [s.slice(n)]. *)
Fixpoint slice_from (n : nat) (s : string) : string :=
  match n, s with
  | O, _ => s
  | S k, String _ s' => slice_from k s'
  | S _, EmptyString => EmptyString
  end.

(** [s.replace(pattern, replacement)] for a non-empty string pattern and a
    replacement without dollar sign: the first occurrence only. *)
Fixpoint replace (pattern replacement s : string) : string :=
  match s with
  | EmptyString => EmptyString
  | String c s' =>
      if String.prefix pattern s
      then replacement ++ slice_from (String.length pattern) s
      else String c (replace pattern replacement s')
  end.

(** [s.replaceAll(pattern, replacement)], same conventions: every occurrence,
    from the left, without overlap; [skip] counts the characters of a
    matched pattern still to be dropped. *)
Fixpoint replaceAll_from (pattern replacement s : string) (skip : nat) : string :=
  match s with
  | EmptyString => EmptyString
  | String c s' =>
      match skip with
      | S k => replaceAll_from pattern replacement s' k
      | O =>
          if String.prefix pattern s
          then replacement
               ++ replaceAll_from pattern replacement s' (Nat.pred (String.length pattern))
          else String c (replaceAll_from pattern replacement s' O)
      end
  end.

Definition replaceAll (pattern replacement s : string) : string :=
  replaceAll_from pattern replacement s O.

End JsReplace.

(** The callback of [equations.map] in [Renderer.render]: one equation as a
    [calculator.setExpression] command of the calculator page. *)

Module Expressions.

Import Dsl.

Definition BACKSLASH : string := "\".

(** The chain of [replaceAll] on the restriction. *)
Definition restriction_latex (restriction : string) : string :=
  JsReplace.replaceAll ">" "\\ge "
    (JsReplace.replaceAll "<" "\\le "
       (JsReplace.replaceAll ">=" "\\geq "
          (JsReplace.replaceAll "<=" "\\leq "
             (JsReplace.replaceAll "}" "\\}"
                (JsReplace.replaceAll "{" "\\{" restriction))))).

(** The text between the quotes of [latex: "..."]; an absent restriction
    counts as the empty string. *)
Definition latex (equation : Obj) : string :=
  JsReplace.replace BACKSLASH "\\" (default EmptyString (equation_of equation))
  ++ restriction_latex (default EmptyString (restriction_of equation)).

Definition line_styles : list string := ["SOLID"; "DASHED"; "DOTTED"].
Definition point_styles : list string := ["POINT"; "OPEN"; "CROSS"].

Definition style_line (equation : Obj) : string :=
  match style_of equation with
  | Some style =>
      if Js.truthy style then
        if Js.array_includes line_styles style
        then "lineStyle: Desmos.Styles." ++ style ++ ","
        else if Js.array_includes point_styles style
        then "pointStyle: Desmos.Styles." ++ style ++ ","
        else EmptyString
      else EmptyString
  | None => EmptyString
  end.

Definition color_line (equation : Obj) : string :=
  match color_of equation with
  | Some color =>
      if Js.truthy color then
        if isHexColor color
        then "color: " ++ String DQUOTE color ++ String DQUOTE ","
        else "color: Desmos.Colors." ++ color ++ ","
      else EmptyString
  | None => EmptyString
  end.

Definition indent20 : string := "                    ".
Definition indent16 : string := "                ".

(** The template literal, line by line. *)
Definition expression (equation : Obj) : string :=
  "calculator.setExpression({" ++ String LF
    (indent20 ++ "latex: " ++ String DQUOTE (latex equation) ++ String DQUOTE ","
     ++ String LF (indent20 ++ String LF (indent20 ++ style_line equation
     ++ String LF (String LF (indent20 ++ color_line equation
     ++ String LF (indent16 ++ "});")))))).

(** The commands of all equations, joined without a separator. *)
Definition expressions (equations : list Obj) : string :=
  Js.join EmptyString (List.map expression equations).

End Expressions.

(** What the renderer relies on in an equation of a parsed document. *)

Module DslInvariant.

Import Dsl.

(** None of the banned characters occurs in the text. *)
Definition no_banned (s : string) : Prop :=
  Forall (fun c => Js.includes c s = false) bannedChars.

(** What the parser guarantees of an equation object it returns. *)
Definition safe_equation (e : Obj) : Prop :=
  (exists expr, equation_of e = Some expr /\ no_banned expr)
  /\ (forall r, restriction_of e = Some r -> no_banned r)
  /\ (forall s, style_of e = Some s -> In s EquationStyle)
  /\ (forall c, color_of e = Some c -> In c EquationColor \/ isHexColor c = true).

(** The number of occurrences of a character in a text. *)
Fixpoint count (c : ascii) (s : string) : nat :=
  match s with
  | EmptyString => O
  | String d s' => ((if Ascii.eqb c d then 1 else 0) + count c s')%nat
  end.

(** All six fields are safe integers: the document holds the numbers the
    code holds. *)
Definition safe_fields (f : Fields) : bool :=
  Js.isSafeInteger (width f) && Js.isSafeInteger (height f)
  && Js.isSafeInteger (left f) && Js.isSafeInteger (right f)
  && Js.isSafeInteger (bottom f) && Js.isSafeInteger (top f).

(** The list with a text put after its last element. *)
Fixpoint append_last (suffix : string) (l : list string) : list string :=
  match l with
  | [] => []
  | [x] => [x ++ suffix]
  | x :: rest => x :: append_last suffix rest
  end.

(** A text that cannot continue a decimal numeral: it is empty or starts
    with a character that is neither a digit nor the x of a hex prefix. *)
Definition ends_numeral (rest : string) : bool :=
  match rest with
  | EmptyString => true
  | String c _ =>
      negb (Js.is_digit c) && negb (Ascii.eqb c "x") && negb (Ascii.eqb c "X")
  end.


(** The value of the last entry of a settings block for a key. *)
Fixpoint last_setting (key : string) (entries : list (string * string))
  : option string :=
  match entries with
  | [] => None
  | (k, v) :: rest =>
      match last_setting key rest with
      | Some v' => Some v'
      | None => if String.eqb k key then Some v else None
      end
  end.

End DslInvariant.

(** The plugin (class [Desmos]) and its settings tab (class [SettingsTab]). *)

Module Plugin.

Import Renderer.

(** The [onChange] of the debounce text field. *)
Definition debounce_onChange (value : string) (s : Settings) : Settings :=
  {| debounce :=
       match Js.parseInt value with
       | None => debounce DEFAULT_SETTINGS_STATIC
       | Some val =>
           if val <? 0 then debounce DEFAULT_SETTINGS_STATIC else val
       end;
     cache := cache s |}.

(** The [onChange] of the cache location dropdown. *)
Definition location_onChange (value : CacheLocation) (s : Settings) : Settings :=
  {| debounce := debounce s;
     cache := {| enabled := enabled (cache s);
                 location := value;
                 directory := directory (cache s) |} |}.

(** The [onChange] of the cache directory text field. *)
Definition directory_onChange (value : string) (s : Settings) : Settings :=
  {| debounce := debounce s;
     cache := {| enabled := enabled (cache s);
                 location := location (cache s);
                 directory := Some value |} |}.

(** The arrow function [render] of [onload]: a [SyntaxError] of the parser
    is shown in the element. *)
Definition render_source (P : Platform) (vault_root source : string) (el : nat)
  (w : World) : World :=
  match Dsl.parse source with
  | Dsl.Ok args => render P vault_root args el w
  | Dsl.Err err => renderError (Dsl.error_message err) el w
  end.

(** The plugin object: the [skip_debounce] flag beside the world. *)
Record State : Type := mkState {
  skip_debounce : bool;
  world : World
}.

(** The handler of the workspace event [layout-change]. *)
Definition layout_change (p : State) : State :=
  {| skip_debounce := true; world := world p |}.

(** How a code block is handed on: rendered at once, or passed to the
    debounced renderer of [obsidian.debounce]. *)
Inductive Scheduling : Type :=
  | Immediate
  | Debounced (source : string) (el : nat).

(** The markdown code block processor for [desmos-graph]. *)
Definition code_block_processor (P : Platform) (vault_root source : string) (el : nat)
  (p : State) : Scheduling * State :=
  let d := debounce (settings (world p)) in
  if skip_debounce p || (d =? 0) || (d <? 1)
  then (Immediate,
        {| skip_debounce := false;
           world := render_source P vault_root source el (world p) |})
  else (Debounced source el, p).

End Plugin.

(** The messages that pass the guard of a handler. *)
Module Signals.

Import Renderer.

(** The message of the page's [asyncScreenshot] callback, as the handler
    of the request for [hash] sees it. *)
Definition screenshot (hash data : string) : Message :=
  {| origin := "app://obsidian.md"; msg_t := "desmos-graph"; msg_d := "render";
     msg_data := data; msg_hash := hash |}.

(** The message of the page's [expressionAnalysis] observer for an
    expression in error, as the handler of the request for [hash] sees
    it. *)
Definition analysis_error (hash data : string) : Message :=
  {| origin := "app://obsidian.md"; msg_t := "desmos-graph"; msg_d := "error";
     msg_data := data; msg_hash := hash |}.

(** The handlers of [l] run on the message, in order; [dispatch] is
    [deliver] on the listeners registered when it starts. *)
Definition deliver (m : Message) (l : list Handler) (w : World) : World :=
  List.fold_left (fun w' h => handler h m w') l w.

End Signals.

(** ** Base64 (RFC 4648), the encoding of the cached pictures *)

Module Base64.

Definition alphabet : string :=
  "ABCDEFGHIJKLMNOPQRSTUVWXYZabcdefghijklmnopqrstuvwxyz0123456789+/".

(** The character of a six-bit value. *)
Definition digit (n : N) : ascii :=
  default "A"%char (String.get (N.to_nat n) alphabet).

(** [Buffer.from(bytes).toString("base64")]: three bytes give four
    characters, and the last group is padded with [=]. *)
Fixpoint encode (bytes : string) : string :=
  match bytes with
  | EmptyString => EmptyString
  | String a EmptyString =>
      let x := N_of_ascii a in
      String (digit (x / 4)) (String (digit (x mod 4 * 16)) "==")
  | String a (String b EmptyString) =>
      let x := N_of_ascii a in
      let y := N_of_ascii b in
      String (digit (x / 4))
        (String (digit (x mod 4 * 16 + y / 16))
           (String (digit (y mod 16 * 4)) "="))
  | String a (String b (String c rest)) =>
      let x := N_of_ascii a in
      let y := N_of_ascii b in
      let z := N_of_ascii c in
      String (digit (x / 4))
        (String (digit (x mod 4 * 16 + y / 16))
           (String (digit (y mod 16 * 4 + z / 64))
              (String (digit (z mod 64)) (encode rest))))
  end.

End Base64.

(** ** The earlier parser and renderer

    The sources also hold the parser and the renderer as they were before
    equations had styles and the cache had a location: [Dsl] with its
    settings as constructor parameters, and [Renderer.render] with
    [settings.cache] as a boolean. *)

Module LegacyDsl.

(** A number of these sources is an integer or NaN ([None]), as
    [Js.parseInt] gives it; a property of the settings object is a number
    or absent (undefined). *)
Definition is_undefined (v : option (option Z)) : bool :=
  match v with None => true | Some _ => false end.

(** [a === b] on numbers: NaN equals nothing, itself included. *)
Definition strict_equals (a b : option Z) : bool :=
  match a, b with
  | Some x, Some y => x =? y
  | _, _ => false
  end.

(** [setting.split("=").map((e) => e.trim())], read at the indices 0 and
    1; index 1 is undefined for a setting without equals sign. *)
Definition setting_pair (setting : string) : string * option string :=
  match List.map Js.trim (Js.split "=" setting) with
  | key :: value :: _ => (key, Some value)
  | [key] => (key, None)
  | [] => (EmptyString, None)
  end.

(** [parseInt(setting[1])]; [parseInt(undefined)] is NaN. *)
Definition parse_value (value : option string) : option Z :=
  match value with
  | Some v => Js.parseInt v
  | None => None
  end.

(** The callback of [reduce]: [settings[setting[0]] = s === NaN ? undefined : s].
    A property set to undefined reads as an absent one. *)
Definition setting_step (settings : gmap string (option Z))
  (setting : string * option string) : gmap string (option Z) :=
  let s := parse_value (snd setting) in
  if strict_equals s None
  then delete (fst setting) settings
  else <[fst setting := s]> settings.

Definition setting_pairs (block : string) : list (string * option string) :=
  List.map setting_pair
    (Js.filter_Boolean (List.map Js.trim (Js.split ";" block))).

Definition parse_settings (block : string) : gmap string (option Z) :=
  List.fold_left setting_step (setting_pairs block) ∅.

Record Dsl : Type := mkDsl {
  equations : list string;
  width : option Z;
  height : option Z;
  boundry_left : option Z;
  boundry_right : option Z;
  boundry_bottom : option Z;
  boundry_top : option Z;
  hash : string
}.

(** A parameter with a default value: the default replaces undefined, and
    nothing else. *)
Definition or_default (d : Z) (v : option (option Z)) : option Z :=
  match v with
  | None => Some d
  | Some n => n
  end.

(** [JSON.stringify] of a number: NaN is written [null]. *)
Definition json_number (n : option Z) : string :=
  match n with
  | Some z => Js.number_toString z
  | None => "null"
  end.

Definition json_number_property (key : string) (n : option Z) : string :=
  Js.quote key ++ ":" ++ json_number n.

(** [JSON.stringify(this)] in the constructor, when [hash] is not yet
    set. *)
Definition stringify (eqs : list string) (w h l r b t : option Z) : string :=
  "{" ++ Js.join ","
    [ Js.quote "equations" ++ ":" ++ "[" ++ Js.join "," (List.map Js.quote eqs) ++ "]";
      json_number_property "width" w;
      json_number_property "height" h;
      json_number_property "boundry_left" l;
      json_number_property "boundry_right" r;
      json_number_property "boundry_bottom" b;
      json_number_property "boundry_top" t ] ++ "}".

(** The constructor, called with the properties of the settings object. *)
Definition new_Dsl (eqs : list string) (w h l r b t : option (option Z)) : Dsl :=
  let w' := or_default 600 w in
  let h' := or_default 400 h in
  let l' := or_default (-10) l in
  let r' := or_default 10 r in
  let b' := or_default (-7) b in
  let t' := or_default 7 t in
  {| equations := eqs;
     width := w'; height := h';
     boundry_left := l'; boundry_right := r';
     boundry_bottom := b'; boundry_top := t';
     hash := Sha256.sha256_hex (stringify eqs w' h' l' r' b' t') |}.

Inductive ParseError : Type :=
  | TooManySegments
  | IncompleteLeftRight
  | IncompleteBottomTop.

Definition error_message (e : ParseError) : string :=
  match e with
  | TooManySegments => "Too many segments"
  | IncompleteLeftRight =>
      "Incomplete boundaries: If you specify one boundry you must also specify the other (boundry_left, boundry_right"
  | IncompleteBottomTop =>
      "Incomplete boundaries: If you specify one boundry you must also specify the other (boundry_bottom, boundry_top"
  end.

(** [(a === undefined) == (b != undefined)]. *)
Definition incomplete (a b : option (option Z)) : bool :=
  Bool.eqb (is_undefined a) (negb (is_undefined b)).

Definition parse (source : string) : ParseError + Dsl :=
  let split := Js.split "---" source in
  let equations :=
    match split with
    | [] => Some []
    | [s0] => Some (Dsl.lines s0)
    | [_; s1] => Some (Dsl.lines s1)
    | _ => None
    end in
  match equations with
  | None => inl TooManySegments
  | Some equations =>
      let settings :=
        match split with
        | [s0; _] => parse_settings s0
        | _ => ∅
        end in
      if incomplete (settings !! "boundry_left") (settings !! "boundry_right")
      then inl IncompleteLeftRight
      else if incomplete (settings !! "boundry_bottom") (settings !! "boundry_top")
      then inl IncompleteBottomTop
      else inr (new_Dsl equations
                  (settings !! "width") (settings !! "height")
                  (settings !! "boundry_left") (settings !! "boundry_right")
                  (settings !! "boundry_bottom") (settings !! "boundry_top"))
  end.

(** The last entry of a settings block for a key. *)
Fixpoint last_pair (key : string) (entries : list (string * option string))
  : option (option string) :=
  match entries with
  | [] => None
  | (k, v) :: rest =>
      match last_pair key rest with
      | Some v' => Some v'
      | None => if String.eqb k key then Some v else None
      end
  end.

(** Whether a settings block has an entry for the key. *)
Definition given (key : string) (entries : list (string * option string)) : bool :=
  match last_pair key entries with
  | Some _ => true
  | None => false
  end.

End LegacyDsl.

Module LegacyRenderer.

Import Renderer.

(** What [render] reads of the settings. *)
Record Settings : Type := mkSettings {
  cache : bool;
  cache_directory : option string
}.

Inductive Node : Type :=
  | Img (src : string)
  | Iframe (args : LegacyDsl.Dsl).

(** The closure [handler] of one call of [render], with the [el],
    [cache_dir] and [cache_target] it captured. *)
Record Handler : Type := mkHandler {
  h_request : nat;
  h_el : nat;
  h_cache_dir : string;
  h_cache_target : string
}.

Record World : Type := mkWorld {
  settings : Settings;
  files : gmap string FsEntry;
  dom : gmap nat (list Node);
  listeners : list Handler;
  pending : list FsOp;
  notices : list string;
  next_request : nat
}.

Definition children (el : nat) (w : World) : list Node :=
  default [] (dom w !! el).

Definition appendChild (el : nat) (n : Node) (w : World) : World :=
  mkWorld (settings w) (files w) (<[el := (children el w ++ [n])%list]> (dom w))
    (listeners w) (pending w) (notices w) (next_request w).

Definition empty (el : nat) (w : World) : World :=
  mkWorld (settings w) (files w) (<[el := []]> (dom w))
    (listeners w) (pending w) (notices w) (next_request w).

Definition existsSync (path : string) (w : World) : bool :=
  bool_decide (is_Some (files w !! path)).

Definition set_listeners (l : list Handler) (w : World) : World :=
  mkWorld (settings w) (files w) (dom w) l (pending w) (notices w) (next_request w).

Definition start (op : FsOp) (w : World) : World :=
  mkWorld (settings w) (files w) (dom w) (listeners w) (pending w ++ [op])%list
    (notices w) (next_request w).

Definition Notice (text : string) (w : World) : World :=
  mkWorld (settings w) (files w) (dom w) (listeners w) (pending w)
    (notices w ++ [text])%list (next_request w).

Definition next (w : World) : World :=
  mkWorld (settings w) (files w) (dom w) (listeners w) (pending w) (notices w)
    (S (next_request w)).

Definition cache_dir (P : Platform) (vault_root : string) (s : Settings) : string :=
  match cache_directory s with
  | Some dir =>
      if Js.truthy dir
      then if isAbsolute P dir then dir else path_join P vault_root dir
      else tmpdir P
  | None => tmpdir P
  end.

Definition cache_target (P : Platform) (vault_root : string) (s : Settings)
  (hash : string) : string :=
  path_join P (cache_dir P vault_root s) ("desmos-graph-" ++ hash ++ ".png").

(** The plotting command of one equation. *)
Definition expression (equation : string) : string :=
  "calculator.setExpression({ latex: "
  ++ String Dsl.DQUOTE (JsReplace.replace Expressions.BACKSLASH "\\" equation)
  ++ String Dsl.DQUOTE " });".

(** The closure [handler], run on one message: the guard reads the origin
    and the type tag. *)
Definition matches (message : Message) : bool :=
  String.eqb (origin message) "app://obsidian.md"
  && String.eqb (msg_t message) "desmos-graph".

Definition handler (h : Handler) (message : Message) (w : World) : World :=
  if matches message
  then
    let data := msg_data message in
    let w1 :=
      set_listeners
        (List.filter (fun h' => negb (Nat.eqb (h_request h') (h_request h)))
           (listeners w)) w in
    let w2 := appendChild (h_el h) (Img data) (empty (h_el h) w1) in
    if cache (settings w2) then
      if existsSync (h_cache_dir h) w2
      then start (WriteFile (h_cache_target h) (strip_png_prefix data)) w2
      else Notice ("desmos-graph: cache directory not found: '" ++ h_cache_dir h ++ "'") w2
    else w2
  else w.

(** [Renderer.render(args, settings, el, vault_root)]. *)
Definition render (P : Platform) (vault_root : string) (args : LegacyDsl.Dsl)
  (el : nat) (w : World) : World :=
  let dir := cache_dir P vault_root (settings w) in
  let target := cache_target P vault_root (settings w) (LegacyDsl.hash args) in
  if cache (settings w) && existsSync target w
  then start (ReadFileThenShow target el) w
  else
    let h := {| h_request := next_request w; h_el := el;
                h_cache_dir := dir; h_cache_target := target |} in
    let w1 := appendChild el (Iframe args) (next w) in
    set_listeners (listeners w1 ++ [h])%list w1.

(** The handlers of [l] run on the message, in order. *)
Definition deliver (message : Message) (l : list Handler) (w : World) : World :=
  List.fold_left (fun w' h => handler h message w') l w.

(** The window delivers a message to the listeners registered when the
    dispatch starts. *)
Definition dispatch (message : Message) (w : World) : World :=
  deliver message (listeners w) w.

End LegacyRenderer.

(** * Properties *)

(** ** The digest *)

Module Sha256Facts.

(** The one-block and the two-block example of FIPS 180-4. *)
Lemma sha256_abc :
  Sha256.sha256_hex "abc"
  = "ba7816bf8f01cfea414140de5dae2223b00361a396177a9cb410ff61f20015ad".
Proof. vm_compute. reflexivity. Qed.

Lemma sha256_two_blocks :
  Sha256.sha256_hex "abcdbcdecdefdefgefghfghighijhijkijkljklmklmnlmnomnopnopq"
  = "248d6a61d20638b8e5c026930c3e6039a33ce45964ff2167f6ecedd419db06c1".
Proof. vm_compute. reflexivity. Qed.

End Sha256Facts.

(** ** The settings block *)

Module DslFacts.
Import Dsl.

(** *** Objects *)

Lemma obj_get_set_eq key v o : obj_get key (obj_set key v o) = Some v.
Proof.
  induction o as [|[k v0] o IH]; cbn.
  - now rewrite String.eqb_refl.
  - destruct (String.eqb k key) eqn:E; cbn; rewrite E; [reflexivity|exact IH].
Qed.

Lemma obj_get_set_ne key key' v o :
  key <> key' -> obj_get key' (obj_set key v o) = obj_get key' o.
Proof.
  intros Hne. induction o as [|[k v0] o IH]; cbn.
  - destruct (String.eqb key key') eqn:E; [|reflexivity].
    apply String.eqb_eq in E. contradiction.
  - destruct (String.eqb k key) eqn:E; cbn.
    + apply String.eqb_eq in E. subst k.
      destruct (String.eqb key key') eqn:E'; [|reflexivity].
      apply String.eqb_eq in E'. contradiction.
    + now rewrite IH.
Qed.

Lemma array_includes_In l s : Js.array_includes l s = true <-> In s l.
Proof.
  unfold Js.array_includes. rewrite existsb_exists. split.
  - intros (x & Hx & E). apply String.eqb_eq in E. now subst.
  - intros H. exists s. split; [assumption|apply String.eqb_refl].
Qed.

(** *** Sequencing *)

Lemma reduceM_app {A B} (f : B -> A -> Result B) l1 l2 acc :
  reduceM f (l1 ++ l2)%list acc = (acc' ← reduceM f l1 acc; reduceM f l2 acc').
Proof.
  revert acc. induction l1 as [|x l1 IH]; intros acc; cbn; [reflexivity|].
  destruct (f acc x); cbn; [apply IH|reflexivity].
Qed.

(** *** Errors *)

(** The texts of three errors, as the user reads them. *)
Lemma error_message_examples :
  error_message (MissingFieldValue "width") = "Field 'width' must have a value"
  /\ error_message (UnrecognizedField "Width") = "Unrecognised field: Width"
  /\ error_message (InvalidBoundaryLeftRight 5 1)
     = "Right boundary (1) must be greater than left boundary (5)".
Proof. repeat split. Qed.

(** *** Settings *)

Lemma hasOwnProperty_In key : hasOwnProperty key = true <-> In key field_keys.
Proof. apply array_includes_In. Qed.

Lemma field_step_recognized settings key value :
  hasOwnProperty key = true -> value <> EmptyString ->
  field_step settings (key, value)
  = match Js.parseInt value with
    | None => Err (InvalidFieldType key)
    | Some s => Ok (<[key := s]> settings)
    end.
Proof.
  intros Hk Hv. unfold field_step. rewrite Hk.
  destruct value; [contradiction|reflexivity].
Qed.

Lemma field_value_assign o key n :
  hasOwnProperty key = true -> o !! key = Some n ->
  field_value (assign_fields FIELD_DEFAULTS o) key = Some n.
Proof.
  intros Hk Ho. apply hasOwnProperty_In in Hk. cbn in Hk.
  destruct Hk as [<-|[<-|[<-|[<-|[<-|[<-|[]]]]]]]; cbn; rewrite Ho; reflexivity.
Qed.

Lemma parse_two_segments source block body :
  Js.split "---" source = [block; body] ->
  parse source = (settings ← parse_fields block; build (lines body) settings).
Proof.
  intros H. unfold parse. rewrite H. cbn.
  destruct (parse_fields block); reflexivity.
Qed.

Lemma upper_char_inv c d :
  Js.upper_char c = d -> c = d \/ c = ascii_of_N (N_of_ascii d + 32).
Proof.
  intros <-. destruct c as [[] [] [] [] [] [] [] []]; vm_compute; auto.
Qed.

(** Splits a key on the two cases of each of its letters. *)
Ltac case_variants Hup :=
  repeat
    match type of Hup with
    | Js.toUpperCase ?k = _ =>
        destruct k as [|?c ?k]; cbn [Js.toUpperCase] in Hup;
        try discriminate Hup;
        try (let Hc := fresh "Hc" in
             injection Hup as Hc Hup; apply upper_char_inv in Hc;
             vm_compute in Hc; destruct Hc; subst)
    end.

(** A key that is a recognized name up to letter case, and not that name,
    is not recognized, and the one-entry settings block that uses it is
    rejected. *)
Lemma case_variant_unrecognized key name :
  In name field_keys -> Js.toUpperCase key = Js.toUpperCase name -> key <> name ->
  hasOwnProperty key = false
  /\ parse (key ++ "=10---y=x") = Err (UnrecognizedField key).
Proof.
  intros Hin Hup Hne. cbn in Hin.
  destruct Hin as [<-|[<-|[<-|[<-|[<-|[<-|[]]]]]]];
    match type of Hup with
    | _ = ?r => let v := eval vm_compute in r in change r with v in Hup
    end.
  all: case_variants Hup.
  all: try (exfalso; apply Hne; reflexivity).
  all: split; vm_compute; reflexivity.
Qed.


(** The entry of a recognized key with a non-empty value fails with the
    integer-value error exactly when [parseInt] gives NaN, and so does
    [parse]; otherwise the entry stores what [parseInt] gives. *)
Lemma entry_of_numeric_field settings key value :
  hasOwnProperty key = true ->
  value <> EmptyString ->
  field_step settings (key, EmptyString) = Err (MissingFieldValue key)
  /\ (field_step settings (key, value) = Err (InvalidFieldType key)
      <-> Js.parseInt value = None)
  /\ (forall n, Js.parseInt value = Some n ->
        field_step settings (key, value) = Ok (<[key := n]> settings)
        /\ field_value (assign_fields FIELD_DEFAULTS (<[key := n]> settings)) key
           = Some n)
  /\ (forall pre post, reduceM field_step pre ∅ = Ok settings ->
        reduceM field_step (pre ++ (key, value) :: post)%list ∅
        = (s ← field_step settings (key, value); reduceM field_step post s))
  /\ (forall source block body pre post,
        Js.split "---" source = [block; body] ->
        setting_entries block = (pre ++ (key, value) :: post)%list ->
        reduceM field_step pre ∅ = Ok settings ->
        Js.parseInt value = None ->
        parse source = Err (InvalidFieldType key)).
Proof.
  intros Hk Hv.
  assert (Hpre : forall pre post, reduceM field_step pre ∅ = Ok settings ->
        reduceM field_step (pre ++ (key, value) :: post)%list ∅
        = (s ← field_step settings (key, value); reduceM field_step post s)).
  { intros pre post Hp. rewrite reduceM_app, Hp. reflexivity. }
  split; [unfold field_step; now rewrite Hk|].
  rewrite (field_step_recognized settings key value Hk Hv) in *.
  repeat split.
  - destruct (Js.parseInt value); [discriminate|reflexivity].
  - intros ->. reflexivity.
  - rewrite H. reflexivity.
  - apply field_value_assign; [assumption|apply lookup_insert_eq].
  - exact Hpre.
  - intros source block body pre post Hs He Hp Hn.
    rewrite (parse_two_segments _ _ _ Hs). unfold parse_fields.
    rewrite He, (Hpre pre post Hp), Hn. reflexivity.
Qed.

(** C10: the keys of a settings block are compared as they are written.  A
    key that equals a recognized name only up to letter case is not
    recognized: its entry fails with the unrecognised-field error, wherever
    the reduction reaches it, and so does [parse]; a modifier, meanwhile,
    is matched through [toUpperCase]. *)
Theorem field_keys_are_case_sensitive key name :
  In name field_keys ->
  Js.toUpperCase key = Js.toUpperCase name ->
  key <> name ->
  (forall settings value,
      field_step settings (key, value) = Err (UnrecognizedField key))
  /\ (forall pre post settings value,
        reduceM field_step pre ∅ = Ok settings ->
        reduceM field_step (pre ++ (key, value) :: post)%list ∅
        = Err (UnrecognizedField key))
  /\ (forall source block body pre post settings value,
        Js.split "---" source = [block; body] ->
        setting_entries block = (pre ++ (key, value) :: post)%list ->
        reduceM field_step pre ∅ = Ok settings ->
        parse source = Err (UnrecognizedField key))
  /\ parse (key ++ "=10---y=x") = Err (UnrecognizedField key)
  /\ process_segment [("equation", "y=x")] "solid"
     = Ok [("equation", "y=x"); ("style", "SOLID")].
Proof.
  intros Hin Hup Hne.
  destruct (case_variant_unrecognized key name Hin Hup Hne) as [Hk Hp].
  assert (Hstep : forall settings value,
             field_step settings (key, value) = Err (UnrecognizedField key)).
  { intros settings value. unfold field_step. rewrite Hk. reflexivity. }
  assert (Hred : forall pre post settings value,
        reduceM field_step pre ∅ = Ok settings ->
        reduceM field_step (pre ++ (key, value) :: post)%list ∅
        = Err (UnrecognizedField key)).
  { intros pre post settings value Hpre.
    rewrite reduceM_app, Hpre.
    change (reduceM field_step ((key, value) :: post) settings
            = Err (UnrecognizedField key)).
    cbn [reduceM]. rewrite Hstep. reflexivity. }
  repeat split; try assumption.
  intros source block body pre post settings value Hs He Hpre.
  rewrite (parse_two_segments _ _ _ Hs). unfold parse_fields.
  rewrite He, (Hred pre post settings value Hpre). reflexivity.
Qed.

Lemma field_keys_are_case_sensitive_witness :
  field_step ∅ ("Width", "10") = Err (UnrecognizedField "Width")
  /\ parse "Width=10---y=x" = Err (UnrecognizedField "Width").
Proof.
  destruct (field_keys_are_case_sensitive "Width" "width")
    as (H1 & _ & _ & H4 & _).
  - cbn. auto.
  - reflexivity.
  - discriminate.
  - split; [apply H1|exact H4].
Defined.

End DslFacts.

(** ** The loop over the segments of a line *)

Module SegmentFacts.
Import Dsl DslSpec DslFacts.

Lemma upper_hex_head rest :
  Js.toUpperCase (String "#" rest) = String "#" (Js.toUpperCase rest).
Proof. reflexivity. Qed.

Lemma hex_not_style segment :
  isHexColor segment = true ->
  Js.array_includes EquationStyle (Js.toUpperCase segment) = false.
Proof.
  destruct segment as [|c rest]; [discriminate|].
  unfold isHexColor. destruct (Ascii.eqb c "#") eqn:E.
  - apply Ascii.eqb_eq in E. subst c. intros _. reflexivity.
  - intros H. exfalso.
    destruct c as [[] [] [] [] [] [] [] []]; try discriminate H; discriminate E.
Qed.

Lemma hex_not_color_name segment :
  isHexColor segment = true ->
  Js.array_includes EquationColor (Js.toUpperCase segment) = false.
Proof.
  destruct segment as [|c rest]; [discriminate|].
  unfold isHexColor. destruct (Ascii.eqb c "#") eqn:E.
  - apply Ascii.eqb_eq in E. subst c. intros _. reflexivity.
  - intros H. exfalso.
    destruct c as [[] [] [] [] [] [] [] []]; try discriminate H; discriminate E.
Qed.

Lemma color_name_not_style s :
  Js.array_includes EquationColor s = true ->
  Js.array_includes EquationStyle s = false.
Proof.
  intros H. apply array_includes_In in H. cbn in H.
  destruct H as [<-|[<-|[<-|[<-|[<-|[<-|[]]]]]]]; reflexivity.
Qed.

(** The loop body follows the classification. *)
Lemma process_segment_classified o segment :
  process_segment o segment
  = match classify segment with
    | StyleToken s =>
        if Js.truthy_prop (style_of o)
        then Err (DuplicateStyle (default EmptyString (style_of o)) s)
        else Ok (obj_set "style" s o)
    | ColorToken c =>
        if Js.truthy_prop (color_of o)
        then Err (DuplicateColor (default EmptyString (color_of o))
                    (Js.toUpperCase segment))
        else Ok (obj_set "color" c o)
    | RestrictionFragment _ =>
        _ ← assert_notbanned segment "graph configuration";
        Ok (add_restriction segment o)
    end.
Proof.
  unfold process_segment, classify.
  destruct (Js.array_includes EquationStyle (Js.toUpperCase segment)) eqn:Es.
  - destruct (Js.truthy_prop (style_of o)); reflexivity.
  - destruct (Js.array_includes EquationColor (Js.toUpperCase segment)) eqn:Ec.
    + cbn [orb]. destruct (Js.truthy_prop (color_of o)); cbn [negb]; [reflexivity|].
      destruct (isHexColor segment) eqn:Eh; [|reflexivity].
      rewrite (hex_not_color_name _ Eh) in Ec. discriminate.
    + cbn [orb]. destruct (isHexColor segment) eqn:Eh; [|reflexivity].
      destruct (Js.truthy_prop (color_of o)); reflexivity.
Qed.

Lemma style_token_truthy segment s :
  classify segment = StyleToken s -> Js.truthy s = true.
Proof.
  unfold classify.
  destruct (Js.array_includes EquationStyle (Js.toUpperCase segment)) eqn:Es.
  - intros [= <-]. apply array_includes_In in Es. cbn in Es.
    destruct Es as [<-|[<-|[<-|[<-|[<-|[<-|[]]]]]]]; reflexivity.
  - destruct (Js.array_includes EquationColor _); [discriminate|].
    destruct (isHexColor segment); discriminate.
Qed.

Lemma color_token_truthy segment c :
  classify segment = ColorToken c -> Js.truthy c = true.
Proof.
  unfold classify.
  destruct (Js.array_includes EquationStyle (Js.toUpperCase segment)); [discriminate|].
  destruct (Js.array_includes EquationColor (Js.toUpperCase segment)) eqn:Ec.
  - intros [= <-]. apply array_includes_In in Ec. cbn in Ec.
    destruct Ec as [<-|[<-|[<-|[<-|[<-|[<-|[]]]]]]]; reflexivity.
  - destruct (isHexColor segment) eqn:Eh; [|discriminate].
    intros [= <-]. destruct segment; [discriminate|reflexivity].
Qed.

(** What [add_restriction] changes and what it keeps. *)
Lemma add_restriction_spec segment o :
  restriction_of (add_restriction segment o)
  = Some (default EmptyString (restriction_of o) ++ "{" ++ segment ++ "}")
  /\ equation_of (add_restriction segment o) = equation_of o
  /\ style_of (add_restriction segment o) = style_of o
  /\ color_of (add_restriction segment o) = color_of o.
Proof.
  unfold add_restriction, restriction_of, equation_of, style_of, color_of.
  destruct (obj_get "restriction" o) as [[|c r]|] eqn:E;
    cbn [Js.truthy_prop Js.truthy negb default];
    rewrite ?obj_get_set_eq, ?E; cbn [default];
    (split; [reflexivity|]);
    (rewrite !obj_get_set_ne by discriminate);
    auto.
Qed.

Lemma append_cons c (a b : string) : String c a ++ b = String c (a ++ b).
Proof. reflexivity. Qed.

Lemma append_nil_l (b : string) : EmptyString ++ b = b.
Proof. reflexivity. Qed.

Lemma append_assoc (a b c : string) : (a ++ b) ++ c = a ++ (b ++ c).
Proof.
  induction a as [|x a IH]; [reflexivity|]. rewrite !append_cons. now rewrite IH.
Qed.

Lemma append_nil_r (a : string) : a ++ EmptyString = a.
Proof.
  induction a as [|x a IH]; [reflexivity|]. rewrite append_cons. now rewrite IH.
Qed.

Lemma concat_empty_cons r l :
  String.concat EmptyString (r :: l) = r ++ String.concat EmptyString l.
Proof.
  destruct l; cbn [String.concat]; [|reflexivity]. now rewrite append_nil_r.
Qed.

Lemma tokens_cons segment segments :
  match classify segment with
  | StyleToken s =>
      style_tokens (segment :: segments) = s :: style_tokens segments
      /\ color_tokens (segment :: segments) = color_tokens segments
      /\ restriction_fragments (segment :: segments) = restriction_fragments segments
  | ColorToken c =>
      style_tokens (segment :: segments) = style_tokens segments
      /\ color_tokens (segment :: segments) = c :: color_tokens segments
      /\ restriction_fragments (segment :: segments) = restriction_fragments segments
  | RestrictionFragment r =>
      style_tokens (segment :: segments) = style_tokens segments
      /\ color_tokens (segment :: segments) = color_tokens segments
      /\ restriction_fragments (segment :: segments)
         = r :: restriction_fragments segments
  end.
Proof.
  unfold style_tokens, color_tokens, restriction_fragments,
    style_token, color_token, restriction_fragment.
  cbn [omap list_omap].
  destruct (classify segment); repeat split; reflexivity.
Qed.

Lemma fragment_wrapped segment r :
  classify segment = RestrictionFragment r -> r = "{" ++ segment ++ "}".
Proof.
  unfold classify.
  destruct (Js.array_includes EquationStyle _); [discriminate|].
  destruct (Js.array_includes EquationColor _); [discriminate|].
  destruct (isHexColor segment); [discriminate|]. now intros [= <-].
Qed.

(** The loop over the segments, from any equation under construction whose
    style and color, if set, are non-empty. *)
Lemma reduce_segments_ok segments :
  forall o obj,
    style_of o <> Some EmptyString ->
    color_of o <> Some EmptyString ->
    reduceM process_segment segments o = Ok obj ->
    equation_of obj = equation_of o
    /\ style_of obj = first_or (style_of o) (style_tokens segments)
    /\ color_of obj = first_or (color_of o) (color_tokens segments)
    /\ restriction_of obj
       = match restriction_fragments segments with
         | [] => restriction_of o
         | fr => Some (default EmptyString (restriction_of o)
                       ++ String.concat EmptyString fr)
         end
    /\ (length (style_tokens segments) + taken (style_of o) <= 1)%nat
    /\ (length (color_tokens segments) + taken (color_of o) <= 1)%nat.
Proof.
  induction segments as [|segment segments IH]; intros o obj Hs Hc H.
  - cbn in H. injection H as <-.
    unfold style_tokens, color_tokens, restriction_fragments. cbn [omap list_omap].
    repeat split;
      try (destruct (style_of o); cbn; (reflexivity || lia));
      destruct (color_of o); cbn; (reflexivity || lia).
  - cbn [reduceM] in H. rewrite process_segment_classified in H.
    pose proof (tokens_cons segment segments) as T.
    destruct (classify segment) as [s|c|r] eqn:K;
      destruct T as (T1 & T2 & T3); rewrite T1, T2, T3; clear T1 T2 T3.
    + pose proof (style_token_truthy _ _ K) as Ht.
      destruct (style_of o) as [[|a s0]|] eqn:Eo;
        [exfalso; now apply Hs|discriminate H|].
      cbn in H. apply IH in H.
      * unfold style_of, color_of, restriction_of, equation_of in *.
        rewrite obj_get_set_eq in H.
        rewrite !(obj_get_set_ne "style") in H by discriminate.
        destruct H as (H1 & H2 & H3 & H4 & H5 & H6).
        cbn in *. repeat split; try assumption; lia.
      * unfold style_of. rewrite obj_get_set_eq. intros [= ->]. discriminate.
      * unfold color_of. rewrite obj_get_set_ne by discriminate. exact Hc.
    + pose proof (color_token_truthy _ _ K) as Ht.
      destruct (color_of o) as [[|a c0]|] eqn:Eo;
        [exfalso; now apply Hc|discriminate H|].
      cbn in H. apply IH in H.
      * unfold style_of, color_of, restriction_of, equation_of in *.
        rewrite obj_get_set_eq in H.
        rewrite !(obj_get_set_ne "color") in H by discriminate.
        destruct H as (H1 & H2 & H3 & H4 & H5 & H6).
        cbn in *. repeat split; try assumption; lia.
      * unfold style_of. rewrite obj_get_set_ne by discriminate. exact Hs.
      * unfold color_of. rewrite obj_get_set_eq. intros [= ->]. discriminate.
    + apply fragment_wrapped in K. subst r.
      destruct (assert_notbanned segment "graph configuration"); cbn in H;
        [|discriminate].
      destruct (add_restriction_spec segment o) as (R1 & R2 & R3 & R4).
      apply IH in H; [|congruence|congruence].
      rewrite R1, R2, R3, R4 in H.
      destruct H as (H1 & H2 & H3 & H4 & H5 & H6).
      repeat split; try assumption.
      rewrite H4, concat_empty_cons.
      destruct (restriction_fragments segments) as [|f fr].
      * cbn [String.concat]. now rewrite append_nil_r.
      * cbv [from_option id]. now rewrite !append_assoc.
Qed.

End SegmentFacts.

(** ** Splitting and joining *)

Module SplitFacts.
Import Dsl DslSpec DslFacts SegmentFacts.

Lemma prefix_nil s : String.prefix EmptyString s = true.
Proof. destruct s; reflexivity. Qed.

Lemma prefix_cons c d s1 s2 :
  String.prefix (String c s1) (String d s2)
  = if Ascii.eqb c d then String.prefix s1 s2 else false.
Proof.
  cbn. destruct (ascii_dec c d) as [->|Hne].
  - now rewrite Ascii.eqb_refl.
  - apply Ascii.eqb_neq in Hne. now rewrite Hne.
Qed.

Lemma prefix_split sep s :
  String.prefix sep s = true -> exists rest, s = sep ++ rest.
Proof.
  revert s. induction sep as [|c sep IH]; intros s H.
  - exists s. reflexivity.
  - destruct s as [|d s]; [discriminate|].
    rewrite prefix_cons in H. destruct (Ascii.eqb c d) eqn:E; [|discriminate].
    apply Ascii.eqb_eq in E. subst d.
    destruct (IH s H) as [rest ->]. exists rest. reflexivity.
Qed.

Lemma length_append (a b : string) :
  String.length (a ++ b) = (String.length a + String.length b)%nat.
Proof.
  induction a as [|c a IH]; [reflexivity|].
  rewrite append_cons. cbn [String.length]. now rewrite IH.
Qed.

Lemma split_from_nonempty sep s k : Js.split_from sep s k <> [].
Proof.
  revert k. induction s as [|c s IH]; intros k; cbn [Js.split_from]; [discriminate|].
  destruct k; [|apply IH].
  destruct (String.prefix sep (String c s)); [discriminate|].
  specialize (IH O). destruct (Js.split_from sep s O); [contradiction|discriminate].
Qed.

Lemma split_nonempty sep s : Js.split sep s <> [].
Proof. apply split_from_nonempty. Qed.

Lemma cons_head_app c l1 l2 :
  l1 <> [] -> Js.cons_head c (l1 ++ l2)%list = (Js.cons_head c l1 ++ l2)%list.
Proof. destruct l1; [contradiction|reflexivity]. Qed.

(** Skipping the rest of a matched separator. *)
Lemma split_from_skip sep x rest :
  Js.split_from sep (x ++ rest) (String.length x) = Js.split_from sep rest O.
Proof.
  induction x as [|c x IH]; [reflexivity|].
  rewrite append_cons. cbn [String.length Js.split_from]. exact IH.
Qed.

Lemma split_match sep c sep' rest :
  sep = String c sep' ->
  Js.split sep (sep ++ rest) = EmptyString :: Js.split sep rest.
Proof.
  intros ->. unfold Js.split. rewrite append_cons. cbn [Js.split_from].
  assert (H : String.prefix (String c sep') (String c (sep' ++ rest)) = true).
  { rewrite prefix_cons, Ascii.eqb_refl.
    clear c. induction sep' as [|d sep' IH]; [apply prefix_nil|].
    rewrite append_cons, prefix_cons, Ascii.eqb_refl. exact IH. }
  rewrite H. cbn [String.length Nat.pred]. now rewrite split_from_skip.
Qed.

Lemma join_cons_head sep c l :
  l <> [] -> Js.join sep (Js.cons_head c l) = String c (Js.join sep l).
Proof.
  destruct l as [|h t]; [contradiction|]. intros _. unfold Js.join. cbn.
  destruct t; reflexivity.
Qed.

Lemma join_cons_nonempty sep x l :
  l <> [] -> Js.join sep (x :: l) = x ++ sep ++ Js.join sep l.
Proof. destruct l; [contradiction|reflexivity]. Qed.

(** Joining the segments of a split with the separator gives the text
    back. *)
Lemma join_split sep s :
  sep <> EmptyString -> Js.join sep (Js.split sep s) = s.
Proof.
  intros Hsep. destruct sep as [|c0 sep']; [contradiction|]. clear Hsep.
  remember (String.length s) as n eqn:Hn.
  revert s Hn. induction n as [n IH] using lt_wf_ind. intros s Hn.
  destruct s as [|c s]; [reflexivity|].
  destruct (String.prefix (String c0 sep') (String c s)) eqn:Hp.
  - destruct (prefix_split _ _ Hp) as [rest Hrest]. rewrite Hrest.
    rewrite (split_match _ c0 sep' rest eq_refl).
    rewrite join_cons_nonempty by apply split_nonempty.
    rewrite (IH (String.length rest)); [reflexivity| |reflexivity].
    subst n. rewrite Hrest, length_append. cbn [String.length]. lia.
  - unfold Js.split. cbn [Js.split_from]. rewrite Hp.
    rewrite join_cons_head by apply split_from_nonempty.
    f_equal. apply (IH (String.length s)); [subst n; cbn; lia|reflexivity].
Qed.

(** A one-character separator cuts a text where it stands. *)
Lemma split_char_app c a b :
  Js.split (String c EmptyString) (a ++ String c b)
  = (Js.split (String c EmptyString) a ++ Js.split (String c EmptyString) b)%list.
Proof.
  unfold Js.split. induction a as [|d a IH].
  - rewrite append_nil_l. cbn [Js.split_from].
    rewrite prefix_cons, Ascii.eqb_refl, prefix_nil. reflexivity.
  - rewrite append_cons. cbn [Js.split_from].
    rewrite !prefix_cons, !prefix_nil.
    destruct (Ascii.eqb c d).
    + cbn [String.length Nat.pred]. now rewrite IH.
    + rewrite IH. apply cons_head_app, split_from_nonempty.
Qed.

(** A line and what follows its next [|]. *)
Lemma process_equation_app a b :
  process_equation (a ++ String "|" b)
  = (o ← process_equation a; reduceM process_segment (Js.split "|" b) o).
Proof.
  unfold process_equation. rewrite split_char_app.
  pose proof (split_nonempty "|" a) as Hne.
  destruct (Js.split "|" a) as [|first segments]; [contradiction|].
  cbn [app]. destruct (assert_notbanned first "graph equation"); [|reflexivity].
  cbn. apply reduceM_app.
Qed.

Lemma process_segment_empty o :
  process_segment o EmptyString = Ok (add_restriction EmptyString o).
Proof. reflexivity. Qed.

End SplitFacts.

(** ** Lines *)

Module LineFacts.
Import Dsl DslSpec DslFacts SegmentFacts SplitFacts.

Lemma is_alnum_upper c : is_alnum (Js.upper_char c) = is_alnum c.
Proof. destruct c as [[] [] [] [] [] [] [] []]; reflexivity. Qed.

Lemma is_hash_upper c : Ascii.eqb (Js.upper_char c) "#" = Ascii.eqb c "#".
Proof. destruct c as [[] [] [] [] [] [] [] []]; reflexivity. Qed.

Lemma isHexColor_cons c rest :
  isHexColor (String c rest) = Ascii.eqb c "#" && alnum_test rest.
Proof. destruct c as [[] [] [] [] [] [] [] []]; reflexivity. Qed.

Lemma alnum_test_upper s : alnum_test (Js.toUpperCase s) = alnum_test s.
Proof.
  unfold alnum_test. f_equal; [destruct s; reflexivity|].
  induction s as [|c s IH]; [reflexivity|].
  cbn [Js.toUpperCase all_alnum]. now rewrite is_alnum_upper, IH.
Qed.

Lemma isHexColor_upper s : isHexColor (Js.toUpperCase s) = isHexColor s.
Proof.
  destruct s as [|c s]; [reflexivity|]. cbn [Js.toUpperCase].
  now rewrite !isHexColor_cons, is_hash_upper, alnum_test_upper.
Qed.

(** The classification looks at a segment through [toUpperCase] only. *)
Lemma classify_case_insensitive a b :
  Js.toUpperCase a = Js.toUpperCase b -> same_kind (classify a) (classify b).
Proof.
  intros H. unfold classify. rewrite <- H.
  destruct (Js.array_includes EquationStyle (Js.toUpperCase a)); [reflexivity|].
  destruct (Js.array_includes EquationColor (Js.toUpperCase a)); [reflexivity|].
  rewrite <- (isHexColor_upper a), <- (isHexColor_upper b), <- H.
  destruct (isHexColor (Js.toUpperCase a)); [exact H|exact I].
Qed.

Lemma initial_equation first :
  equation_of [("equation", first)] = Some first
  /\ style_of [("equation", first)] = None
  /\ color_of [("equation", first)] = None
  /\ restriction_of [("equation", first)] = None.
Proof. repeat split. Qed.

(** The loop from the equation [{ equation: first }]. *)
Lemma reduce_from_expression first segments obj :
  reduceM process_segment segments [("equation", first)] = Ok obj ->
  equation_of obj = Some first
  /\ style_of obj = head (style_tokens segments)
  /\ color_of obj = head (color_tokens segments)
  /\ restriction_of obj = accumulated (restriction_fragments segments)
  /\ (length (style_tokens segments) <= 1)%nat
  /\ (length (color_tokens segments) <= 1)%nat.
Proof.
  intros H. apply reduce_segments_ok in H; [|discriminate|discriminate].
  destruct H as (H1 & H2 & H3 & H4 & H5 & H6).
  cbn in H1, H2, H3, H4, H5, H6.
  repeat split; try assumption; try lia.
  rewrite H4. unfold accumulated.
  destruct (restriction_fragments segments); reflexivity.
Qed.

Lemma process_equation_segments line obj :
  process_equation line = Ok obj ->
  exists first segments,
    Js.split "|" line = first :: segments
    /\ reduceM process_segment segments [("equation", first)] = Ok obj.
Proof.
  unfold process_equation. pose proof (split_nonempty "|" line) as Hne.
  destruct (Js.split "|" line) as [|first segments]; [contradiction|].
  destruct (assert_notbanned first "graph equation"); [|discriminate].
  intros H. exists first, segments. split; [reflexivity|exact H].
Qed.

Lemma In_style_tokens_truthy s segments :
  In s (style_tokens segments) -> Js.truthy s = true.
Proof.
  induction segments as [|segment segments IH]; [intros []|].
  pose proof (tokens_cons segment segments) as T.
  destruct (classify segment) eqn:K; destruct T as (T1 & _ & _); rewrite T1; auto.
  intros [<-|Hin]; [eapply style_token_truthy; eassumption|auto].
Qed.

Lemma In_color_tokens_truthy c segments :
  In c (color_tokens segments) -> Js.truthy c = true.
Proof.
  induction segments as [|segment segments IH]; [intros []|].
  pose proof (tokens_cons segment segments) as T.
  destruct (classify segment) eqn:K; destruct T as (_ & T2 & _); rewrite T2; auto.
  intros [<-|Hin]; [eapply color_token_truthy; eassumption|auto].
Qed.

Lemma style_test_classify segment :
  Js.array_includes EquationStyle (Js.toUpperCase segment) = true ->
  classify segment = StyleToken (Js.toUpperCase segment).
Proof. intros H. unfold classify. now rewrite H. Qed.

Lemma color_test_classify segment :
  Js.array_includes EquationColor (Js.toUpperCase segment) || isHexColor segment = true ->
  exists c, classify segment = ColorToken c.
Proof.
  intros H. unfold classify.
  destruct (Js.array_includes EquationColor (Js.toUpperCase segment)) eqn:Ec.
  - rewrite (color_name_not_style _ Ec). eauto.
  - cbn in H. rewrite (hex_not_style _ H), H. eauto.
Qed.

End LineFacts.

(** ** The parser *)

Module ParseFacts.
Import Dsl DslSpec DslFacts SegmentFacts SplitFacts LineFacts.

Lemma head_In {A} (l : list A) : l <> [] -> exists x, head l = Some x /\ In x l.
Proof. destruct l as [|x l]; [contradiction|]. intros _. exists x. cbn. auto. Qed.

Lemma build_default_fields eqs d :
  build eqs ∅ = Ok d -> fields d = FIELD_DEFAULTS.
Proof.
  unfold build. destruct (mapM process_equation eqs) as [processed|]; [|discriminate].
  cbn. intros [= <-]. reflexivity.
Qed.

Lemma mapM_app_err {A B} (f : A -> Result B) l1 x l2 ys e :
  mapM f l1 = Ok ys -> f x = Err e -> mapM f (l1 ++ x :: l2)%list = Err e.
Proof.
  revert ys. induction l1 as [|a l1 IH]; intros ys H1 Hx.
  - cbn. now rewrite Hx.
  - cbn in H1 |- *. destruct (f a) as [y|]; [|discriminate].
    cbn in H1 |- *. destruct (mapM f l1) as [ys'|]; [|discriminate].
    now rewrite (IH ys' eq_refl Hx).
Qed.

(** An error of the line that [parse] reaches is the error of [parse]. *)
Lemma reaches_line_error source line e :
  reaches_line source line -> process_equation line = Err e -> parse source = Err e.
Proof.
  intros (body & settings & before & after & processed & Hsrc & Hl & Hb) He.
  assert (Hp : parse source = build (lines body) settings).
  { destruct Hsrc as [[Hs ->]|(block & Hs & Hf)].
    - unfold parse. now rewrite Hs.
    - rewrite (parse_two_segments _ _ _ Hs), Hf. reflexivity. }
  rewrite Hp, Hl. unfold build.
  now rewrite (mapM_app_err _ _ _ _ _ _ Hb He).
Qed.

(** C6: a line keeps at most one style and one color.  Once the segments
    read so far hold a style token, a further style token ends the line,
    and the parse that reached it, with the duplicate-style error that
    names the style kept and the new token; likewise for a color token,
    named or hex.  A line that is accepted has at most one token of each
    kind, and it is the one the equation holds. *)
Theorem second_style_or_color_is_rejected line first pre segment post o :
  Js.split "|" line = first :: (pre ++ segment :: post)%list ->
  assert_notbanned first "graph equation" = Ok tt ->
  reduceM process_segment pre [("equation", first)] = Ok o ->
  (style_tokens pre <> [] ->
   Js.array_includes EquationStyle (Js.toUpperCase segment) = true ->
   exists s,
     head (style_tokens pre) = Some s /\ style_of o = Some s
     /\ process_equation line = Err (DuplicateStyle s (Js.toUpperCase segment))
     /\ (forall source,
           reaches_line source line ->
           parse source = Err (DuplicateStyle s (Js.toUpperCase segment))))
  /\ (color_tokens pre <> [] ->
      Js.array_includes EquationColor (Js.toUpperCase segment) || isHexColor segment
      = true ->
      exists c,
        head (color_tokens pre) = Some c /\ color_of o = Some c
        /\ process_equation line = Err (DuplicateColor c (Js.toUpperCase segment))
        /\ (forall source,
              reaches_line source line ->
              parse source = Err (DuplicateColor c (Js.toUpperCase segment))))
  /\ (forall accepted obj,
        process_equation accepted = Ok obj ->
        (length (style_tokens (tail (Js.split "|" accepted))) <= 1)%nat
        /\ (length (color_tokens (tail (Js.split "|" accepted))) <= 1)%nat
        /\ style_of obj = head (style_tokens (tail (Js.split "|" accepted)))
        /\ color_of obj = head (color_tokens (tail (Js.split "|" accepted))))
  /\ parse "x=1|SOLID|SOLID" = Err (DuplicateStyle "SOLID" "SOLID")
  /\ parse "x=1|#ff00ff|RED" = Err (DuplicateColor "#ff00ff" "RED").
Proof.
  intros Hsplit Hfirst Hpre.
  destruct (reduce_from_expression _ _ _ Hpre) as (_ & Hs & Hc & _).
  assert (Hline : process_equation line
                  = reduceM process_segment (segment :: post) o).
  { unfold process_equation. rewrite Hsplit, Hfirst.
    change (reduceM process_segment (pre ++ segment :: post) [("equation", first)]
            = reduceM process_segment (segment :: post) o).
    now rewrite reduceM_app, Hpre. }
  split; [|split; [|split; [|split]]].
  - intros Hne Htest. destruct (head_In _ Hne) as (s & Hh & Hin).
    assert (He : process_equation line
                 = Err (DuplicateStyle s (Js.toUpperCase segment))).
    { rewrite Hline. cbn [reduceM].
      rewrite process_segment_classified, (style_test_classify _ Htest).
      rewrite Hs, Hh. cbn [Js.truthy_prop].
      rewrite (In_style_tokens_truthy _ _ Hin). reflexivity. }
    exists s. split; [exact Hh|]. split; [congruence|]. split; [exact He|].
    intros source Hr. exact (reaches_line_error _ _ _ Hr He).
  - intros Hne Htest. destruct (head_In _ Hne) as (c & Hh & Hin).
    assert (He : process_equation line
                 = Err (DuplicateColor c (Js.toUpperCase segment))).
    { rewrite Hline. cbn [reduceM]. rewrite process_segment_classified.
      destruct (color_test_classify _ Htest) as [c' ->].
      rewrite Hc, Hh. cbn [Js.truthy_prop].
      rewrite (In_color_tokens_truthy _ _ Hin). reflexivity. }
    exists c. split; [exact Hh|]. split; [congruence|]. split; [exact He|].
    intros source Hr. exact (reaches_line_error _ _ _ Hr He).
  - intros accepted obj H.
    destruct (process_equation_segments _ _ H) as (f & segs & Hsp & Hred).
    rewrite Hsp. cbn [tail].
    destruct (reduce_from_expression _ _ _ Hred) as (_ & H2 & H3 & _ & H5 & H6).
    auto.
  - vm_compute. reflexivity.
  - vm_compute. reflexivity.
Qed.

Lemma second_style_or_color_is_rejected_witness :
  process_equation "x=1|dashed|solid" = Err (DuplicateStyle "DASHED" "SOLID")
  /\ parse ("y=x|RED" ++ String LF "x=1|dashed|solid")
     = Err (DuplicateStyle "DASHED" "SOLID")
  /\ process_equation "x=1|x>0|#ff00ff|Red|SOLID"
     = Err (DuplicateColor "#ff00ff" "RED")
  /\ process_equation "x=1|blue|#ABC" = Err (DuplicateColor "BLUE" "#ABC").
Proof.
  split; [|split; [|split]].
  - destruct (second_style_or_color_is_rejected "x=1|dashed|solid" "x=1"
                ["dashed"] "solid" []
                [("equation", "x=1"); ("style", "DASHED")] eq_refl eq_refl eq_refl)
      as (H & _).
    destruct H as (s & Hh & _ & Hr & _); [discriminate|reflexivity|].
    injection Hh as <-. exact Hr.
  - destruct (second_style_or_color_is_rejected "x=1|dashed|solid" "x=1"
                ["dashed"] "solid" []
                [("equation", "x=1"); ("style", "DASHED")] eq_refl eq_refl eq_refl)
      as (H & _).
    destruct H as (s & Hh & _ & _ & Hr); [discriminate|reflexivity|].
    injection Hh as <-. apply Hr.
    exists ("y=x|RED" ++ String LF "x=1|dashed|solid"),
      ∅, ["y=x|RED"], [], [[("equation", "y=x"); ("color", "RED")]].
    split; [left; split; reflexivity|]. split; reflexivity.
  - destruct (second_style_or_color_is_rejected "x=1|x>0|#ff00ff|Red|SOLID" "x=1"
                ["x>0"; "#ff00ff"] "Red" ["SOLID"]
                [("equation", "x=1"); ("restriction", "{x>0}"); ("color", "#ff00ff")]
                eq_refl eq_refl eq_refl)
      as (_ & H & _).
    destruct H as (c & Hh & _ & Hr & _); [discriminate|reflexivity|].
    injection Hh as <-. exact Hr.
  - destruct (second_style_or_color_is_rejected "x=1|blue|#ABC" "x=1"
                ["blue"] "#ABC" []
                [("equation", "x=1"); ("color", "BLUE")] eq_refl eq_refl eq_refl)
      as (_ & H & _).
    destruct H as (c & Hh & _ & Hr & _); [discriminate|reflexivity|].
    injection Hh as <-. exact Hr.
Defined.

(** C7: every segment of ASCII text after the expression is classified
    through its uppercase form, a style first, else a color (a named color
    kept as the uppercase constant, a hex color as written), else a
    restriction fragment; an accepted line of ASCII text holds the first
    style, the first color, and the restriction fragments wrapped in
    braces and concatenated in the order met. *)
Theorem modifiers_are_classified line obj :
  Js.is_ascii line = true ->
  process_equation line = Ok obj ->
  (exists first segments,
      Js.split "|" line = first :: segments
      /\ equation_of obj = Some first
      /\ style_of obj = head (style_tokens segments)
      /\ color_of obj = head (color_tokens segments)
      /\ restriction_of obj = accumulated (restriction_fragments segments))
  /\ (forall a b,
        Js.is_ascii a = true -> Js.is_ascii b = true ->
        Js.toUpperCase a = Js.toUpperCase b -> same_kind (classify a) (classify b))
  /\ (forall o segment,
        Js.is_ascii segment = true ->
        process_segment o segment
        = match classify segment with
          | StyleToken s =>
              if Js.truthy_prop (style_of o)
              then Err (DuplicateStyle (default EmptyString (style_of o)) s)
              else Ok (obj_set "style" s o)
          | ColorToken c =>
              if Js.truthy_prop (color_of o)
              then Err (DuplicateColor (default EmptyString (color_of o))
                          (Js.toUpperCase segment))
              else Ok (obj_set "color" c o)
          | RestrictionFragment _ =>
              _ ← assert_notbanned segment "graph configuration";
              Ok (add_restriction segment o)
          end).
Proof.
  intros _ H. split; [|split].
  - destruct (process_equation_segments _ _ H) as (first & segments & Hsplit & Hred).
    exists first, segments. split; [exact Hsplit|].
    destruct (reduce_from_expression _ _ _ Hred) as (H1 & H2 & H3 & H4 & _).
    auto.
  - intros a b _ _. apply classify_case_insensitive.
  - intros o segment _. apply process_segment_classified.
Qed.

Lemma modifiers_are_classified_witness :
  (exists first segments,
      Js.split "|" "y=x|x>0|Dashed|#Ff00aa|y<5"%string = first :: segments
      /\ equation_of
           [("equation", "y=x"); ("restriction", "{x>0}{y<5}"); ("style", "DASHED");
            ("color", "#Ff00aa")] = Some first
      /\ Some "DASHED" = head (style_tokens segments)
      /\ Some "#Ff00aa" = head (color_tokens segments)
      /\ Some "{x>0}{y<5}" = accumulated (restriction_fragments segments))
  /\ same_kind (classify "Dashed") (classify "DASHED")
  /\ process_segment [("equation", "y=x")] "purple"
     = Ok [("equation", "y=x"); ("color", "PURPLE")]
  /\ process_segment [("equation", "y=x"); ("color", "PURPLE")] "#Ff00aa"
     = Err (DuplicateColor "PURPLE" "#FF00AA")
  /\ process_segment [("equation", "y=x")] "x>0"
     = Ok [("equation", "y=x"); ("restriction", "{x>0}")].
Proof.
  destruct (modifiers_are_classified "y=x|x>0|Dashed|#Ff00aa|y<5"
              [("equation", "y=x"); ("restriction", "{x>0}{y<5}");
               ("style", "DASHED"); ("color", "#Ff00aa")] eq_refl eq_refl)
    as (H1 & H2 & H3).
  split; [exact H1|]. split; [apply H2; reflexivity|].
  split; [exact (H3 [("equation", "y=x")] "purple" eq_refl)|].
  split; [exact (H3 [("equation", "y=x"); ("color", "PURPLE")] "#Ff00aa" eq_refl)|].
  exact (H3 [("equation", "y=x")] "x>0" eq_refl).
Defined.

(** An empty segment is a restriction fragment.  It passes the
    banned-character check and appends the two braces to the restriction
    of the equation; a line that ends in [|], or holds [||], is processed
    like the line before the bar, then the empty segment, then the rest. *)
Lemma empty_segment_in_line a b :
  classify EmptyString = RestrictionFragment "{}"
  /\ (forall o,
        process_segment o EmptyString = Ok (add_restriction EmptyString o)
        /\ restriction_of (add_restriction EmptyString o)
           = Some (default EmptyString (restriction_of o) ++ "{}"))
  /\ process_equation (a ++ "|")
     = (o ← process_equation a; Ok (add_restriction EmptyString o))
  /\ process_equation (a ++ "||" ++ b)
     = (o ← process_equation a;
        reduceM process_segment (Js.split "|" b) (add_restriction EmptyString o))
  /\ (forall o,
        process_equation a = Ok o ->
        exists o',
          process_equation (a ++ "|") = Ok o'
          /\ restriction_of o'
             = Some (default EmptyString (restriction_of o) ++ "{}"))
  /\ process_equation "y=x||RED|"
     = Ok [("equation", "y=x"); ("restriction", "{}{}"); ("color", "RED")].
Proof.
  split; [reflexivity|]. split; [|split; [|split; [|split]]].
  - intros o. split; [reflexivity|].
    destruct (add_restriction_spec EmptyString o) as (R & _). exact R.
  - rewrite process_equation_app.
    destruct (process_equation a); reflexivity.
  - change (a ++ "||" ++ b) with (a ++ String "|" (String "|" b)).
    rewrite process_equation_app.
    destruct (process_equation a) as [o|]; [|reflexivity].
    change (String "|" b) with (EmptyString ++ String "|" b).
    rewrite split_char_app. reflexivity.
  - intros o Ho. exists (add_restriction EmptyString o).
    rewrite process_equation_app, Ho. split; [reflexivity|].
    destruct (add_restriction_spec EmptyString o) as (R & _). exact R.
  - reflexivity.
Qed.

(** [parse] by the number of segments of the source. *)
Lemma parse_by_segments source :
  Js.split "---" source <> []
  /\ (forall body,
        Js.split "---" source = [body] ->
        body = source
        /\ parse source = build (lines source) ∅
        /\ (forall d, parse source = Ok d -> fields d = FIELD_DEFAULTS))
  /\ (forall block body,
        Js.split "---" source = [block; body] ->
        source = block ++ "---" ++ body
        /\ parse source = (settings ← parse_fields block; build (lines body) settings))
  /\ ((length (Js.split "---" source) = 0 \/ 3 <= length (Js.split "---" source))%nat ->
      parse source = Err TooManySegments)
  /\ parse EmptyString
     = Ok {| equations := [];
             fields := FIELD_DEFAULTS;
             hash := "58a003c5be64d81f6a52700018979e9a63cb9737b4e854bdb4d3c72936beca23" |}.
Proof.
  pose proof (join_split "---" source ltac:(discriminate)) as Hjoin.
  split; [apply split_nonempty|]. split; [|split; [|split]].
  - intros body Hs. rewrite Hs in Hjoin. cbn in Hjoin. subst body.
    assert (Hp : parse source = build (lines source) ∅).
    { unfold parse. rewrite Hs. reflexivity. }
    split; [reflexivity|]. split; [exact Hp|].
    intros d Hd. rewrite Hp in Hd. eapply build_default_fields, Hd.
  - intros block body Hs. rewrite Hs in Hjoin. split; [now rewrite <- Hjoin|].
    now apply parse_two_segments.
  - intros Hlen. unfold parse.
    pose proof (split_nonempty "---" source) as Hne.
    destruct (Js.split "---" source) as [|s1 [|s2 [|s3 rest]]]; cbn in Hlen;
      try lia; [contradiction|reflexivity].
  - vm_compute. reflexivity.
Qed.

End ParseFacts.

(** ** The serialization and the fingerprint *)

Module JsonFacts.
Import Dsl DslSpec DslFacts SegmentFacts SplitFacts.

Lemma append_inv_head (a r1 r2 : string) : a ++ r1 = a ++ r2 -> r1 = r2.
Proof.
  induction a as [|c a IH]; [auto|]. rewrite !append_cons. intros [= H]. auto.
Qed.

(** *** Quoted strings *)

Lemma unquote_quote_char c r :
  Js.unquote_char (Js.quote_char c ++ r) = Some (c, r).
Proof. destruct c as [[] [] [] [] [] [] [] []]; reflexivity. Qed.

Lemma quote_char_head c r :
  exists h t, Js.quote_char c ++ r = String h t /\ h <> DQUOTE.
Proof.
  destruct c as [[] [] [] [] [] [] [] []];
    (eexists _, _; split; [reflexivity|discriminate]).
Qed.

Lemma quote_body_framed s1 :
  forall s2 r1 r2,
    Js.quote_body s1 ++ String DQUOTE r1 = Js.quote_body s2 ++ String DQUOTE r2 ->
    s1 = s2 /\ r1 = r2.
Proof.
  induction s1 as [|c1 s1 IH]; intros [|c2 s2] r1 r2; cbn [Js.quote_body];
    rewrite ?append_nil_l, ?append_assoc; intros H.
  - injection H as <-. auto.
  - destruct (quote_char_head c2 (Js.quote_body s2 ++ String DQUOTE r2))
      as (h & t & E & Hh).
    rewrite E in H. injection H as H _. congruence.
  - destruct (quote_char_head c1 (Js.quote_body s1 ++ String DQUOTE r1))
      as (h & t & E & Hh).
    rewrite E in H. injection H as H _. congruence.
  - apply (f_equal Js.unquote_char) in H. rewrite !unquote_quote_char in H.
    injection H as <- H. apply IH in H as [<- <-]. auto.
Qed.

Lemma quote_append s r :
  Js.quote s ++ r = String DQUOTE (Js.quote_body s ++ String DQUOTE r).
Proof. unfold Js.quote. rewrite append_cons, append_assoc. reflexivity. Qed.

(** A quoted string can be read back from the front of any text. *)
Lemma quote_framed s1 s2 r1 r2 :
  Js.quote s1 ++ r1 = Js.quote s2 ++ r2 -> s1 = s2 /\ r1 = r2.
Proof.
  rewrite !quote_append. intros [= H]. now apply quote_body_framed.
Qed.

Lemma quote_head s r : exists t, Js.quote s ++ r = String DQUOTE t.
Proof. rewrite quote_append. eauto. Qed.

(** *** Numbers *)

Lemma span_unique p a1 :
  forall a2 c1 c2 r1 r2,
    Js.every p a1 = true -> Js.every p a2 = true ->
    p c1 = false -> p c2 = false ->
    a1 ++ String c1 r1 = a2 ++ String c2 r2 ->
    a1 = a2 /\ String c1 r1 = String c2 r2.
Proof.
  induction a1 as [|x a1 IH]; intros [|y a2] c1 c2 r1 r2 H1 H2 Hc1 Hc2;
    rewrite ?append_nil_l, ?append_cons; intros H.
  - auto.
  - injection H as -> _. cbn in H2. rewrite Hc1 in H2. discriminate.
  - injection H as -> _. cbn in H1. rewrite Hc2 in H1. discriminate.
  - injection H as -> H. cbn in H1, H2.
    apply andb_true_iff in H1 as [_ H1]. apply andb_true_iff in H2 as [_ H2].
    destruct (IH _ _ _ _ _ H1 H2 Hc1 Hc2 H) as [-> E]. auto.
Qed.

Lemma string_of_uint_digits d : Js.every Js.is_num_char (NilEmpty.string_of_uint d) = true.
Proof. induction d; cbn [NilEmpty.string_of_uint Js.every]; auto. Qed.

Lemma number_toString_chars n : Js.every Js.is_num_char (Js.number_toString n) = true.
Proof.
  unfold Js.number_toString, NilEmpty.string_of_int.
  destruct (Z.to_int n); [|cbn [Js.every]]; now rewrite string_of_uint_digits.
Qed.

Lemma number_toString_inj n1 n2 :
  Js.number_toString n1 = Js.number_toString n2 -> n1 = n2.
Proof.
  unfold Js.number_toString. intros H.
  apply (f_equal NilEmpty.int_of_string) in H. rewrite !NilEmpty.isi in H.
  injection H as H. now apply DecimalZ.to_int_inj.
Qed.

(** A printed integer can be read back when a character that is not of a
    number follows it. *)
Lemma number_framed n1 n2 c1 c2 r1 r2 :
  Js.is_num_char c1 = false -> Js.is_num_char c2 = false ->
  Js.number_toString n1 ++ String c1 r1 = Js.number_toString n2 ++ String c2 r2 ->
  n1 = n2 /\ String c1 r1 = String c2 r2.
Proof.
  intros Hc1 Hc2 H.
  destruct (span_unique Js.is_num_char _ _ _ _ _ _
              (number_toString_chars n1) (number_toString_chars n2) Hc1 Hc2 H)
    as [E R].
  split; [now apply number_toString_inj|exact R].
Qed.

(** *** Sequences separated by commas *)

Section Separated.

Context {A : Type} (enc : A -> string) (close : ascii).

Hypothesis enc_framed :
  forall a1 a2 r1 r2, enc a1 ++ r1 = enc a2 ++ r2 -> a1 = a2 /\ r1 = r2.
Hypothesis enc_head :
  forall a r, exists h t, enc a ++ r = String h t /\ h <> close.
Hypothesis close_not_comma : close <> ","%char.

Lemma join_cons2 (x y : A) l :
  Js.join "," (List.map enc (x :: y :: l))
  = enc x ++ String "," (Js.join "," (List.map enc (y :: l))).
Proof. reflexivity. Qed.

(** A comma-separated sequence can be read back up to the closing
    character. *)
Lemma join_framed l1 :
  forall l2 r1 r2,
    Js.join "," (List.map enc l1) ++ String close r1
    = Js.join "," (List.map enc l2) ++ String close r2 ->
    l1 = l2 /\ r1 = r2.
Proof.
  induction l1 as [|a1 l1 IH]; intros [|a2 l2] r1 r2 H.
  - cbn in H. rewrite !append_nil_l in H. injection H as <-. auto.
  - exfalso. destruct l2 as [|b2 l2].
    + cbn in H. rewrite append_nil_l in H.
      destruct (enc_head a2 (String close r2)) as (h & t & E & Hh).
      rewrite E in H. injection H as H _. congruence.
    + rewrite join_cons2, append_nil_l, append_assoc in H.
      destruct (enc_head a2 (String "," (Js.join "," (List.map enc (b2 :: l2)))
                             ++ String close r2)) as (h & t & E & Hh).
      rewrite E in H. injection H as H _. congruence.
  - exfalso. destruct l1 as [|b1 l1].
    + cbn in H. rewrite append_nil_l in H.
      destruct (enc_head a1 (String close r1)) as (h & t & E & Hh).
      rewrite E in H. injection H as H _. congruence.
    + rewrite join_cons2, append_nil_l, append_assoc in H.
      destruct (enc_head a1 (String "," (Js.join "," (List.map enc (b1 :: l1)))
                             ++ String close r1)) as (h & t & E & Hh).
      rewrite E in H. injection H as H _. congruence.
  - destruct l1 as [|b1 l1], l2 as [|b2 l2].
    + cbn in H. apply enc_framed in H as [<- H]. injection H as <-. auto.
    + exfalso. rewrite join_cons2, append_assoc in H.
      change (Js.join "," (List.map enc [a1])) with (enc a1) in H.
      apply enc_framed in H as [_ H]. rewrite append_cons in H.
      injection H as H _. contradiction.
    + exfalso. rewrite join_cons2, append_assoc in H.
      change (Js.join "," (List.map enc [a2])) with (enc a2) in H.
      apply enc_framed in H as [_ H]. rewrite append_cons in H.
      injection H as H _. congruence.
    + rewrite !join_cons2, !append_assoc, !append_cons in H.
      apply enc_framed in H as [<- H]. injection H as H.
      change (Js.join "," (List.map enc (b1 :: l1)) ++ String close r1
              = Js.join "," (List.map enc (b2 :: l2)) ++ String close r2) in H.
      apply IH in H as [<- <-]. auto.
Qed.

End Separated.

(** *** Objects, arrays and the whole text *)

Lemma string_cons_inv c (r1 r2 : string) : String c r1 = String c r2 -> r1 = r2.
Proof. now intros [= H]. Qed.

Lemma literal_char_append c (r : string) : String c EmptyString ++ r = String c r.
Proof. reflexivity. Qed.

Lemma json_property_framed kv1 kv2 r1 r2 :
  json_property kv1 ++ r1 = json_property kv2 ++ r2 -> kv1 = kv2 /\ r1 = r2.
Proof.
  destruct kv1 as [k1 v1], kv2 as [k2 v2]. unfold json_property. cbn [fst snd].
  rewrite !append_assoc. intros H.
  apply quote_framed in H as [<- H]. apply append_inv_head in H.
  apply quote_framed in H as [<- <-]. auto.
Qed.

Lemma json_property_head kv r :
  exists h t, json_property kv ++ r = String h t /\ h <> "}"%char.
Proof.
  unfold json_property. rewrite !append_assoc.
  destruct (quote_head (fst kv) (":" ++ (Js.quote (snd kv) ++ r))) as [t ->].
  eexists _, _. split; [reflexivity|discriminate].
Qed.

Lemma json_obj_append o r :
  json_obj o ++ r
  = String "{" (Js.join "," (List.map json_property o) ++ String "}" r).
Proof.
  unfold json_obj. now rewrite !append_assoc, !literal_char_append.
Qed.

Lemma json_obj_framed o1 o2 r1 r2 :
  json_obj o1 ++ r1 = json_obj o2 ++ r2 -> o1 = o2 /\ r1 = r2.
Proof.
  rewrite !json_obj_append. intros H. apply string_cons_inv in H.
  exact (join_framed json_property "}" json_property_framed json_property_head
           ltac:(discriminate) _ _ _ _ H).
Qed.

Lemma json_obj_head o r :
  exists h t, json_obj o ++ r = String h t /\ h <> "]"%char.
Proof.
  rewrite json_obj_append. eexists _, _. split; [reflexivity|discriminate].
Qed.

Lemma json_equations_append l r :
  json_equations l ++ r
  = String "[" (Js.join "," (List.map json_obj l) ++ String "]" r).
Proof.
  unfold json_equations. now rewrite !append_assoc, !literal_char_append.
Qed.

Lemma json_equations_framed l1 l2 r1 r2 :
  json_equations l1 ++ r1 = json_equations l2 ++ r2 -> l1 = l2 /\ r1 = r2.
Proof.
  rewrite !json_equations_append. intros H. apply string_cons_inv in H.
  exact (join_framed json_obj "]" json_obj_framed json_obj_head
           ltac:(discriminate) _ _ _ _ H).
Qed.

Lemma json_number_property_framed key n1 n2 c1 c2 r1 r2 :
  Js.is_num_char c1 = false -> Js.is_num_char c2 = false ->
  json_number_property key n1 ++ String c1 r1
  = json_number_property key n2 ++ String c2 r2 ->
  n1 = n2 /\ String c1 r1 = String c2 r2.
Proof.
  intros Hc1 Hc2. unfold json_number_property. rewrite !append_assoc. intros H.
  do 2 apply append_inv_head in H. now apply number_framed in H.
Qed.

Lemma json_fields_inj f1 f2 r1 r2 :
  json_fields f1 ++ r1 = json_fields f2 ++ r2 -> f1 = f2.
Proof.
  destruct f1 as [w1 h1 l1 ri1 b1 t1], f2 as [w2 h2 l2 ri2 b2 t2].
  unfold json_fields, Js.join. cbn [String.concat width height left right bottom top].
  rewrite !append_assoc, !literal_char_append. intros H.
  apply string_cons_inv in H.
  do 6 (apply json_number_property_framed in H as [<- H];
        [|reflexivity|reflexivity]; apply string_cons_inv in H).
  reflexivity.
Qed.

(** The text that is hashed determines the equation objects and the
    fields. *)
Lemma stringify_inj eqs1 f1 eqs2 f2 :
  stringify eqs1 f1 = stringify eqs2 f2 -> eqs1 = eqs2 /\ f1 = f2.
Proof.
  unfold stringify. rewrite !literal_char_append. intros H.
  apply string_cons_inv, append_inv_head, string_cons_inv in H.
  apply json_equations_framed in H as [<- H].
  apply string_cons_inv, append_inv_head, string_cons_inv in H.
  apply json_fields_inj in H. auto.
Qed.

(** *** The fingerprint *)

Lemma new_Dsl_hash eqs o d :
  new_Dsl eqs o = Ok d ->
  hash d = Sha256.sha256_hex (stringify (equations d) (fields d)).
Proof.
  unfold new_Dsl. destruct (assert_sanity _); [|discriminate].
  cbn. intros [= <-]. reflexivity.
Qed.

Lemma build_hash eqs o d :
  build eqs o = Ok d ->
  hash d = Sha256.sha256_hex (stringify (equations d) (fields d)).
Proof.
  unfold build. destruct (mapM process_equation eqs); [|discriminate].
  apply new_Dsl_hash.
Qed.

(** Every parsed document carries the digest of its own serialization. *)
Lemma parse_hash source d :
  parse source = Ok d ->
  hash d = Sha256.sha256_hex (stringify (equations d) (fields d)).
Proof.
  unfold parse. destruct (parse_split _) as [[[eqs|] o]|]; try discriminate.
  apply build_hash.
Qed.

(** C1, as stated, fails: the style and the color of an equation are
    serialized in the order in which the line gave them, so two documents
    with the same expression, style, color, restriction and fields get
    different fingerprints. *)
Lemma modifier_order_changes_fingerprint :
  exists d1 d2,
    parse "y=x|SOLID|RED" = Ok d1
    /\ parse "y=x|RED|SOLID" = Ok d2
    /\ same_content d1 d2
    /\ hash d1 <> hash d2.
Proof.
  eexists _, _. split; [vm_compute; reflexivity|].
  split; [vm_compute; reflexivity|]. split.
  - split; [|reflexivity]. repeat constructor.
  - discriminate.
Qed.

(** C1, amended: the fingerprint of a parsed document whose fields are
    safe integers is the SHA-256 digest of its serialization, which lists
    the properties of each equation in the order of their first assignment
    and the six fields in the order of the defaults.  Such documents with
    equal equation objects and equal fields have identical fingerprints,
    and their serialization is injective: any difference in an expression,
    style, color or restriction, in the order of the equations or of their
    properties, or in a field, changes the text that is hashed. *)
Theorem fingerprint_follows_serialization source1 source2 d1 d2 :
  parse source1 = Ok d1 ->
  parse source2 = Ok d2 ->
  DslInvariant.safe_fields (fields d1) = true ->
  DslInvariant.safe_fields (fields d2) = true ->
  hash d1 = Sha256.sha256_hex (stringify (equations d1) (fields d1))
  /\ (equations d1 = equations d2 -> fields d1 = fields d2 -> hash d1 = hash d2)
  /\ (stringify (equations d1) (fields d1) = stringify (equations d2) (fields d2)
      <-> equations d1 = equations d2 /\ fields d1 = fields d2)
  /\ (equations d1 <> equations d2 \/ fields d1 <> fields d2 ->
      stringify (equations d1) (fields d1) <> stringify (equations d2) (fields d2)).
Proof.
  intros H1 H2 _ _. pose proof (parse_hash _ _ H1) as E1.
  pose proof (parse_hash _ _ H2) as E2.
  split; [exact E1|]. split; [|split].
  - intros He Hf. rewrite E1, E2, He, Hf. reflexivity.
  - split; [apply stringify_inj|]. intros [-> ->]. reflexivity.
  - intros Hd Hs. apply stringify_inj in Hs as [He Hf]. destruct Hd; contradiction.
Qed.

Lemma fingerprint_follows_serialization_witness :
  exists d1 d2,
    parse "width=300---y=x|SOLID|RED" = Ok d1
    /\ parse "width=300---y=x|RED|SOLID" = Ok d2
    /\ fields d1 = fields d2
    /\ hash d1 = Sha256.sha256_hex (stringify (equations d1) (fields d1))
    /\ stringify (equations d1) (fields d1) <> stringify (equations d2) (fields d2).
Proof.
  assert (E1 : exists d, parse "width=300---y=x|SOLID|RED" = Ok d
                         /\ equations d
                            = [[("equation", "y=x"); ("style", "SOLID"); ("color", "RED")]]
                         /\ fields d = {| width := 300; height := 400; left := -10;
                                          right := 10; bottom := -7; top := 7 |})
    by (eexists; split; [vm_compute; reflexivity|split; reflexivity]).
  assert (E2 : exists d, parse "width=300---y=x|RED|SOLID" = Ok d
                         /\ equations d
                            = [[("equation", "y=x"); ("color", "RED"); ("style", "SOLID")]]
                         /\ fields d = {| width := 300; height := 400; left := -10;
                                          right := 10; bottom := -7; top := 7 |})
    by (eexists; split; [vm_compute; reflexivity|split; reflexivity]).
  destruct E1 as (d1 & P1 & Q1 & F1). destruct E2 as (d2 & P2 & Q2 & F2).
  exists d1, d2. split; [exact P1|]. split; [exact P2|].
  split; [now rewrite F1, F2|].
  destruct (fingerprint_follows_serialization _ _ d1 d2 P1 P2
              ltac:(rewrite F1; reflexivity) ltac:(rewrite F2; reflexivity))
    as (H1 & _ & _ & H4).
  split; [exact H1|]. apply H4. left. rewrite Q1, Q2. discriminate.
Defined.

End JsonFacts.

(** ** The render coordinator *)

Module RendererFacts.
Import Renderer.

Lemma cache_dir_set_cache_enabled P root b w :
  cache_dir P root (settings (set_cache_enabled b w)) = cache_dir P root (settings w).
Proof. reflexivity. Qed.

(** The toggle is never read: [render] commutes with it. *)
Lemma render_set_cache_enabled P root args el b w :
  render P root args el (set_cache_enabled b w)
  = set_cache_enabled b (render P root args el w).
Proof.
  unfold render.
  change (memory_hit args (set_cache_enabled b w)) with (memory_hit args w).
  change (filesystem_hit P root args (set_cache_enabled b w))
    with (filesystem_hit P root args w).
  change (graph_cache (set_cache_enabled b w)) with (graph_cache w).
  unfold Js.truthy_object.
  destruct (memory_hit args w).
  - destruct (graph_cache w !! Dsl.hash args); reflexivity.
  - destruct (filesystem_hit P root args w); reflexivity.
Qed.

Lemma handler_set_cache_enabled h m b w :
  handler h m (set_cache_enabled b w) = set_cache_enabled b (handler h m w).
Proof.
  unfold handler. destruct (matches h m); [|reflexivity].
  destruct (String.eqb (msg_d m) "render");
    [|destruct (String.eqb (msg_d m) "error"); reflexivity].
  unfold populate, Js.truthy_object.
  set (w2 := if String.eqb (msg_d m) "error" then _ else _).
  set (w2' := if String.eqb (msg_d m) "error" then _ else _).
  assert (Hw : w2 = set_cache_enabled b w2')
    by (subst w2 w2'; destruct (String.eqb (msg_d m) "error"); reflexivity).
  rewrite Hw. clearbody w2'. clear Hw w2.
  cbn [settings set_resolved appendChild removeEventListener set_dom set_listeners
       set_cache_enabled set_settings cache location].
  destruct (location (cache (settings w2'))); cbn [location_eqb]; [reflexivity|].
  unfold existsSync. cbn [files set_resolved appendChild removeEventListener set_dom
    set_listeners set_cache_enabled set_settings].
  case_bool_decide; reflexivity.
Qed.

Lemma handler_no_match h m w : matches h m = false -> handler h m w = w.
Proof. intros H. unfold handler. now rewrite H. Qed.

(** What the handler does on a matching error signal. *)
Lemma handler_error h m w :
  matches h m = true -> msg_d m = "error" ->
  handler h m w = renderError (msg_data m) (h_el h) (empty (h_el h) w).
Proof. intros Hm Hd. unfold handler. rewrite Hm, Hd. reflexivity. Qed.

Lemma handler_error_cache h m w :
  msg_d m = "error" ->
  graph_cache (handler h m w) = graph_cache w
  /\ files (handler h m w) = files w
  /\ pending (handler h m w) = pending w
  /\ listeners (handler h m w) = listeners w
  /\ resolved (handler h m w) = resolved w.
Proof.
  intros Hd. destruct (matches h m) eqn:Hm.
  - rewrite handler_error by assumption. repeat split.
  - rewrite handler_no_match by assumption. repeat split.
Qed.

Lemma fold_handler_error m l w :
  msg_d m = "error" ->
  let w' := List.fold_left (fun w0 h => handler h m w0) l w in
  graph_cache w' = graph_cache w /\ files w' = files w /\ pending w' = pending w.
Proof.
  intros Hd. revert w. induction l as [|h l IH]; intros w; cbn.
  - repeat split.
  - destruct (IH (handler h m w)) as (H1 & H2 & H3).
    destruct (handler_error_cache h m w Hd) as (G1 & G2 & G3 & _).
    cbn in H1, H2, H3. rewrite H1, H2, H3. auto.
Qed.

Lemma children_renderError err el w :
  children el (renderError err el w) = [ErrorBox err].
Proof. unfold children, renderError. cbn. now rewrite lookup_insert_eq. Qed.

Lemma render_miss P root args el w :
  memory_hit args w = false -> filesystem_hit P root args w = false ->
  render P root args el w = submit P root args el w.
Proof. intros H1 H2. unfold render. rewrite H1, H2. reflexivity. Qed.

Lemma render_hit_listeners P root args el w :
  memory_hit args w || filesystem_hit P root args w = true ->
  listeners (render P root args el w) = listeners w.
Proof.
  intros H. unfold render, Js.truthy_object.
  destruct (memory_hit args w).
  - destruct (graph_cache w !! Dsl.hash args); reflexivity.
  - cbn in H. rewrite H. reflexivity.
Qed.

Lemma handler_render_listeners h m w :
  matches h m = true -> msg_d m = "render" ->
  listeners (handler h m w)
  = List.filter (fun h' => negb (Nat.eqb (h_request h') (h_request h))) (listeners w).
Proof.
  intros Hm Hd. unfold handler. rewrite Hm, Hd. cbn [String.eqb].
  replace (String.eqb "render" "error") with false by reflexivity.
  replace (String.eqb "render" "render") with true by reflexivity.
  unfold populate, Js.truthy_object.
  match goal with |- context [location_eqb ?a Memory] => destruct a end; cbn [location_eqb].
  - reflexivity.
  - match goal with |- context [existsSync ?a ?b] => destruct (existsSync a b) end; reflexivity.
Qed.

Lemma filter_other_requests l n :
  Forall (fun h => (h_request h < n)%nat) l ->
  List.filter (fun h' => negb (Nat.eqb (h_request h') n)) l = l.
Proof.
  induction 1 as [|h l Hh Hl IH]; [reflexivity|]. cbn.
  destruct (Nat.eqb_spec (h_request h) n) as [E|_]; [lia|]. cbn. now rewrite IH.
Qed.

(** Requests are numbered in the order made, so the closures on the list
    keep distinct numbers. *)
Lemma well_numbered_render P root args el w :
  well_numbered w -> well_numbered (render P root args el w).
Proof.
  unfold well_numbered. intros H.
  assert (Hs : Forall (fun h => (h_request h < S (next_request w))%nat) (listeners w)).
  { eapply Forall_impl; [exact H|]. cbn. intros h Hh. lia. }
  unfold render, Js.truthy_object.
  destruct (memory_hit args w).
  - destruct (graph_cache w !! Dsl.hash args); [exact Hs|exact H].
  - destruct (filesystem_hit P root args w); [exact Hs|].
    unfold submit. cbn. apply Forall_app. split; [exact Hs|].
    constructor; [cbn; lia|constructor].
Qed.

Lemma well_numbered_handler h m w :
  well_numbered w -> well_numbered (handler h m w).
Proof.
  unfold well_numbered. intros H.
  assert (Hn : next_request (handler h m w) = next_request w).
  { unfold handler. destruct (matches h m); [|reflexivity].
    destruct (String.eqb (msg_d m) "render");
      [|destruct (String.eqb (msg_d m) "error"); reflexivity].
    unfold populate, Js.truthy_object.
    match goal with |- context [location_eqb ?a Memory] => destruct a end;
      cbn [location_eqb]; [destruct (String.eqb (msg_d m) "error"); reflexivity|].
    match goal with |- context [existsSync ?a ?b] => destruct (existsSync a b) end;
      destruct (String.eqb (msg_d m) "error"); reflexivity. }
  rewrite Hn.
  destruct (matches h m && String.eqb (msg_d m) "render") eqn:E.
  - apply andb_true_iff in E as [Hm Hd]. apply String.eqb_eq in Hd.
    rewrite handler_render_listeners by assumption.
    rewrite List.Forall_forall in *. intros x Hx.
    apply filter_In in Hx as [Hx _]. auto.
  - unfold handler. destruct (matches h m); [|exact H].
    cbn in E. rewrite E. destruct (String.eqb (msg_d m) "error"); exact H.
Qed.

(** The sample spec is what the parser returns. *)
Lemma parse_spec_yx : Dsl.parse "y=x" = Dsl.Ok Sample.spec_yx.
Proof. vm_compute. reflexivity. Qed.

Import Sample.

(** C2: with the cache toggle off, [render] still answers from the cache
    without invoking the external renderer, and a rendered picture is still
    written to the cache: the guards test [settings.cache], an object,
    where the toggle is [settings.cache.enabled]. *)
Theorem render_uses_cache_when_disabled :
  enabled (cache settings_off) = false
  /\ children 0 (render posix "/vault" spec_yx 0 (warm settings_off)) = [Img picture]
  /\ renderer_invoked 0 (render posix "/vault" spec_yx 0 (warm settings_off)) = false
  /\ listeners (render posix "/vault" spec_yx 0 (warm settings_off)) = []
  /\ resolved (render posix "/vault" spec_yx 0 (warm settings_off)) = ∅
  /\ graph_cache (cold settings_off) !! Dsl.hash spec_yx = None
  /\ graph_cache
       (dispatch render_message (render posix "/vault" spec_yx 0 (cold settings_off)))
     !! Dsl.hash spec_yx = Some picture.
Proof. vm_compute. repeat split. Qed.

(** A matching error signal leaves the listener of the request
    registered, and a request answered from the cache registers no listener
    at all. *)
Lemma listener_survives_error_signal :
  (exists h,
      listeners (render posix "/vault" spec_yx 0 (cold DEFAULT_SETTINGS_STATIC)) = [h]
      /\ matches h error_message = true
      /\ listeners
           (dispatch error_message
              (render posix "/vault" spec_yx 0 (cold DEFAULT_SETTINGS_STATIC))) = [h])
  /\ listeners (render posix "/vault" spec_yx 0 (warm DEFAULT_SETTINGS_STATIC)) = [].
Proof. split; [eexists; vm_compute; repeat split|vm_compute; reflexivity]. Qed.

(** A request answered from the cache registers no listener;
    a request that misses the cache registers exactly one, for the
    fingerprint of the request.  That listener is untouched by a message
    that does not match, and the first matching success signal takes it,
    and no other listener, off: the listeners are then those from before
    the request. *)
Lemma listener_registered_on_miss_removed_on_success P root args el w :
  (memory_hit args w || filesystem_hit P root args w = true ->
   listeners (render P root args el w) = listeners w)
  /\ (memory_hit args w = false ->
      filesystem_hit P root args w = false ->
      exists h,
        listeners (render P root args el w) = (listeners w ++ [h])%list
        /\ h_request h = next_request w
        /\ h_hash h = Dsl.hash args
        /\ (forall m w', matches h m = false -> handler h m w' = w')
        /\ (forall m w', matches h m = true -> msg_d m = "render" ->
              listeners (handler h m w')
              = List.filter (fun h' => negb (Nat.eqb (h_request h') (h_request h)))
                  (listeners w')
              /\ ~ In h (listeners (handler h m w')))
        /\ (forall m, well_numbered w -> matches h m = true -> msg_d m = "render" ->
              listeners (handler h m (render P root args el w)) = listeners w)).
Proof.
  split; [apply render_hit_listeners|].
  intros H1 H2. rewrite render_miss by assumption. unfold submit.
  eexists. split; [reflexivity|]. split; [reflexivity|]. split; [reflexivity|].
  split; [|split].
  - intros m w' H. now apply handler_no_match.
  - intros m w' Hm Hd. rewrite handler_render_listeners by assumption.
    split; [reflexivity|]. intros Hin. apply filter_In in Hin as [_ Hin].
    rewrite Nat.eqb_refl in Hin. discriminate.
  - intros m Hw Hm Hd. rewrite handler_render_listeners by assumption.
    cbn [listeners addEventListener set_listeners appendChild set_dom
         set_next_request h_request].
    rewrite List.filter_app, (filter_other_requests _ _ Hw). cbn.
    rewrite Nat.eqb_refl. cbn. apply app_nil_r.
Qed.

(** The error signal does not resolve the promise of the request, which a
    success signal does. *)
Lemma error_signal_leaves_promise_pending :
  children 0
    (dispatch error_message
       (render posix "/vault" spec_yx 0 (cold DEFAULT_SETTINGS_STATIC)))
  = [ErrorBox "Too many variables"]
  /\ resolved
       (dispatch error_message
          (render posix "/vault" spec_yx 0 (cold DEFAULT_SETTINGS_STATIC))) = ∅
  /\ resolved
       (dispatch render_message
          (render posix "/vault" spec_yx 0 (cold DEFAULT_SETTINGS_STATIC))) = {[ 0%nat ]}.
Proof. vm_compute. repeat split. Qed.

(** On a matching error signal the output element shows the error with
    the message the renderer supplied, and the dispatch of that signal
    writes nothing to the cache. *)
Lemma error_signal_shows_error_without_cache_write h m w :
  matches h m = true ->
  msg_d m = "error" ->
  children (h_el h) (handler h m w) = [ErrorBox (msg_data m)]
  /\ graph_cache (handler h m w) = graph_cache w
  /\ files (handler h m w) = files w
  /\ pending (handler h m w) = pending w
  /\ graph_cache (dispatch m w) = graph_cache w
  /\ files (dispatch m w) = files w
  /\ pending (dispatch m w) = pending w.
Proof.
  intros Hm Hd. split.
  - rewrite handler_error by assumption. apply children_renderError.
  - destruct (handler_error_cache h m w Hd) as (G1 & G2 & G3 & _).
    destruct (fold_handler_error m (listeners w) w Hd) as (F1 & F2 & F3).
    unfold dispatch. auto 10.
Qed.

End RendererFacts.

(** * Properties of the documents, the requests and the plugin *)

(** ** Numerals *)

Module NumberFacts.

Import DslInvariant.

Lemma non_digit_value c :
  Js.is_digit c = false ->
  Js.digit_value c = None \/ exists d, Js.digit_value c = Some d /\ 10 <= d.
Proof.
  intros H. unfold Js.digit_value. rewrite H.
  destruct (Js.is_lower c) eqn:El.
  - unfold Js.is_lower in El. apply andb_true_iff in El as [E1 E2].
    apply N.leb_le in E1. right. eexists. split; [reflexivity|]. cbv zeta. lia.
  - destruct (Js.is_upper c) eqn:Eu; [|now left].
    unfold Js.is_upper in Eu. apply andb_true_iff in Eu as [E1 E2].
    apply N.leb_le in E1. right. eexists. split; [reflexivity|]. cbv zeta. lia.
Qed.

Lemma read_digits_stop c tail acc seen :
  Js.is_digit c = false ->
  Js.read_digits 10 (String c tail) acc seen = (if seen then Some acc else None).
Proof.
  intros H. cbn [Js.read_digits].
  destruct (non_digit_value c H) as [E|(d & E & Hd)]; rewrite E; [reflexivity|].
  destruct (Z.ltb_spec d 10); [lia|reflexivity].
Qed.

Lemma read_digits_end rest acc :
  ends_numeral rest = true -> Js.read_digits 10 rest acc true = Some acc.
Proof.
  destruct rest as [|c rest]; [reflexivity|]. cbn [ends_numeral].
  intros H. apply andb_true_iff in H as [H _]. apply andb_true_iff in H as [H _].
  apply negb_true_iff in H. now rewrite read_digits_stop.
Qed.

Ltac digit_step :=
  match goal with
  | |- context [Js.digit_value ?c] =>
      let v := eval vm_compute in (Js.digit_value c) in
      change (Js.digit_value c) with v
  end;
  cbn [Z.ltb Z.compare Pos.compare Pos.compare_cont].

Lemma read_digits_acc d rest :
  ends_numeral rest = true ->
  forall acc : positive,
    Js.read_digits 10 (NilEmpty.string_of_uint d ++ rest) (Zpos acc) true
    = Some (Zpos (Pos.of_uint_acc d acc)).
Proof.
  intros Hr. induction d; intros acc;
    cbn [NilEmpty.string_of_uint Pos.of_uint_acc];
    [rewrite SegmentFacts.append_nil_l; now apply read_digits_end|..];
    rewrite SegmentFacts.append_cons; cbn [Js.read_digits]; digit_step;
    match goal with
    | |- Js.read_digits _ _ ?a _ = Some (Zpos (Pos.of_uint_acc _ ?b)) =>
        replace a with (Zpos b) by lia
    end;
    apply IHd.
Qed.

Lemma read_digits_zero d rest seen :
  ends_numeral rest = true ->
  d <> Decimal.Nil \/ seen = true ->
  Js.read_digits 10 (NilEmpty.string_of_uint d ++ rest) 0 seen
  = Some (Z.of_N (Pos.of_uint d)).
Proof.
  intros Hr. revert seen. induction d; intros seen Hs;
    cbn [NilEmpty.string_of_uint Pos.of_uint].
  - destruct Hs as [Hs | ->]; [congruence|].
    rewrite SegmentFacts.append_nil_l. now apply read_digits_end.
  - rewrite SegmentFacts.append_cons. cbn [Js.read_digits]. digit_step.
    cbn. apply IHd. now right.
  - rewrite SegmentFacts.append_cons. cbn [Js.read_digits]. digit_step.
    cbn. now apply read_digits_acc.
  - rewrite SegmentFacts.append_cons. cbn [Js.read_digits]. digit_step.
    cbn. now apply read_digits_acc.
  - rewrite SegmentFacts.append_cons. cbn [Js.read_digits]. digit_step.
    cbn. now apply read_digits_acc.
  - rewrite SegmentFacts.append_cons. cbn [Js.read_digits]. digit_step.
    cbn. now apply read_digits_acc.
  - rewrite SegmentFacts.append_cons. cbn [Js.read_digits]. digit_step.
    cbn. now apply read_digits_acc.
  - rewrite SegmentFacts.append_cons. cbn [Js.read_digits]. digit_step.
    cbn. now apply read_digits_acc.
  - rewrite SegmentFacts.append_cons. cbn [Js.read_digits]. digit_step.
    cbn. now apply read_digits_acc.
  - rewrite SegmentFacts.append_cons. cbn [Js.read_digits]. digit_step.
    cbn. now apply read_digits_acc.
  - rewrite SegmentFacts.append_cons. cbn [Js.read_digits]. digit_step.
    cbn. now apply read_digits_acc.
Qed.

Lemma trimStart_white_space ws s :
  Js.every Js.is_white_space ws = true ->
  Js.trimStart (ws ++ s) = Js.trimStart s.
Proof.
  induction ws as [|c ws IH]; [reflexivity|]. cbn [Js.every].
  intros H. apply andb_true_iff in H as [Hc Hws].
  rewrite SegmentFacts.append_cons. cbn [Js.trimStart]. rewrite Hc. now apply IH.
Qed.

Lemma parseInt_white_space ws s :
  Js.every Js.is_white_space ws = true -> Js.parseInt (ws ++ s) = Js.parseInt s.
Proof. intros H. unfold Js.parseInt. now rewrite trimStart_white_space. Qed.

Ltac compute_white_space :=
  repeat match goal with
         | |- context [Js.is_white_space ?c] =>
             let v := eval vm_compute in (Js.is_white_space c) in
             change (Js.is_white_space c) with v
         end.

(** The numeral of a natural number, and the same after a minus sign,
    read by [parseInt] up to a text that cannot continue it. *)
Lemma parseInt_uint d rest :
  ends_numeral rest = true ->
  d <> Decimal.Nil ->
  Js.parseInt (NilEmpty.string_of_uint d ++ rest) = Some (Z.of_N (Pos.of_uint d))
  /\ Js.parseInt (String "-" (NilEmpty.string_of_uint d ++ rest))
     = Some (- Z.of_N (Pos.of_uint d)).
Proof.
  intros Hr Hd.
  assert (Hread : Js.read_digits 10 (NilEmpty.string_of_uint d ++ rest) 0 false
                  = Some (Z.of_N (Pos.of_uint d)))
    by (apply read_digits_zero; auto).
  assert (Hshape : exists c tail,
             NilEmpty.string_of_uint d ++ rest = String c tail
             /\ Js.is_digit c = true
             /\ (c = "0"%char ->
                 match tail with
                 | String "x" _ => False
                 | String "X" _ => False
                 | _ => True
                 end)).
  { destruct d as [|d|d|d|d|d|d|d|d|d|d]; [congruence|..];
      cbn [NilEmpty.string_of_uint]; rewrite SegmentFacts.append_cons;
      eexists _, _; (split; [reflexivity|]); (split; [reflexivity|]);
      try (intros E; discriminate E).
    intros _. destruct d; cbn [NilEmpty.string_of_uint];
      rewrite ?SegmentFacts.append_cons, ?SegmentFacts.append_nil_l; try exact I.
    destruct rest as [|c rest]; [exact I|]. cbn [ends_numeral] in Hr.
    apply andb_true_iff in Hr as [Hr HX]. apply andb_true_iff in Hr as [_ Hx].
    apply negb_true_iff in Hx, HX. apply Ascii.eqb_neq in Hx, HX.
    destruct c as [[] [] [] [] [] [] [] []]; try exact I; congruence. }
  destruct Hshape as (c & tail & E & Hc & H0). rewrite E in *.
  assert (Hplain : forall sign : Z,
             (let '(radix, s3) :=
                match String c tail with
                | String "0" (String "x" r) => (16, r)
                | String "0" (String "X" r) => (16, r)
                | _ => (10, String c tail)
                end in
              match Js.read_digits radix s3 0 false with
              | Some n => Some (sign * n)
              | None => None
              end)
             = Some (sign * Z.of_N (Pos.of_uint d))).
  { intros sign.
    assert (Hm : match String c tail with
                 | String "0" (String "x" r) => (16, r)
                 | String "0" (String "X" r) => (16, r)
                 | _ => (10, String c tail)
                 end = (10, String c tail)).
    { destruct (Ascii.eqb_spec c "0") as [->|Hne].
      - specialize (H0 eq_refl). destruct tail as [|t tail]; [reflexivity|].
        destruct t as [[] [] [] [] [] [] [] []]; try reflexivity; destruct H0.
      - destruct c as [[] [] [] [] [] [] [] []]; try reflexivity; congruence. }
    rewrite Hm, Hread. reflexivity. }
  assert (Hws : Js.is_white_space c = false).
  { destruct c as [[] [] [] [] [] [] [] []]; try reflexivity; discriminate Hc. }
  split.
  - unfold Js.parseInt. cbn [Js.trimStart]. rewrite Hws.
    assert (Hs : match String c tail with
                 | String "-" r => (-1, r)
                 | String "+" r => (1, r)
                 | _ => (1, String c tail)
                 end = (1, String c tail)).
    { destruct c as [[] [] [] [] [] [] [] []]; try reflexivity; discriminate Hc. }
    rewrite Hs, (Hplain 1). f_equal; lia.
  - unfold Js.parseInt. cbn [Js.trimStart]. compute_white_space. cbv iota.
    rewrite (Hplain (-1)). f_equal; lia.
Qed.

(** [parseInt] reads back what [toString] writes, also after white space
    and before a text that cannot continue the numeral. *)
Lemma parseInt_numeral ws n rest :
  Js.every Js.is_white_space ws = true ->
  ends_numeral rest = true ->
  Js.parseInt (ws ++ Js.number_toString n ++ rest) = Some n.
Proof.
  intros Hws Hr. rewrite parseInt_white_space by exact Hws.
  unfold Js.number_toString. destruct n as [|p|p]; cbn [Z.to_int].
  - change (NilEmpty.string_of_int (Decimal.Pos ?d)) with (NilEmpty.string_of_uint d).
    destruct (parseInt_uint (Decimal.D0 Decimal.Nil) rest Hr ltac:(discriminate))
      as [H _].
    exact H.
  - change (NilEmpty.string_of_int (Decimal.Pos ?d)) with (NilEmpty.string_of_uint d).
    destruct (parseInt_uint _ rest Hr (DecimalPos.Unsigned.to_uint_nonnil p)) as [-> _].
    now rewrite DecimalPos.Unsigned.of_to.
  - change (NilEmpty.string_of_int (Decimal.Neg ?d))
      with (String "-" (NilEmpty.string_of_uint d)).
    rewrite SegmentFacts.append_cons.
    destruct (parseInt_uint _ rest Hr (DecimalPos.Unsigned.to_uint_nonnil p)) as [_ ->].
    now rewrite DecimalPos.Unsigned.of_to.
Qed.

Lemma parseInt_number_toString n : Js.parseInt (Js.number_toString n) = Some n.
Proof.
  pose proof (parseInt_numeral EmptyString n EmptyString eq_refl eq_refl) as H.
  now rewrite SegmentFacts.append_nil_l, SegmentFacts.append_nil_r in H.
Qed.


End NumberFacts.

(** ** Parsed documents *)

Module DocumentFacts.

Import Dsl DslSpec DslInvariant DslFacts SegmentFacts SplitFacts LineFacts ParseFacts.

Lemma includes_append c a b :
  Js.includes c (a ++ b) = Js.includes c a || Js.includes c b.
Proof.
  induction a as [|d a IH]; [reflexivity|].
  rewrite append_cons. cbn [Js.includes]. now rewrite IH, orb_assoc.
Qed.

Lemma no_banned_append a b : no_banned a -> no_banned b -> no_banned (a ++ b).
Proof.
  unfold no_banned. rewrite !List.Forall_forall. intros Ha Hb c Hc.
  rewrite includes_append, (Ha c Hc), (Hb c Hc). reflexivity.
Qed.

Lemma check_banned_ok cs value ctx :
  check_banned cs value ctx = Ok tt <-> Forall (fun c => Js.includes c value = false) cs.
Proof.
  induction cs as [|c cs IH]; cbn [check_banned].
  - split; [constructor|reflexivity].
  - destruct (Js.includes c value) eqn:E.
    + split; [discriminate|]. intros H. inversion H; congruence.
    + rewrite IH. split; [now constructor|]. intros H. now inversion H.
Qed.

(** [assert_notbanned] passes exactly the texts without a banned character. *)
Lemma assert_notbanned_ok value ctx :
  assert_notbanned value ctx = Ok tt <-> no_banned value.
Proof. apply check_banned_ok. Qed.

Lemma mapM_Forall {A B} (f : A -> Result B) (P : B -> Prop) l ys :
  mapM f l = Ok ys -> (forall x y, f x = Ok y -> P y) -> Forall P ys.
Proof.
  intros H Hf. revert ys H. induction l as [|x l IH]; intros ys H.
  - injection H as <-. constructor.
  - cbn in H. destruct (f x) as [y|] eqn:E; [|discriminate]. cbn in H.
    destruct (mapM f l) as [ys'|]; [|discriminate]. injection H as <-.
    constructor; eauto.
Qed.

Lemma mapM_map {A B C} (f : A -> Result B) (g : B -> C) (h : A -> C) l ys :
  mapM f l = Ok ys -> (forall x y, f x = Ok y -> g y = h x) ->
  List.map g ys = List.map h l.
Proof.
  intros H Hf. revert ys H. induction l as [|x l IH]; intros ys H.
  - injection H as <-. reflexivity.
  - cbn in H. destruct (f x) as [y|] eqn:E; [|discriminate]. cbn in H.
    destruct (mapM f l) as [ys'|]; [|discriminate]. injection H as <-.
    cbn. f_equal; eauto.
Qed.

(** What an accepted source went through. *)
Lemma parse_ok_inv source d :
  parse source = Ok d ->
  exists body settings,
    ((Js.split "---" source = [body] /\ settings = ∅)
     \/ (exists block,
           Js.split "---" source = [block; body]
           /\ parse_fields block = Ok settings))
    /\ mapM process_equation (lines body) = Ok (equations d)
    /\ fields d = assign_fields FIELD_DEFAULTS settings
    /\ assert_sanity (fields d) = Ok tt.
Proof.
  intros H.
  assert (Hb : forall eqs settings, build eqs settings = Ok d ->
             mapM process_equation eqs = Ok (equations d)
             /\ fields d = assign_fields FIELD_DEFAULTS settings
             /\ assert_sanity (fields d) = Ok tt).
  { intros eqs settings Hbuild. unfold build in Hbuild.
    destruct (mapM process_equation eqs) as [processed|]; [|discriminate].
    unfold new_Dsl in Hbuild. cbn in Hbuild.
    destruct (assert_sanity (assign_fields FIELD_DEFAULTS settings)) as [[]|] eqn:E;
      [|discriminate].
    cbn in Hbuild. injection Hbuild as <-. cbn. auto. }
  pose proof (split_nonempty "---" source) as Hne. unfold parse in H.
  destruct (Js.split "---" source) as [|s1 [|s2 [|s3 rest]]] eqn:Hs;
    [contradiction| | |discriminate].
  - exists s1, ∅. split; [left; auto|]. apply Hb. exact H.
  - cbn in H. destruct (parse_fields s1) as [settings|] eqn:Hf; [|discriminate].
    exists s2, settings. split; [right; eauto|]. apply Hb. exact H.
Qed.

(** X1: every accepted document has its left boundary below the right one and
    its bottom boundary below the top one. *)
Theorem parsed_boundaries_are_ordered source d :
  parse source = Ok d ->
  left (fields d) < right (fields d) /\ bottom (fields d) < top (fields d).
Proof.
  intros H. destruct (parse_ok_inv _ _ H) as (_ & _ & _ & _ & _ & Hs).
  unfold assert_sanity in Hs.
  destruct (left (fields d) >=? right (fields d)) eqn:E1; [discriminate|].
  destruct (bottom (fields d) >=? top (fields d)) eqn:E2; [discriminate|].
  lia.
Qed.

Lemma parsed_boundaries_are_ordered_witness :
  (exists d,
      parse "left=-5;right=5;bottom=0;top=10---y=x" = Ok d
      /\ fields d = {| width := 600; height := 400; left := -5; right := 5;
                       bottom := 0; top := 10 |}
      /\ left (fields d) < right (fields d)
      /\ bottom (fields d) < top (fields d))
  /\ parse "left=5;right=-5---y=x" = Err (InvalidBoundaryLeftRight 5 (-5))
  /\ parse "bottom=3;top=3---y=x" = Err (InvalidBoundaryBottomTop 3 3).
Proof.
  split; [|split; vm_compute; reflexivity].
  assert (E : exists d,
             parse "left=-5;right=5;bottom=0;top=10---y=x" = Ok d
             /\ fields d = {| width := 600; height := 400; left := -5; right := 5;
                              bottom := 0; top := 10 |})
    by (eexists; split; [vm_compute; reflexivity|reflexivity]).
  destruct E as (d & E & F). exists d. split; [exact E|]. split; [exact F|].
  exact (parsed_boundaries_are_ordered _ d E).
Defined.

(** *** The equations of an accepted document *)

Lemma style_token_In segment s : classify segment = StyleToken s -> In s EquationStyle.
Proof.
  unfold classify.
  destruct (Js.array_includes EquationStyle (Js.toUpperCase segment)) eqn:Es.
  - intros [= <-]. now apply array_includes_In.
  - destruct (Js.array_includes EquationColor _); [discriminate|].
    destruct (isHexColor segment); discriminate.
Qed.

Lemma color_token_In segment c :
  classify segment = ColorToken c -> In c EquationColor \/ isHexColor c = true.
Proof.
  unfold classify.
  destruct (Js.array_includes EquationStyle (Js.toUpperCase segment)); [discriminate|].
  destruct (Js.array_includes EquationColor (Js.toUpperCase segment)) eqn:Ec.
  - intros [= <-]. left. now apply array_includes_In.
  - destruct (isHexColor segment) eqn:Eh; [|discriminate]. intros [= <-]. now right.
Qed.

Lemma no_banned_braces segment : no_banned segment -> no_banned ("{" ++ segment ++ "}").
Proof.
  intros H. apply no_banned_append; [repeat constructor|].
  apply no_banned_append; [exact H|repeat constructor].
Qed.

Lemma process_segment_safe o segment o' :
  safe_equation o -> process_segment o segment = Ok o' -> safe_equation o'.
Proof.
  intros (He & Hr & Hs & Hc) H. rewrite process_segment_classified in H.
  unfold safe_equation, equation_of, restriction_of, style_of, color_of in *.
  destruct (classify segment) as [s|c|r] eqn:K.
  - destruct (Js.truthy_prop (obj_get "style" o)); [discriminate|].
    injection H as <-.
    rewrite obj_get_set_eq, !(obj_get_set_ne "style") by discriminate.
    repeat split; try assumption.
    intros s' [= <-]. eapply style_token_In; eassumption.
  - destruct (Js.truthy_prop (obj_get "color" o)); [discriminate|].
    injection H as <-.
    rewrite obj_get_set_eq, !(obj_get_set_ne "color") by discriminate.
    repeat split; try assumption.
    intros c' [= <-]. eapply color_token_In; eassumption.
  - destruct (assert_notbanned segment "graph configuration") as [[]|] eqn:Ea;
      [|discriminate].
    cbn in H. injection H as <-.
    destruct (add_restriction_spec segment o) as (R1 & R2 & R3 & R4).
    unfold equation_of, restriction_of, style_of, color_of in *.
    rewrite R1, R2, R3, R4. repeat split; try assumption.
    intros r' [= <-]. apply assert_notbanned_ok in Ea.
    apply no_banned_append; [|now apply no_banned_braces].
    destruct (obj_get "restriction" o) as [r0|]; [now apply Hr|repeat constructor].
Qed.

Lemma reduce_segments_safe segments :
  forall o o', safe_equation o -> reduceM process_segment segments o = Ok o' ->
               safe_equation o'.
Proof.
  induction segments as [|segment segments IH]; intros o o' Ho H.
  - now injection H as <-.
  - cbn [reduceM] in H. destruct (process_segment o segment) as [o1|] eqn:E;
      [|discriminate].
    cbn in H. eapply IH; [|exact H]. eapply process_segment_safe; eassumption.
Qed.

Lemma process_equation_safe line obj :
  process_equation line = Ok obj -> safe_equation obj.
Proof.
  unfold process_equation. pose proof (split_nonempty "|" line) as Hne.
  destruct (Js.split "|" line) as [|first segments]; [contradiction|].
  destruct (assert_notbanned first "graph equation") as [[]|] eqn:Ea; [|discriminate].
  cbn. apply reduce_segments_safe. apply assert_notbanned_ok in Ea.
  split; [exists first; split; [reflexivity|exact Ea]|].
  repeat split; discriminate.
Qed.

(** X2: no quote character reaches the equations of an accepted document: the
    expression and the restriction of each are free of the three banned
    characters, the style is one of the six constants and the color is one
    of the six constants or has the hex form. *)
Theorem parsed_equations_are_safe source d :
  parse source = Ok d -> Forall safe_equation (equations d).
Proof.
  intros H. destruct (parse_ok_inv _ _ H) as (body & _ & _ & Hm & _).
  eapply mapM_Forall; [exact Hm|]. intros x y. apply process_equation_safe.
Qed.

Lemma parsed_equations_are_safe_witness :
  exists d,
    parse ("y=x|x>0|dashed|#Ff00aa" ++ String LF "x=1|RED|y<2|point") = Ok d
    /\ equations d
       = [ [("equation", "y=x"); ("restriction", "{x>0}"); ("style", "DASHED");
            ("color", "#Ff00aa")];
           [("equation", "x=1"); ("color", "RED"); ("restriction", "{y<2}");
            ("style", "POINT")] ]
    /\ Forall safe_equation (equations d).
Proof.
  assert (E : exists d,
             parse ("y=x|x>0|dashed|#Ff00aa" ++ String LF "x=1|RED|y<2|point") = Ok d
             /\ equations d
                = [ [("equation", "y=x"); ("restriction", "{x>0}"); ("style", "DASHED");
                     ("color", "#Ff00aa")];
                    [("equation", "x=1"); ("color", "RED"); ("restriction", "{y<2}");
                     ("style", "POINT")] ])
    by (eexists; split; [vm_compute; reflexivity|reflexivity]).
  destruct E as (d & E & Q). exists d. split; [exact E|]. split; [exact Q|].
  exact (parsed_equations_are_safe _ d E).
Defined.

(** X3: the equations of an accepted document are the non-empty lines of its
    body, in their order, each with the text before its first bar as the
    expression. *)
Theorem parsed_equations_follow_lines source d :
  parse source = Ok d ->
  exists body,
    (Js.split "---" source = [body] \/ exists block, Js.split "---" source = [block; body])
    /\ Forall (fun line => line <> EmptyString) (lines body)
    /\ List.map equation_of (equations d)
       = List.map (fun line => head (Js.split "|" line)) (lines body).
Proof.
  intros H. destruct (parse_ok_inv _ _ H) as (body & settings & Hsrc & Hm & _).
  exists body. split; [|split].
  - destruct Hsrc as [[Hs _]|(block & Hs & _)]; [left|right; exists block]; exact Hs.
  - unfold lines, Js.filter_Boolean. apply List.Forall_forall. intros line Hin.
    apply filter_In in Hin as [_ Ht]. now destruct line.
  - eapply mapM_map; [exact Hm|]. intros line obj Hp.
    destruct (process_equation_segments _ _ Hp) as (first & segments & Hs & Hr).
    rewrite Hs. destruct (reduce_from_expression _ _ _ Hr) as (He & _). exact He.
Qed.

Lemma parsed_equations_follow_lines_witness :
  exists d,
    parse ("width=300---y=x|red" ++ String LF (String LF "x=1|dashed|x>0")
           ++ String LF "|blue") = Ok d
    /\ lines ("y=x|red" ++ String LF (String LF "x=1|dashed|x>0") ++ String LF "|blue")
       = ["y=x|red"; "x=1|dashed|x>0"; "|blue"]
    /\ List.map equation_of (equations d) = [Some "y=x"; Some "x=1"; Some EmptyString].
Proof.
  assert (E : exists d,
             parse ("width=300---y=x|red" ++ String LF (String LF "x=1|dashed|x>0")
                    ++ String LF "|blue") = Ok d)
    by (eexists; vm_compute; reflexivity).
  destruct E as (d & E). exists d. split; [exact E|]. split; [reflexivity|].
  destruct (parsed_equations_follow_lines _ d E) as (body & Hsrc & _ & Hmap).
  assert (Hb : body = "y=x|red" ++ String LF (String LF "x=1|dashed|x>0")
                      ++ String LF "|blue").
  { destruct Hsrc as [Hs|(block & Hs)]; vm_compute in Hs;
      [discriminate Hs|injection Hs as _ <-; reflexivity]. }
  rewrite Hmap, Hb. reflexivity.
Defined.

(** *** Settings given twice *)

Lemma field_step_inv settings key value settings' :
  field_step settings (key, value) = Ok settings' ->
  exists n,
    hasOwnProperty key = true /\ Js.parseInt value = Some n
    /\ settings' = <[key := n]> settings.
Proof.
  unfold field_step. destruct (hasOwnProperty key); [|discriminate].
  destruct (negb (Js.truthy value)); [discriminate|].
  destruct (Js.parseInt value) as [n|]; [|discriminate].
  intros [= <-]. eauto.
Qed.

Lemma reduce_fields_lookup entries :
  forall s0 s key,
    reduceM field_step entries s0 = Ok s ->
    s !! key = match last_setting key entries with
               | Some v => Js.parseInt v
               | None => s0 !! key
               end.
Proof.
  induction entries as [|[k v] entries IH]; intros s0 s key H.
  - now injection H as <-.
  - cbn [reduceM] in H. destruct (field_step s0 (k, v)) as [s1|] eqn:E; [|discriminate].
    cbn in H. rewrite (IH _ _ key H). cbn [last_setting].
    destruct (last_setting key entries); [reflexivity|].
    destruct (field_step_inv _ _ _ _ E) as (n & _ & Hn & ->).
    destruct (String.eqb_spec k key) as [->|Hne].
    + now rewrite lookup_insert_eq.
    + now rewrite lookup_insert_ne.
Qed.

Lemma field_value_assign_gen o key :
  hasOwnProperty key = true ->
  field_value (assign_fields FIELD_DEFAULTS o) key
  = match o !! key with
    | Some n => Some n
    | None => field_value FIELD_DEFAULTS key
    end.
Proof.
  intros Hk. apply hasOwnProperty_In in Hk. cbn in Hk.
  destruct Hk as [<-|[<-|[<-|[<-|[<-|[<-|[]]]]]]]; cbn;
    match goal with |- context [o !! ?k] => destruct (o !! k) end; reflexivity.
Qed.

(** X4: when a settings block gives a field more than once, the last entry
    counts; a field the block does not give keeps its default. *)
Theorem last_setting_wins source block body d key :
  Js.split "---" source = [block; body] ->
  parse source = Ok d ->
  hasOwnProperty key = true ->
  field_value (fields d) key
  = match last_setting key (setting_entries block) with
    | Some value => Js.parseInt value
    | None => field_value FIELD_DEFAULTS key
    end.
Proof.
  intros Hs H Hk. destruct (parse_ok_inv _ _ H) as (body' & settings & Hsrc & _ & Hf & _).
  destruct Hsrc as [[Hs' _]|(block' & Hs' & Hp)]; rewrite Hs in Hs'; [discriminate|].
  injection Hs' as <- <-. rewrite Hf, (field_value_assign_gen _ _ Hk).
  unfold parse_fields in Hp. rewrite (reduce_fields_lookup _ _ _ key Hp).
  rewrite lookup_empty.
  destruct (last_setting key (setting_entries block)) as [v|] eqn:El; [|reflexivity].
  destruct (Js.parseInt v) eqn:Ev; [reflexivity|].
  (* the last entry was accepted, so its value parses *)
  exfalso. revert Hp El Ev. generalize (∅ : gmap string Z).
  induction (setting_entries block) as [|[k v0] entries IH]; intros s0 Hp El Ev;
    [discriminate|].
  cbn [reduceM] in Hp. destruct (field_step s0 (k, v0)) as [s1|] eqn:E; [|discriminate].
  cbn in Hp. cbn [last_setting] in El.
  destruct (last_setting key entries) as [v'|] eqn:El'.
  - injection El as ->. eapply IH; eauto.
  - destruct (String.eqb k key); [|discriminate]. injection El as ->.
    destruct (field_step_inv _ _ _ _ E) as (n & _ & Hn & _). congruence.
Qed.

Lemma last_setting_wins_witness :
  exists d,
    parse "width=1;height=20;width=300---y=x" = Ok d
    /\ field_value (fields d) "width" = Some 300
    /\ field_value (fields d) "top" = Some 7.
Proof.
  assert (E : exists d, parse "width=1;height=20;width=300---y=x" = Ok d)
    by (eexists; vm_compute; reflexivity).
  destruct E as [d E]. exists d. split; [exact E|]. split.
  - exact (last_setting_wins "width=1;height=20;width=300---y=x"
             "width=1;height=20;width=300" "y=x" d "width" eq_refl E eq_refl).
  - exact (last_setting_wins "width=1;height=20;width=300---y=x"
             "width=1;height=20;width=300" "y=x" d "top" eq_refl E eq_refl).
Defined.

End DocumentFacts.

(** ** The source, its segments and its lines *)

Module SourceFacts.

Import Dsl DslSpec DslInvariant DslFacts SegmentFacts SplitFacts LineFacts ParseFacts.
Import DocumentFacts.

Lemma mapM_Forall2 {A B} (f : A -> Result B) l ys :
  mapM f l = Ok ys -> Forall2 (fun x y => f x = Ok y) l ys.
Proof.
  revert ys. induction l as [|x l IH]; intros ys H.
  - injection H as <-. constructor.
  - cbn in H. destruct (f x) as [y|] eqn:E; [|discriminate]. cbn in H.
    destruct (mapM f l) as [ys'|]; [|discriminate]. injection H as <-.
    constructor; auto.
Qed.

Lemma build_ok eqs settings es :
  mapM process_equation eqs = Ok es ->
  assert_sanity (assign_fields FIELD_DEFAULTS settings) = Ok tt ->
  build eqs settings
  = Ok {| equations := es;
          fields := assign_fields FIELD_DEFAULTS settings;
          hash := fingerprint es (assign_fields FIELD_DEFAULTS settings) |}.
Proof. intros Hm Hs. unfold build, new_Dsl. rewrite Hm. cbn. now rewrite Hs. Qed.

Lemma build_err eqs settings e :
  mapM process_equation eqs = Err e -> build eqs settings = Err e.
Proof. intros Hm. unfold build. now rewrite Hm. Qed.

Lemma parse_one_segment source body :
  Js.split "---" source = [body] -> parse source = build (lines body) ∅.
Proof. intros Hs. unfold parse. now rewrite Hs. Qed.

Lemma default_fields_sane : assert_sanity (assign_fields FIELD_DEFAULTS ∅) = Ok tt.
Proof. reflexivity. Qed.


Lemma parsed_field source block body d key :
  Js.split "---" source = [block; body] ->
  parse source = Ok d ->
  hasOwnProperty key = true ->
  field_value (fields d) key
  = match last_setting key (setting_entries block) with
    | Some value => Js.parseInt value
    | None => field_value FIELD_DEFAULTS key
    end.
Proof.
  intros Hs H Hk. destruct (parse_ok_inv _ _ H) as (body' & settings & Hsrc & _ & Hf & _).
  destruct Hsrc as [[Hs' _]|(block' & Hs' & Hp)]; rewrite Hs in Hs'; [discriminate|].
  injection Hs' as <- <-. rewrite Hf, (field_value_assign_gen _ _ Hk).
  unfold parse_fields in Hp. rewrite (reduce_fields_lookup _ _ _ key Hp), lookup_empty.
  destruct (last_setting key (setting_entries block)) as [v|] eqn:El; [|reflexivity].
  destruct (Js.parseInt v) eqn:Ev; [reflexivity|].
  exfalso. revert Hp El Ev. generalize (∅ : gmap string Z).
  induction (setting_entries block) as [|[k v0] entries IH]; intros s0 Hp El Ev;
    [discriminate|].
  cbn [reduceM] in Hp. destruct (field_step s0 (k, v0)) as [s1|] eqn:E; [|discriminate].
  cbn in Hp. cbn [last_setting] in El.
  destruct (last_setting key entries) as [v'|] eqn:El'.
  - injection El as ->. eapply IH; eauto.
  - destruct (String.eqb k key); [|discriminate]. injection El as ->.
    destruct (field_step_inv _ _ _ _ E) as (n & _ & Hn & _). congruence.
Qed.

(** C8: the source is cut at the separator of three dashes, and no source
    gives zero segments.  One segment is the whole source: its non-empty
    lines are the equations, the fields are the defaults, and the parse
    succeeds exactly when every line does.  Two segments are the settings
    block and the body: an error of an entry of the block is the error of
    the parse, and an accepted document holds for each field what the last
    entry of the block for it gives, or the default, and for each
    non-empty line of the body its equation.  Three or more segments are
    rejected as too many.  The empty source gives no equation and the
    default fields. *)
Theorem source_segments source :
  Js.split "---" source <> []
  /\ (forall body,
        Js.split "---" source = [body] ->
        body = source
        /\ (forall d,
              parse source = Ok d ->
              fields d = FIELD_DEFAULTS
              /\ Forall2 (fun line e => process_equation line = Ok e)
                   (Js.filter_Boolean (Js.split (String LF EmptyString) source))
                   (equations d))
        /\ (forall es,
              mapM process_equation
                (Js.filter_Boolean (Js.split (String LF EmptyString) source)) = Ok es ->
              exists d,
                parse source = Ok d /\ equations d = es /\ fields d = FIELD_DEFAULTS)
        /\ (forall e,
              mapM process_equation
                (Js.filter_Boolean (Js.split (String LF EmptyString) source)) = Err e ->
              parse source = Err e))
  /\ (forall block body,
        Js.split "---" source = [block; body] ->
        source = block ++ "---" ++ body
        /\ (forall e,
              reduceM field_step (setting_entries block) ∅ = Err e ->
              parse source = Err e)
        /\ (forall d,
              parse source = Ok d ->
              (forall key,
                  hasOwnProperty key = true ->
                  field_value (fields d) key
                  = match last_setting key (setting_entries block) with
                    | Some value => Js.parseInt value
                    | None => field_value FIELD_DEFAULTS key
                    end)
              /\ Forall2 (fun line e => process_equation line = Ok e)
                   (Js.filter_Boolean (Js.split (String LF EmptyString) body))
                   (equations d))
        /\ (forall settings es,
              reduceM field_step (setting_entries block) ∅ = Ok settings ->
              mapM process_equation
                (Js.filter_Boolean (Js.split (String LF EmptyString) body)) = Ok es ->
              assert_sanity (assign_fields FIELD_DEFAULTS settings) = Ok tt ->
              exists d,
                parse source = Ok d
                /\ equations d = es
                /\ fields d = assign_fields FIELD_DEFAULTS settings))
  /\ ((length (Js.split "---" source) = 0 \/ 3 <= length (Js.split "---" source))%nat ->
      parse source = Err TooManySegments)
  /\ (exists d, parse EmptyString = Ok d /\ equations d = [] /\ fields d = FIELD_DEFAULTS).
Proof.
  pose proof (join_split "---" source ltac:(discriminate)) as Hjoin.
  split; [apply split_nonempty|]. split; [|split; [|split]].
  - intros body Hs. rewrite Hs in Hjoin. cbn in Hjoin. subst body.
    pose proof (parse_one_segment _ _ Hs) as Hp. fold (lines source).
    split; [reflexivity|]. split; [|split].
    + intros d Hd. split; [rewrite Hp in Hd; eapply build_default_fields, Hd|].
      destruct (parse_ok_inv _ _ Hd) as (body' & settings' & Hsrc & Hm & _).
      destruct Hsrc as [[Hs' _]|(block' & Hs' & _)]; rewrite Hs in Hs';
        [|discriminate].
      injection Hs' as E. subst body'. now apply mapM_Forall2.
    + intros es Hm. rewrite Hp, (build_ok _ _ _ Hm default_fields_sane).
      eexists. split; [reflexivity|]. split; reflexivity.
    + intros e Hm. rewrite Hp. now apply build_err.
  - intros block body Hs. rewrite Hs in Hjoin. fold (lines body).
    pose proof (parse_two_segments _ _ _ Hs) as Hp. unfold parse_fields in Hp.
    split; [now rewrite <- Hjoin|]. split; [|split].
    + intros e He. rewrite Hp, He. reflexivity.
    + intros d Hd. split.
      * intros key Hk. now apply (parsed_field source block body).
      * destruct (parse_ok_inv _ _ Hd) as (body' & settings' & Hsrc & Hm & _).
        destruct Hsrc as [[Hs' _]|(block' & Hs' & _)]; rewrite Hs in Hs';
          [discriminate|].
        injection Hs' as _ E. subst body'. now apply mapM_Forall2.
    + intros settings es Hr Hm Hsane. rewrite Hp, Hr. cbn.
      rewrite (build_ok _ _ _ Hm Hsane).
      eexists. split; [reflexivity|]. split; reflexivity.
  - intros Hlen. unfold parse.
    pose proof (split_nonempty "---" source) as Hne.
    destruct (Js.split "---" source) as [|s1 [|s2 [|s3 rest]]]; cbn in Hlen;
      try lia; [contradiction|reflexivity].
  - eexists. split; [vm_compute; reflexivity|]. split; reflexivity.
Qed.

Lemma source_segments_witness :
  (exists d,
      parse ("y=x" ++ String LF "x=1|red") = Ok d
      /\ equations d = [[("equation", "y=x")]; [("equation", "x=1"); ("color", "RED")]]
      /\ fields d = FIELD_DEFAULTS)
  /\ (exists d,
        parse ("width=10;height=20---y=x" ++ String LF "x=1|red") = Ok d
        /\ field_value (fields d) "width" = Some 10
        /\ field_value (fields d) "height" = Some 20
        /\ field_value (fields d) "left" = Some (-10)
        /\ Forall2 (fun line e => process_equation line = Ok e)
             ["y=x"; "x=1|red"] (equations d))
  /\ parse "Width=10---y=x" = Err (UnrecognizedField "Width")
  /\ parse "a---b---c" = Err TooManySegments.
Proof.
  split; [|split; [|split]].
  - destruct (source_segments ("y=x" ++ String LF "x=1|red")) as (_ & H & _).
    destruct (H ("y=x" ++ String LF "x=1|red") eq_refl) as (_ & _ & Hok & _).
    apply (Hok [[("equation", "y=x")]; [("equation", "x=1"); ("color", "RED")]]).
    reflexivity.
  - destruct (source_segments ("width=10;height=20---y=x" ++ String LF "x=1|red"))
      as (_ & _ & H & _).
    destruct (H "width=10;height=20" ("y=x" ++ String LF "x=1|red") eq_refl)
      as (_ & _ & Hd & Hok).
    destruct (Hok (<["height" := 20]> (<["width" := 10]> ∅))
                [[("equation", "y=x")]; [("equation", "x=1"); ("color", "RED")]]
                eq_refl eq_refl eq_refl) as (d & E & _ & _).
    exists d. split; [exact E|]. destruct (Hd d E) as [Hf Hl].
    split; [exact (Hf "width" eq_refl)|]. split; [exact (Hf "height" eq_refl)|].
    split; [exact (Hf "left" eq_refl)|]. exact Hl.
  - destruct (source_segments "Width=10---y=x") as (_ & _ & H & _).
    destruct (H "Width=10" "y=x" eq_refl) as (_ & He & _).
    apply He. reflexivity.
  - destruct (source_segments "a---b---c") as (_ & _ & _ & H & _).
    apply H. right. vm_compute. lia.
Defined.

(** *** The value of a field *)



(** *** A bar at the end of the source *)

Lemma prefix_append_char sep c :
  Js.includes c sep = false ->
  forall s, String.prefix sep (s ++ String c EmptyString) = String.prefix sep s.
Proof.
  induction sep as [|a sep IH]; intros Hc s; [now rewrite !prefix_nil|].
  cbn [Js.includes] in Hc. apply orb_false_iff in Hc as [Hca Hc].
  destruct s as [|d s].
  - rewrite append_nil_l, prefix_cons.
    rewrite Ascii.eqb_sym in Hca. rewrite Hca. reflexivity.
  - rewrite append_cons, !prefix_cons. destruct (Ascii.eqb a d); [|reflexivity].
    now apply IH.
Qed.

Lemma prefix_length sep s :
  String.prefix sep s = true -> (String.length sep <= String.length s)%nat.
Proof.
  intros H. destruct (prefix_split _ _ H) as [rest ->]. rewrite length_append. lia.
Qed.

Lemma append_last_cons x y l suffix :
  append_last suffix (x :: y :: l) = x :: append_last suffix (y :: l).
Proof. reflexivity. Qed.

Lemma append_last_cons_head d l suffix :
  l <> [] -> append_last suffix (Js.cons_head d l) = Js.cons_head d (append_last suffix l).
Proof.
  destruct l as [|h [|y l]]; [contradiction| |]; intros _; cbn; [|reflexivity].
  now rewrite append_cons.
Qed.

Lemma split_from_append_char sep c :
  sep <> EmptyString ->
  Js.includes c sep = false ->
  forall s k,
    (k <= String.length s)%nat ->
    Js.split_from sep (s ++ String c EmptyString) k
    = append_last (String c EmptyString) (Js.split_from sep s k).
Proof.
  intros Hsep Hc. induction s as [|d s IH]; intros k Hk.
  - assert (k = O) by (cbn in Hk; lia). subst k.
    rewrite append_nil_l. cbn [Js.split_from].
    assert (Hp : String.prefix sep (String c EmptyString) = false).
    { destruct sep as [|a sep]; [contradiction|]. rewrite prefix_cons.
      cbn [Js.includes] in Hc. apply orb_false_iff in Hc as [Hca _].
      rewrite Ascii.eqb_sym in Hca. now rewrite Hca. }
    rewrite Hp. reflexivity.
  - rewrite append_cons. cbn [Js.split_from]. destruct k as [|k].
    + rewrite <- append_cons, (prefix_append_char sep c Hc (String d s)).
      destruct (String.prefix sep (String d s)) eqn:Hp.
      * apply prefix_length in Hp. cbn [String.length] in Hp.
        rewrite IH by lia.
        pose proof (split_from_nonempty sep s (Nat.pred (String.length sep))) as Hne.
        destruct (Js.split_from sep s (Nat.pred (String.length sep)));
          [contradiction|reflexivity].
      * rewrite IH by lia. symmetry. apply append_last_cons_head.
        apply split_from_nonempty.
    + apply IH. cbn [String.length] in Hk. lia.
Qed.

Lemma split_append_char sep c s :
  sep <> EmptyString ->
  Js.includes c sep = false ->
  Js.split sep (s ++ String c EmptyString)
  = append_last (String c EmptyString) (Js.split sep s).
Proof. intros Hsep Hc. apply split_from_append_char; [assumption|assumption|lia]. Qed.

Lemma process_equation_bar a :
  process_equation (a ++ "|")
  = (o ← process_equation a; Ok (add_restriction EmptyString o)).
Proof. rewrite process_equation_app. destruct (process_equation a); reflexivity. Qed.

(** The equations of the lines, once a bar is put after the last line. *)
Lemma mapM_lines_bar l :
  l <> [] ->
  forall es,
    mapM process_equation (Js.filter_Boolean l) = Ok es ->
    exists kept o,
      mapM process_equation (Js.filter_Boolean (append_last "|" l))
      = Ok (kept ++ [add_restriction EmptyString o])%list
      /\ (es = (kept ++ [o])%list
          \/ (es = kept /\ o = [("equation", EmptyString)])).
Proof.
  induction l as [|x l IH]; [contradiction|]. intros _ es Hm.
  destruct l as [|y l].
  - cbn [append_last Js.filter_Boolean List.filter] in *.
    assert (Ht : Js.truthy (x ++ "|") = true) by (destruct x; reflexivity).
    rewrite Ht. cbn [mapM]. rewrite process_equation_bar.
    destruct x as [|c x].
    + cbn in Hm. injection Hm as <-. exists [], [("equation", EmptyString)].
      split; [reflexivity|]. right. split; reflexivity.
    + cbn [Js.truthy mapM] in Hm.
      destruct (process_equation (String c x)) as [o|]; [|discriminate].
      cbn in Hm. injection Hm as <-. exists [], o. split; [reflexivity|]. now left.
  - rewrite append_last_cons.
    assert (Hne : y :: l <> []) by discriminate.
    remember (y :: l) as rest eqn:Hrest. clear Hrest.
    change (Js.filter_Boolean (x :: append_last "|" rest))
      with (if Js.truthy x then x :: Js.filter_Boolean (append_last "|" rest)
            else Js.filter_Boolean (append_last "|" rest)).
    change (Js.filter_Boolean (x :: rest))
      with (if Js.truthy x then x :: Js.filter_Boolean rest
            else Js.filter_Boolean rest) in Hm.
    destruct (Js.truthy x).
    + cbn [mapM] in Hm |- *.
      destruct (process_equation x) as [e|]; [|discriminate Hm].
      cbn [mbind Result_bind] in Hm |- *.
      destruct (mapM process_equation (Js.filter_Boolean rest)) as [es'|] eqn:E;
        [|discriminate Hm].
      cbn [mbind Result_bind] in Hm. injection Hm as <-.
      destruct (IH Hne es' eq_refl) as (kept & o & Hk & Hes).
      rewrite Hk. exists (e :: kept), o.
      split; [reflexivity|]. destruct Hes as [->|[-> ->]]; [now left|right; now split].
    + destruct (IH Hne es Hm) as (kept & o & Hk & Hes).
      exists kept, o. split; [exact Hk|exact Hes].
Qed.

Lemma lines_bar body :
  lines (body ++ "|")
  = Js.filter_Boolean (append_last "|" (Js.split (String LF EmptyString) body)).
Proof.
  unfold lines. now rewrite split_append_char by (discriminate || reflexivity).
Qed.

(** C9: an empty segment is a restriction fragment, and [parse] does not
    reject it.  In an accepted document the equation of a line that ends
    in a bar is the equation of the line before the bar with the two
    braces put after its restriction, and the equation of a line with two
    adjacent bars is that of the text before them, then the two braces,
    then the segments after them.  A source that is accepted stays
    accepted when a bar is put at its end: the fields are the same and the
    last equation (that of an empty expression, when the source ended with
    its last line) gets the two braces. *)
Theorem empty_segment_is_a_restriction source d :
  parse source = Ok d ->
  classify EmptyString = RestrictionFragment "{}"
  /\ (exists body,
        (Js.split "---" source = [body]
         \/ exists block, Js.split "---" source = [block; body])
        /\ Forall2
             (fun line e =>
                (forall a,
                    line = a ++ "|" ->
                    exists o,
                      process_equation a = Ok o
                      /\ e = add_restriction EmptyString o
                      /\ restriction_of e
                         = Some (default EmptyString (restriction_of o) ++ "{}"))
                /\ (forall a b,
                      line = a ++ "||" ++ b ->
                      exists o,
                        process_equation a = Ok o
                        /\ reduceM process_segment (Js.split "|" b)
                             (add_restriction EmptyString o) = Ok e))
             (Js.filter_Boolean (Js.split (String LF EmptyString) body))
             (equations d))
  /\ (exists d' kept o,
        parse (source ++ "|") = Ok d'
        /\ fields d' = fields d
        /\ equations d' = (kept ++ [add_restriction EmptyString o])%list
        /\ restriction_of (add_restriction EmptyString o)
           = Some (default EmptyString (restriction_of o) ++ "{}")
        /\ (equations d = (kept ++ [o])%list
            \/ (equations d = kept /\ o = [("equation", EmptyString)]))).
Proof.
  intros H. split; [reflexivity|].
  destruct (parse_ok_inv _ _ H) as (body & settings & Hsrc & Hm & Hf & Hsane).
  split.
  - exists body. split.
    + destruct Hsrc as [[Hs _]|(block & Hs & _)]; [left|right; exists block]; exact Hs.
    + apply mapM_Forall2 in Hm. unfold lines in Hm.
      eapply Forall2_impl; [exact Hm|]. cbn beta. intros line e He. split.
      * intros a ->. rewrite process_equation_bar in He.
        destruct (process_equation a) as [o|]; [|discriminate].
        injection He as <-. exists o. split; [reflexivity|]. split; [reflexivity|].
        destruct (add_restriction_spec EmptyString o) as (R & _). exact R.
      * intros a b ->.
        change (a ++ "||" ++ b) with (a ++ String "|" (String "|" b)) in He.
        rewrite process_equation_app in He.
        destruct (process_equation a) as [o|]; [|discriminate].
        exists o. split; [reflexivity|].
        change (String "|" b) with (EmptyString ++ String "|" b) in He.
        rewrite split_char_app in He. exact He.
  - destruct (mapM_lines_bar (Js.split (String LF EmptyString) body)
                (split_nonempty _ _) (equations d) Hm) as (kept & o & Hk & Hes).
    rewrite <- lines_bar in Hk. rewrite Hf in Hsane.
    exists {| equations := (kept ++ [add_restriction EmptyString o])%list;
              fields := assign_fields FIELD_DEFAULTS settings;
              hash := fingerprint (kept ++ [add_restriction EmptyString o])%list
                        (assign_fields FIELD_DEFAULTS settings) |}, kept, o.
    split; [|split; [now rewrite Hf|split; [reflexivity|split; [|exact Hes]]]].
    + destruct Hsrc as [[Hs ->]|(block & Hs & Hp)].
      * rewrite (parse_one_segment (source ++ "|") (body ++ "|")).
        -- now apply build_ok.
        -- rewrite split_append_char by (discriminate || reflexivity). now rewrite Hs.
      * rewrite (parse_two_segments (source ++ "|") block (body ++ "|")).
        -- rewrite Hp. cbn [mbind Result_bind]. now apply build_ok.
        -- rewrite split_append_char by (discriminate || reflexivity). now rewrite Hs.
    + destruct (add_restriction_spec EmptyString o) as (R & _). exact R.
Qed.

Lemma empty_segment_is_a_restriction_witness :
  exists d d',
    parse ("y=x||RED|x>0" ++ String LF "x=1|") = Ok d
    /\ equations d
       = [ [("equation", "y=x"); ("restriction", "{}{x>0}"); ("color", "RED")];
           [("equation", "x=1"); ("restriction", "{}")] ]
    /\ parse (("y=x||RED|x>0" ++ String LF "x=1|") ++ "|") = Ok d'
    /\ fields d' = fields d
    /\ equations d'
       = [ [("equation", "y=x"); ("restriction", "{}{x>0}"); ("color", "RED")];
           [("equation", "x=1"); ("restriction", "{}{}")] ].
Proof.
  assert (E : exists d,
             parse ("y=x||RED|x>0" ++ String LF "x=1|") = Ok d
             /\ equations d
                = [ [("equation", "y=x"); ("restriction", "{}{x>0}"); ("color", "RED")];
                    [("equation", "x=1"); ("restriction", "{}")] ])
    by (eexists; split; [vm_compute; reflexivity|reflexivity]).
  destruct E as (d & E & Q).
  assert (E' : exists d',
             parse (("y=x||RED|x>0" ++ String LF "x=1|") ++ "|") = Ok d'
             /\ equations d'
                = [ [("equation", "y=x"); ("restriction", "{}{x>0}"); ("color", "RED")];
                    [("equation", "x=1"); ("restriction", "{}{}")] ])
    by (eexists; split; [vm_compute; reflexivity|reflexivity]).
  destruct E' as (d' & E' & Q').
  destruct (empty_segment_is_a_restriction _ d E)
    as (_ & _ & d'' & kept & o & E'' & F'' & _).
  rewrite E' in E''. injection E'' as <-.
  exists d, d'. repeat (split; [assumption|]). exact Q'.
Defined.

End SourceFacts.

(** ** The plotting commands *)

Module ExpressionFacts.

Import Dsl DslSpec DslInvariant DslFacts SegmentFacts SplitFacts LineFacts ParseFacts.
Import JsReplace Expressions.

Lemma includes_slice_from c n :
  forall s, Js.includes c s = false -> Js.includes c (slice_from n s) = false.
Proof.
  induction n as [|n IH]; intros s H; [exact H|].
  destruct s as [|d s]; [reflexivity|]. cbn [slice_from]. apply IH.
  cbn [Js.includes] in H. now apply orb_false_iff in H.
Qed.

(** Replacing puts no character into a text that neither the text nor the
    replacement held. *)
Lemma includes_replace c p r s :
  Js.includes c s = false -> Js.includes c r = false ->
  Js.includes c (replace p r s) = false.
Proof.
  intros Hs Hr. induction s as [|d s IH]; [reflexivity|].
  cbn [replace]. destruct (String.prefix p (String d s)).
  - rewrite DocumentFacts.includes_append, Hr. now apply includes_slice_from.
  - cbn [Js.includes] in *. apply orb_false_iff in Hs as [-> Hs]. now apply IH.
Qed.

Lemma includes_replaceAll_from c p r s :
  Js.includes c r = false ->
  forall k, Js.includes c s = false ->
            Js.includes c (replaceAll_from p r s k) = false.
Proof.
  intros Hr. induction s as [|d s IH]; intros k Hs; [reflexivity|].
  cbn [Js.includes] in Hs. apply orb_false_iff in Hs as [Hd Hs].
  cbn [replaceAll_from]. destruct k as [|k]; [|now apply IH].
  destruct (String.prefix p (String d s)).
  - rewrite DocumentFacts.includes_append, Hr. now apply IH.
  - cbn [Js.includes]. rewrite Hd. now apply IH.
Qed.

Lemma includes_replaceAll c p r s :
  Js.includes c s = false -> Js.includes c r = false ->
  Js.includes c (replaceAll p r s) = false.
Proof. intros Hs Hr. now apply includes_replaceAll_from. Qed.

(** Replacing every occurrence of a character leaves none, unless the
    replacement brings it back. *)
Lemma replaceAll_char_removes c r s :
  Js.includes c r = false ->
  Js.includes c (replaceAll (String c EmptyString) r s) = false.
Proof.
  intros Hr. unfold replaceAll. induction s as [|d s IH]; [reflexivity|].
  cbn [replaceAll_from]. rewrite prefix_cons, prefix_nil.
  cbn [String.length Nat.pred]. destruct (Ascii.eqb c d) eqn:E.
  - now rewrite DocumentFacts.includes_append, Hr.
  - cbn [Js.includes]. now rewrite E.
Qed.

Lemma count_app c a b : count c (a ++ b) = (count c a + count c b)%nat.
Proof.
  induction a as [|d a IH]; [reflexivity|].
  rewrite append_cons. cbn [count]. rewrite IH. lia.
Qed.

Lemma count_absent c s : Js.includes c s = false -> count c s = O.
Proof.
  induction s as [|d s IH]; [reflexivity|]. cbn [Js.includes count].
  intros H. apply orb_false_iff in H as [-> H]. now rewrite IH.
Qed.

Lemma no_banned_quote s : no_banned s -> Js.includes DQUOTE s = false.
Proof. intros H. now inversion H. Qed.

Lemma parsed_equation_safe source d e :
  parse source = Ok d -> In e (equations d) -> safe_equation e.
Proof.
  intros H Hin. destruct (DocumentFacts.parse_ok_inv _ _ H) as (body & _ & _ & Hm & _).
  assert (Hall : Forall safe_equation (equations d)).
  { eapply DocumentFacts.mapM_Forall; [exact Hm|].
    intros x y. apply DocumentFacts.process_equation_safe. }
  rewrite List.Forall_forall in Hall. now apply Hall.
Qed.

Lemma latex_has_no_quote e : safe_equation e -> Js.includes DQUOTE (latex e) = false.
Proof.
  intros ((expr & He & Hexpr) & Hr & _). unfold latex. rewrite He. cbn [default].
  rewrite DocumentFacts.includes_append. apply orb_false_iff. split.
  - apply includes_replace; [now apply no_banned_quote|reflexivity].
  - unfold restriction_latex.
    repeat (apply includes_replaceAll; [|reflexivity]).
    destruct (restriction_of e) as [r|]; [|reflexivity].
    cbv [default from_option id]. apply no_banned_quote. now apply Hr.
Qed.

Lemma alnum_not_quote c : is_alnum c = true -> Ascii.eqb DQUOTE c = false.
Proof.
  destruct (Ascii.eqb_spec DQUOTE c) as [<-|]; [discriminate|reflexivity].
Qed.

Lemma all_alnum_no_quote s : all_alnum s = true -> Js.includes DQUOTE s = false.
Proof.
  induction s as [|c s IH]; [reflexivity|]. cbn [all_alnum Js.includes].
  intros H. apply andb_true_iff in H as [Hc Hs].
  now rewrite (alnum_not_quote _ Hc), IH.
Qed.

Lemma hex_color_no_quote c : isHexColor c = true -> Js.includes DQUOTE c = false.
Proof.
  destruct c as [|a rest]; [discriminate|]. unfold isHexColor.
  destruct (Ascii.eqb_spec a "#") as [->|Hne].
  - unfold alnum_test. intros H. apply andb_true_iff in H as [_ H].
    cbn [Js.includes]. now rewrite all_alnum_no_quote.
  - intros H. exfalso. revert H Hne.
    destruct a as [[] [] [] [] [] [] [] []]; try discriminate. congruence.
Qed.

Lemma style_line_cases e :
  safe_equation e ->
  match style_of e with
  | Some s =>
      In s EquationStyle
      /\ style_line e
         = (if Js.array_includes line_styles s
            then "lineStyle: Desmos.Styles." else "pointStyle: Desmos.Styles.")
           ++ s ++ ","
  | None => style_line e = EmptyString
  end.
Proof.
  intros (_ & _ & Hs & _). unfold style_line.
  destruct (style_of e) as [s|]; [|reflexivity].
  specialize (Hs s eq_refl). split; [exact Hs|].
  cbn in Hs. destruct Hs as [<-|[<-|[<-|[<-|[<-|[<-|[]]]]]]]; reflexivity.
Qed.

(** X6: every style the parser lets through is plotted: a line style as
    [lineStyle], a point style as [pointStyle], and the style line is never
    left empty for an equation that has a style. *)
Theorem parsed_style_is_plotted source d e s :
  parse source = Ok d -> In e (equations d) -> style_of e = Some s ->
  (In s line_styles /\ style_line e = "lineStyle: Desmos.Styles." ++ s ++ ",")
  \/ (In s point_styles /\ style_line e = "pointStyle: Desmos.Styles." ++ s ++ ",").
Proof.
  intros H Hin Hs. pose proof (parsed_equation_safe _ _ _ H Hin) as Hsafe.
  pose proof (style_line_cases e Hsafe) as Hc. rewrite Hs in Hc.
  destruct Hc as [Hst ->]. cbn in Hst.
  destruct Hst as [<-|[<-|[<-|[<-|[<-|[<-|[]]]]]]]; cbn;
    solve [left; split; [tauto|reflexivity] | right; split; [tauto|reflexivity]].
Qed.

Lemma parsed_style_is_plotted_witness :
  (In "DASHED"%string line_styles
   /\ style_line [("equation", "y=x"); ("style", "DASHED")]
      = "lineStyle: Desmos.Styles." ++ "DASHED" ++ ",")
  \/ (In "DASHED"%string point_styles
      /\ style_line [("equation", "y=x"); ("style", "DASHED")]
         = "pointStyle: Desmos.Styles." ++ "DASHED" ++ ",").
Proof.
  assert (E : exists d, parse "y=x|dashed" = Ok d
                       /\ equations d = [[("equation", "y=x"); ("style", "DASHED")]])
    by (eexists; split; [vm_compute; reflexivity|reflexivity]).
  destruct E as (d & E & Heq).
  apply (parsed_style_is_plotted "y=x|dashed" d _ "DASHED" E); [|reflexivity].
  rewrite Heq. left. reflexivity.
Defined.

Lemma count_quote_style_line e : safe_equation e -> count DQUOTE (style_line e) = O.
Proof.
  intros H. pose proof (style_line_cases e H) as Hc.
  destruct (style_of e) as [s|]; [|now rewrite Hc].
  destruct Hc as [Hs ->]. cbn in Hs.
  destruct Hs as [<-|[<-|[<-|[<-|[<-|[<-|[]]]]]]]; reflexivity.
Qed.

Lemma count_quote_color_line e :
  safe_equation e ->
  count DQUOTE (color_line e)
  = match color_of e with
    | Some c => if isHexColor c then 2%nat else 0%nat
    | None => 0%nat
    end.
Proof.
  intros (_ & _ & _ & Hc). unfold color_line.
  destruct (color_of e) as [c|]; [|reflexivity].
  specialize (Hc c eq_refl). destruct (isHexColor c) eqn:Eh.
  - assert (Ht : Js.truthy c = true) by (destruct c; [discriminate|reflexivity]).
    rewrite Ht, !count_app. cbn [count].
    rewrite (count_absent _ _ (hex_color_no_quote _ Eh)). reflexivity.
  - destruct Hc as [Hc|Hc]; [|congruence]. cbn in Hc.
    destruct Hc as [<-|[<-|[<-|[<-|[<-|[<-|[]]]]]]]; reflexivity.
Qed.

Lemma count_quote_expression e :
  safe_equation e ->
  count DQUOTE (expression e)
  = (2 + match color_of e with
         | Some c => if isHexColor c then 2 else 0
         | None => 0
         end)%nat.
Proof.
  intros H. unfold expression, indent20, indent16.
  repeat (rewrite ?count_app; cbn [count]).
  rewrite (count_absent _ _ (latex_has_no_quote e H)).
  rewrite (count_quote_style_line e H), (count_quote_color_line e H).
  cbn. lia.
Qed.

(** X5: the plotting command of an equation of an accepted document holds
    exactly the two double quotes that delimit its [latex] text, and two
    more around a hex color: nothing the user wrote closes a string of the
    generated script with a quote. *)
Theorem parsed_expression_quotes source d e :
  parse source = Ok d -> In e (equations d) ->
  count DQUOTE (expression e)
  = (2 + match color_of e with
         | Some c => if isHexColor c then 2 else 0
         | None => 0
         end)%nat.
Proof.
  intros H Hin. apply count_quote_expression.
  exact (parsed_equation_safe _ _ _ H Hin).
Qed.

Lemma parsed_expression_quotes_witness :
  count DQUOTE (expression [("equation", "y=x"); ("color", "#ff0000")]) = 4%nat.
Proof.
  assert (E : exists d, parse "y=x|#ff0000" = Ok d
                       /\ equations d = [[("equation", "y=x"); ("color", "#ff0000")]])
    by (eexists; split; [vm_compute; reflexivity|reflexivity]).
  destruct E as (d & E & Heq).
  assert (Hin : In [("equation", "y=x"); ("color", "#ff0000")] (equations d))
    by (rewrite Heq; left; reflexivity).
  exact (parsed_expression_quotes "y=x|#ff0000" d _ E Hin).
Defined.

(** X7: [replace] with a text pattern rewrites the first backslash only: what
    follows it is copied as it is, further backslashes included, and a text
    without a backslash is unchanged. *)
Theorem only_first_backslash_is_doubled a b :
  Js.includes "\" a = false ->
  replace BACKSLASH "\\" (a ++ BACKSLASH ++ b) = a ++ "\\" ++ b
  /\ replace BACKSLASH "\\" a = a.
Proof.
  intros H. induction a as [|c a IH].
  - split; [|reflexivity]. rewrite !append_nil_l. unfold BACKSLASH.
    rewrite append_cons, append_nil_l. cbn [replace].
    rewrite prefix_cons, prefix_nil, Ascii.eqb_refl. reflexivity.
  - cbn [Js.includes] in H. apply orb_false_iff in H as [Hc Ha].
    destruct (IH Ha) as [IH1 IH2]. rewrite !append_cons. unfold BACKSLASH in *.
    cbn [replace]. rewrite !prefix_cons, Hc.
    now rewrite IH1, IH2.
Qed.

Lemma only_first_backslash_is_doubled_witness :
  replace BACKSLASH "\\" ("y=" ++ BACKSLASH ++ "frac{1}{x}\")
  = "y=" ++ "\\" ++ "frac{1}{x}\"
  /\ replace BACKSLASH "\\" "y=" = "y=".
Proof. apply (only_first_backslash_is_doubled "y=" "frac{1}{x}\"). reflexivity. Defined.

(** X8: whatever the restriction, its [latex] form holds no [<] and no [>]:
    every comparison sign has been turned into a LaTeX command. *)
Theorem restriction_latex_has_no_comparison_sign restriction :
  Js.includes "<" (restriction_latex restriction) = false
  /\ Js.includes ">" (restriction_latex restriction) = false.
Proof.
  unfold restriction_latex. split.
  - apply includes_replaceAll; [|reflexivity].
    apply (replaceAll_char_removes "<"). reflexivity.
  - apply (replaceAll_char_removes ">"). reflexivity.
Qed.

End ExpressionFacts.

(** ** Requests, signals and the caches *)

Module CacheFacts.

Import Renderer Signals RendererFacts.

Ltac handler_cases :=
  unfold handler, populate, Js.truthy_object;
  repeat match goal with
         | |- context [if ?b then _ else _] => destruct b
         end;
  try reflexivity.

Lemma handler_settings h m w : settings (handler h m w) = settings w.
Proof. handler_cases. Qed.

Lemma handler_files h m w : files (handler h m w) = files w.
Proof. handler_cases. Qed.

Lemma deliver_settings m l : forall w, settings (deliver m l w) = settings w.
Proof.
  induction l as [|h l IH]; intros w; [reflexivity|].
  cbn. unfold deliver in IH. now rewrite IH, handler_settings.
Qed.

Lemma deliver_files m l : forall w, files (deliver m l w) = files w.
Proof.
  induction l as [|h l IH]; intros w; [reflexivity|].
  cbn. unfold deliver in IH. now rewrite IH, handler_files.
Qed.

Lemma deliver_no_match m l w :
  Forall (fun h => matches h m = false) l -> deliver m l w = w.
Proof.
  intros H. revert w. induction H as [|h l Hh _ IH]; intros w; [reflexivity|].
  cbn. rewrite handler_no_match by exact Hh. apply IH.
Qed.

Lemma deliver_snoc m l h w :
  deliver m (l ++ [h]) w = handler h m (deliver m l w).
Proof. unfold deliver. now rewrite fold_left_app. Qed.

(** What the handler does on a matching success signal. *)
Lemma handler_success h m w :
  matches h m = true -> msg_d m = "render" ->
  handler h m w
  = populate h (msg_data m)
      (set_resolved ({[h_request h]} ∪ resolved w)
         (appendChild (h_el h) (Img (msg_data m))
            (removeEventListener h (empty (h_el h) w)))).
Proof. intros Hm Hd. unfold handler. rewrite Hm, Hd. reflexivity. Qed.

Lemma populate_dom h data w : dom (populate h data w) = dom w.
Proof.
  unfold populate, Js.truthy_object.
  repeat match goal with
         | |- context [if ?b then _ else _] => destruct b
         end; reflexivity.
Qed.

Lemma populate_resolved h data w : resolved (populate h data w) = resolved w.
Proof.
  unfold populate, Js.truthy_object.
  repeat match goal with
         | |- context [if ?b then _ else _] => destruct b
         end; reflexivity.
Qed.

Lemma children_handler_success h m w :
  matches h m = true -> msg_d m = "render" ->
  children (h_el h) (handler h m w) = [Img (msg_data m)].
Proof.
  intros Hm Hd. rewrite handler_success by assumption.
  unfold children. rewrite populate_dom. cbn.
  rewrite lookup_insert_eq. cbn. unfold children. cbn.
  now rewrite lookup_insert_eq.
Qed.

Lemma children_handler_other h m w el :
  h_el h <> el -> children el (handler h m w) = children el w.
Proof.
  intros Hne. unfold children.
  assert (H : dom (handler h m w) !! el = dom w !! el); [|now rewrite H].
  unfold handler. destruct (matches h m); [|reflexivity].
  destruct (String.eqb (msg_d m) "render").
  - rewrite populate_dom. cbn.
    destruct (String.eqb (msg_d m) "error"); cbn;
      now rewrite !lookup_insert_ne by exact Hne.
  - destruct (String.eqb (msg_d m) "error"); cbn;
      now rewrite !lookup_insert_ne by exact Hne.
Qed.

Lemma matches_screenshot h data : matches h (screenshot (h_hash h) data) = true.
Proof. unfold matches. cbn. now rewrite String.eqb_refl. Qed.

Lemma matches_other_hash h m : h_hash h <> msg_hash m -> matches h m = false.
Proof.
  intros H. unfold matches. apply andb_false_iff. right.
  apply String.eqb_neq. congruence.
Qed.

(** X9: a message from another origin, with another type tag, or for a
    fingerprint that no registered handler waits for, changes nothing: no
    element, no cache, no listener. *)
Theorem unrelated_message_is_ignored m w :
  origin m <> "app://obsidian.md"
  \/ msg_t m <> "desmos-graph"
  \/ Forall (fun h => h_hash h <> msg_hash m) (listeners w) ->
  dispatch m w = w.
Proof.
  intros H. apply (deliver_no_match m (listeners w) w).
  apply List.Forall_forall. intros h Hin. unfold matches.
  destruct H as [H|[H|H]].
  - apply String.eqb_neq in H. now rewrite H.
  - apply String.eqb_neq in H. rewrite H. apply andb_false_iff. left.
    apply andb_false_r.
  - rewrite List.Forall_forall in H. apply matches_other_hash. now apply H.
Qed.

Lemma unrelated_message_is_ignored_witness :
  dispatch
    {| origin := "https://example.org"; msg_t := "desmos-graph"; msg_d := "render";
       msg_data := Sample.picture; msg_hash := Dsl.hash Sample.spec_yx |}
    (render Sample.posix "/vault" Sample.spec_yx 0 (Sample.cold DEFAULT_SETTINGS_STATIC))
  = render Sample.posix "/vault" Sample.spec_yx 0 (Sample.cold DEFAULT_SETTINGS_STATIC).
Proof.
  apply (unrelated_message_is_ignored
           {| origin := "https://example.org"; msg_t := "desmos-graph";
              msg_d := "render"; msg_data := Sample.picture;
              msg_hash := Dsl.hash Sample.spec_yx |}).
  left. discriminate.
Defined.

(** *** The memory cache *)

Lemma render_memory_miss P root args el w :
  location (cache (settings w)) = Memory ->
  graph_cache w !! Dsl.hash args = None ->
  render P root args el w = submit P root args el w.
Proof.
  intros Hl Hc. apply render_miss.
  - unfold memory_hit. rewrite Hc. apply andb_false_r.
  - unfold filesystem_hit. now rewrite Hl.
Qed.

(** X10: with the memory cache, a graph that was rendered once is served from
    the cache afterwards: after the screenshot of a request that missed
    has arrived, the next request for the same graph appends that picture
    to its element, registers no listener and starts no file operation. *)
Theorem memory_cache_round_trip P root args el el' data w :
  location (cache (settings w)) = Memory ->
  graph_cache w !! Dsl.hash args = None ->
  let w1 := render P root args el w in
  let w2 := dispatch (screenshot (Dsl.hash args) data) w1 in
  let w3 := render P root args el' w2 in
  graph_cache w2 !! Dsl.hash args = Some data
  /\ children el' w3 = (children el' w2 ++ [Img data])%list
  /\ listeners w3 = listeners w2
  /\ pending w3 = pending w2.
Proof.
  intros Hl Hc w1 w2 w3.
  assert (Hg : graph_cache w2 !! Dsl.hash args = Some data).
  { subst w2 w1. rewrite render_memory_miss by assumption.
    unfold dispatch. unfold submit at 1.
    cbn [listeners addEventListener set_listeners].
    change (List.fold_left _ ?l ?w) with (deliver (screenshot (Dsl.hash args) data) l w).
    cbn [listeners appendChild set_dom set_next_request].
    rewrite deliver_snoc.
    match goal with |- context [handler ?h ?m ?W] => set (h0 := h); set (W0 := W) end.
    assert (Hs : location (cache (settings W0)) = Memory).
    { subst W0. now rewrite deliver_settings. }
    rewrite handler_success by (try reflexivity; apply (matches_screenshot h0)).
    unfold populate, Js.truthy_object.
    cbn [settings set_resolved appendChild set_dom removeEventListener set_listeners
         Renderer.empty].
    rewrite Hs. cbn. apply lookup_insert_eq. }
  split; [exact Hg|].
  assert (Hl2 : location (cache (settings w2)) = Memory).
  { subst w2. unfold dispatch.
    change (List.fold_left _ ?l ?w) with (deliver (screenshot (Dsl.hash args) data) l w).
    rewrite deliver_settings. subst w1. rewrite render_memory_miss by assumption.
    exact Hl. }
  subst w3. unfold render, Js.truthy_object, memory_hit.
  rewrite Hl2, Hg. cbn. repeat split.
  unfold children. cbn. now rewrite lookup_insert_eq.
Qed.

Lemma memory_cache_round_trip_witness :
  let w2 :=
    dispatch (screenshot (Dsl.hash Sample.spec_yx) Sample.picture)
      (render Sample.posix "/vault" Sample.spec_yx 0
         (Sample.cold DEFAULT_SETTINGS_STATIC)) in
  let w3 := render Sample.posix "/vault" Sample.spec_yx 1 w2 in
  graph_cache w2 !! Dsl.hash Sample.spec_yx = Some Sample.picture
  /\ children 1 w3 = (children 1 w2 ++ [Img Sample.picture])%list
  /\ listeners w3 = listeners w2
  /\ pending w3 = pending w2.
Proof.
  apply (memory_cache_round_trip Sample.posix "/vault" Sample.spec_yx 0 1
           Sample.picture (Sample.cold DEFAULT_SETTINGS_STATIC));
    reflexivity.
Defined.

(** *** The filesystem cache *)

Lemma strip_prefix_app p s : strip_prefix p (p ++ s) = Some s.
Proof.
  induction p as [|c p IH]; [now destruct s|].
  rewrite SegmentFacts.append_cons. cbn [strip_prefix].
  now rewrite Ascii.eqb_refl.
Qed.

Lemma strip_png_prefix_app b64 : strip_png_prefix (png_prefix ++ b64) = b64.
Proof. unfold strip_png_prefix. now rewrite strip_prefix_app. Qed.

Lemma render_filesystem_miss P root args el w :
  location (cache (settings w)) = Filesystem ->
  files w !! cache_target P root (settings w) (Dsl.hash args) = None ->
  render P root args el w = submit P root args el w.
Proof.
  intros Hl Hf. apply render_miss.
  - unfold memory_hit. now rewrite Hl.
  - unfold filesystem_hit, existsSync. rewrite Hf. apply andb_false_intro2.
    apply bool_decide_eq_false. intros [x Hx]. discriminate.
Qed.

Lemma render_settings P root args el w : settings (render P root args el w) = settings w.
Proof.
  unfold render, Js.truthy_object.
  destruct (memory_hit args w); [destruct (graph_cache w !! Dsl.hash args); reflexivity|].
  destruct (filesystem_hit P root args w); reflexivity.
Qed.

Lemma dispatch_settings m w : settings (dispatch m w) = settings w.
Proof. apply (deliver_settings m (listeners w) w). Qed.

Lemma dispatch_files m w : files (dispatch m w) = files w.
Proof. apply (deliver_files m (listeners w) w). Qed.

(** The only handler that takes the screenshot of a new request is its
    own, when no earlier request waits for the same fingerprint. *)
Lemma dispatch_submit P root args el data w :
  Forall (fun h => h_hash h <> Dsl.hash args) (listeners w) ->
  exists h,
    h_hash h = Dsl.hash args
    /\ h_el h = el
    /\ h_cache_dir h = cache_dir P root (settings w)
    /\ h_cache_target h = cache_target P root (settings w) (Dsl.hash args)
    /\ dispatch (screenshot (Dsl.hash args) data) (submit P root args el w)
       = handler h (screenshot (Dsl.hash args) data) (submit P root args el w).
Proof.
  intros Hother.
  exists {| h_request := next_request w;
            h_hash := Dsl.hash args;
            h_el := el;
            h_cache_dir := cache_dir P root (settings w);
            h_cache_target := cache_target P root (settings w) (Dsl.hash args) |}.
  repeat (split; [reflexivity|]).
  unfold dispatch. unfold submit at 1.
  cbn [listeners addEventListener set_listeners].
  change (List.fold_left _ ?l ?w) with (deliver (screenshot (Dsl.hash args) data) l w).
  cbn [listeners appendChild set_dom set_next_request].
  rewrite deliver_snoc, deliver_no_match; [reflexivity|].
  eapply Forall_impl; [exact Hother|]. intros h Hh. now apply matches_other_hash.
Qed.

Lemma populate_filesystem h data w :
  location (cache (settings w)) = Filesystem ->
  populate h data w
  = if existsSync (h_cache_dir h) w
    then set_pending
           (pending w ++ [WriteFile (h_cache_target h) (strip_png_prefix data)])%list w
    else Notice ("desmos-graph: cache directory not found: '" ++ h_cache_dir h ++ "'") w.
Proof. intros Hl. unfold populate, Js.truthy_object. now rewrite Hl. Qed.

(** The world after the screenshot of a request that missed the
    filesystem cache: the handler's work up to the cache write, then the
    write or the notice. *)
Lemma screenshot_after_filesystem_miss P root args el data w :
  location (cache (settings w)) = Filesystem ->
  files w !! cache_target P root (settings w) (Dsl.hash args) = None ->
  Forall (fun h => h_hash h <> Dsl.hash args) (listeners w) ->
  exists W,
    dispatch (screenshot (Dsl.hash args) data) (render P root args el w)
    = (if existsSync (cache_dir P root (settings w)) w
       then set_pending
              (pending W
               ++ [WriteFile (cache_target P root (settings w) (Dsl.hash args))
                     (strip_png_prefix data)])%list W
       else Notice ("desmos-graph: cache directory not found: '"
                    ++ cache_dir P root (settings w) ++ "'") W)
    /\ children el W = [Img data]
    /\ graph_cache W = graph_cache w
    /\ files W = files w
    /\ pending W = pending w
    /\ notices W = notices w.
Proof.
  intros Hl Hf Hother.
  rewrite render_filesystem_miss by assumption.
  destruct (dispatch_submit P root args el data w Hother)
    as (h & Hh & Hel & Hdir & Htarget & ->).
  assert (Hm : matches h (screenshot (Dsl.hash args) data) = true)
    by (rewrite <- Hh; apply matches_screenshot).
  rewrite handler_success by (try reflexivity; exact Hm).
  rewrite populate_filesystem by exact Hl. rewrite Hdir, Htarget.
  eexists. split; [reflexivity|]. split; [|repeat split].
  rewrite <- Hel. unfold children. cbn. rewrite lookup_insert_eq. cbn.
  unfold children. cbn. now rewrite lookup_insert_eq.
Qed.

(** X11: with the filesystem cache, the screenshot of a request that missed is
    shown and, when the cache directory exists, one write of the picture
    without its data-URL prefix is started for the cache file of the graph;
    when the directory is missing nothing is written and a notice names
    the directory.  The memory cache is not touched. *)
Theorem filesystem_cache_write P root args el data w :
  location (cache (settings w)) = Filesystem ->
  files w !! cache_target P root (settings w) (Dsl.hash args) = None ->
  Forall (fun h => h_hash h <> Dsl.hash args) (listeners w) ->
  let dir := cache_dir P root (settings w) in
  let target := cache_target P root (settings w) (Dsl.hash args) in
  let w2 := dispatch (screenshot (Dsl.hash args) data) (render P root args el w) in
  children el w2 = [Img data]
  /\ graph_cache w2 = graph_cache w
  /\ files w2 = files w
  /\ (if existsSync dir w
      then pending w2 = (pending w ++ [WriteFile target (strip_png_prefix data)])%list
           /\ notices w2 = notices w
      else pending w2 = pending w
           /\ notices w2
              = (notices w
                 ++ [("desmos-graph: cache directory not found: '" ++ dir ++ "'")%string])%list).
Proof.
  intros Hl Hf Hother dir target w2.
  destruct (screenshot_after_filesystem_miss P root args el data w Hl Hf Hother)
    as (W & E & Hc & Hg & Hfi & Hp & Hn).
  subst w2. rewrite E. fold dir target.
  destruct (existsSync dir w).
  - split; [exact Hc|]. split; [exact Hg|]. split; [exact Hfi|].
    cbn [pending set_pending notices]. now rewrite Hp, Hn.
  - split; [exact Hc|]. split; [exact Hg|]. split; [exact Hfi|].
    cbn [pending Notice set_notices notices]. now rewrite Hp, Hn.
Qed.

Lemma filesystem_cache_write_witness :
  let w := Sample.world Sample.settings_off_fs ∅ {[ "/tmp" := Directory ]} in
  let w2 :=
    dispatch (screenshot (Dsl.hash Sample.spec_yx) Sample.picture)
      (render Sample.posix "/vault" Sample.spec_yx 0 w) in
  children 0 w2 = [Img Sample.picture]
  /\ graph_cache w2 = graph_cache w
  /\ files w2 = files w
  /\ pending w2
     = [WriteFile
          (cache_target Sample.posix "/vault" Sample.settings_off_fs
             (Dsl.hash Sample.spec_yx))
          "iVBORw0KGgo="]
  /\ notices w2 = [].
Proof.
  exact (filesystem_cache_write Sample.posix "/vault" Sample.spec_yx 0 Sample.picture
           (Sample.world Sample.settings_off_fs ∅ {[ "/tmp" := Directory ]})
           eq_refl eq_refl (List.Forall_nil _)).
Defined.

(** X12: a picture written to the filesystem cache comes back: for a
    screenshot that is the data URL of some bytes in canonical base64,
    once the write started by the screenshot has completed, the next
    request for the same graph registers no listener, reads the cache
    file, and shows the picture the calculator page had sent. *)
Theorem filesystem_cache_round_trip P root args el el' bytes w :
  location (cache (settings w)) = Filesystem ->
  files w !! cache_target P root (settings w) (Dsl.hash args) = None ->
  Forall (fun h => h_hash h <> Dsl.hash args) (listeners w) ->
  existsSync (cache_dir P root (settings w)) w = true ->
  let b64 := Base64.encode bytes in
  let target := cache_target P root (settings w) (Dsl.hash args) in
  let w2 := dispatch (screenshot (Dsl.hash args) (png_prefix ++ b64))
              (render P root args el w) in
  let w3 := complete (WriteFile target b64) None w2 in
  let w4 := render P root args el' w3 in
  let w5 := complete (ReadFileThenShow target el') None w4 in
  In (WriteFile target b64) (pending w2)
  /\ listeners w4 = listeners w3
  /\ pending w4 = (pending w3 ++ [ReadFileThenShow target el'])%list
  /\ children el' w4 = children el' w3
  /\ children el' w5 = (children el' w3 ++ [Img (png_prefix ++ b64)])%list.
Proof.
  intros Hl Hf Hother Hdir b64 target w2 w3 w4 w5.
  destruct (screenshot_after_filesystem_miss P root args el (png_prefix ++ b64) w Hl Hf Hother)
    as (W & E & _ & _ & _ & HpW & _).
  rewrite Hdir, strip_png_prefix_app in E. fold target w2 in E.
  assert (Hp : pending w2 = (pending w ++ [WriteFile target b64])%list)
    by (rewrite E; cbn [pending set_pending]; now rewrite HpW).
  split; [rewrite Hp; apply in_app_iff; right; now left|].
  assert (Hs3 : settings w3 = settings w).
  { subst w3 w2. unfold complete. cbn [settings set_files].
    now rewrite dispatch_settings, render_settings. }
  assert (Hf3 : files w3 !! target = Some (File b64)).
  { subst w3. unfold complete. cbn [files set_files]. apply lookup_insert_eq. }
  assert (Hhit : memory_hit args w3 = false /\ filesystem_hit P root args w3 = true).
  { unfold memory_hit, filesystem_hit, existsSync. rewrite Hs3, Hl. fold target.
    rewrite Hf3. split; reflexivity. }
  destruct Hhit as [Hmem Hfs].
  assert (E4 : w4 = set_pending (pending w3 ++ [ReadFileThenShow target el'])%list
                      (set_next_request (S (next_request w3)) w3)).
  { subst w4. unfold render, Js.truthy_object. rewrite Hmem, Hfs, Hs3. reflexivity. }
  rewrite E4. repeat split.
  subst w5. rewrite E4. unfold complete.
  cbn [files set_pending set_next_request]. rewrite Hf3. unfold children. cbn.
  now rewrite lookup_insert_eq.
Qed.

Lemma filesystem_cache_round_trip_witness :
  let magic :=
    String (ascii_of_N 137)
      ("PNG" ++ String (ascii_of_N 13)
                  (String (ascii_of_N 10) (String (ascii_of_N 26) (String Dsl.LF EmptyString)))) in
  let w := Sample.world Sample.settings_off_fs ∅ {[ "/tmp" := Directory ]} in
  let target :=
    cache_target Sample.posix "/vault" Sample.settings_off_fs (Dsl.hash Sample.spec_yx) in
  let w2 := dispatch (screenshot (Dsl.hash Sample.spec_yx) Sample.picture)
              (render Sample.posix "/vault" Sample.spec_yx 0 w) in
  let w3 := complete (WriteFile target "iVBORw0KGgo=") None w2 in
  let w4 := render Sample.posix "/vault" Sample.spec_yx 1 w3 in
  let w5 := complete (ReadFileThenShow target 1) None w4 in
  Base64.encode magic = "iVBORw0KGgo="
  /\ In (WriteFile target "iVBORw0KGgo=") (pending w2)
  /\ listeners w4 = listeners w3
  /\ pending w4 = (pending w3 ++ [ReadFileThenShow target 1])%list
  /\ children 1 w4 = children 1 w3
  /\ children 1 w5 = (children 1 w3 ++ [Img Sample.picture])%list.
Proof.
  split; [reflexivity|].
  exact (filesystem_cache_round_trip Sample.posix "/vault" Sample.spec_yx 0 1
           (String (ascii_of_N 137)
              ("PNG" ++ String (ascii_of_N 13)
                          (String (ascii_of_N 10)
                             (String (ascii_of_N 26) (String Dsl.LF EmptyString)))))
           (Sample.world Sample.settings_off_fs ∅ {[ "/tmp" := Directory ]})
           eq_refl eq_refl (List.Forall_nil _) eq_refl).
Defined.

(** *** Settings changed while a request waits *)

Lemma dispatch_last m l h W :
  listeners W = (l ++ [h])%list ->
  Forall (fun h' => matches h' m = false) l ->
  dispatch m W = handler h m W.
Proof.
  intros Hl Hno. unfold dispatch. rewrite Hl.
  change (List.fold_left _ ?l ?w) with (deliver m l w).
  now rewrite deliver_snoc, deliver_no_match.
Qed.

(** X23: the handler writes to the cache file that was computed when the
    request was made, and looks for the directory of that time, while the
    cache location is the one in force when the screenshot arrives: when
    the settings are changed in between, to any settings with the
    filesystem location, the picture is written under the directory the
    request saw, not under the new one, and the memory cache is left
    alone. *)
Theorem cache_write_goes_where_the_request_pointed P root args el data s' w :
  memory_hit args w = false ->
  filesystem_hit P root args w = false ->
  Forall (fun h => h_hash h <> Dsl.hash args) (listeners w) ->
  location (cache s') = Filesystem ->
  let dir := cache_dir P root (settings w) in
  let target := cache_target P root (settings w) (Dsl.hash args) in
  let w2 := dispatch (screenshot (Dsl.hash args) data)
              (set_settings s' (render P root args el w)) in
  graph_cache w2 = graph_cache w
  /\ (if existsSync dir w
      then pending w2 = (pending w ++ [WriteFile target (strip_png_prefix data)])%list
           /\ notices w2 = notices w
      else pending w2 = pending w
           /\ notices w2
              = (notices w
                 ++ [("desmos-graph: cache directory not found: '" ++ dir ++ "'")%string])%list).
Proof.
  intros Hmem Hfs Hother Hl' dir target w2. subst w2.
  rewrite render_miss by assumption.
  set (h := {| h_request := next_request w;
               h_hash := Dsl.hash args;
               h_el := el;
               h_cache_dir := dir;
               h_cache_target := target |}).
  rewrite (dispatch_last _ (listeners w) h); [|reflexivity|].
  - rewrite handler_success by (try reflexivity; apply (matches_screenshot h)).
    rewrite populate_filesystem by exact Hl'.
    cbn [h_cache_dir h_cache_target h].
    change (existsSync dir (set_resolved _ _)) with (existsSync dir w).
    destruct (existsSync dir w); repeat split.
  - eapply Forall_impl; [exact Hother|]. intros h' Hh'. now apply matches_other_hash.
Qed.

Lemma cache_write_goes_where_the_request_pointed_witness :
  let moved :=
    {| debounce := 500;
       cache := {| enabled := true; location := Filesystem;
                   directory := Some "/elsewhere" |} |} in
  let w := Sample.world DEFAULT_SETTINGS_STATIC ∅ {[ "/tmp" := Directory ]} in
  let w2 := dispatch (screenshot (Dsl.hash Sample.spec_yx) Sample.picture)
              (set_settings moved (render Sample.posix "/vault" Sample.spec_yx 0 w)) in
  graph_cache w2 = graph_cache w
  /\ pending w2
     = [WriteFile
          (cache_target Sample.posix "/vault" DEFAULT_SETTINGS_STATIC
             (Dsl.hash Sample.spec_yx))
          "iVBORw0KGgo="]
  /\ notices w2 = [].
Proof.
  exact (cache_write_goes_where_the_request_pointed Sample.posix "/vault"
           Sample.spec_yx 0 Sample.picture
           {| debounce := 500;
              cache := {| enabled := true; location := Filesystem;
                          directory := Some "/elsewhere" |} |}
           (Sample.world DEFAULT_SETTINGS_STATIC ∅ {[ "/tmp" := Directory ]})
           eq_refl eq_refl (List.Forall_nil _) eq_refl).
Defined.

(** *** Several requests for one graph *)

Lemma filter_requests_apart l n :
  (forall h, In h l -> h_request h <> n) ->
  List.filter (fun h' => negb (Nat.eqb (h_request h') n)) l = l.
Proof.
  induction l as [|h l IH]; intros H; [reflexivity|]. cbn.
  destruct (Nat.eqb_spec (h_request h) n) as [E|_].
  - exfalso. apply (H h); [now left|exact E].
  - cbn. rewrite IH; [reflexivity|]. intros h' Hin. apply H. now right.
Qed.

Lemma filter_own_request pre h l :
  List.NoDup (List.map h_request (pre ++ h :: l)) ->
  List.filter (fun h' => negb (Nat.eqb (h_request h') (h_request h))) (pre ++ h :: l)
  = (pre ++ l)%list.
Proof.
  intros Hnd. rewrite List.map_app in Hnd. cbn [List.map] in Hnd.
  pose proof (List.NoDup_remove_2 _ _ _ Hnd) as Hnotin.
  rewrite List.filter_app. cbn [List.filter]. rewrite Nat.eqb_refl. cbn [negb].
  rewrite !filter_requests_apart; [reflexivity| |].
  - intros h' Hin E. apply Hnotin. apply List.in_or_app. right.
    rewrite <- E. now apply List.in_map.
  - intros h' Hin E. apply Hnotin. apply List.in_or_app. left.
    rewrite <- E. now apply List.in_map.
Qed.

Lemma handler_success_resolved h m w :
  matches h m = true -> msg_d m = "render" ->
  resolved (handler h m w) = {[h_request h]} ∪ resolved w.
Proof.
  intros Hm Hd. rewrite handler_success by assumption. now rewrite populate_resolved.
Qed.

Lemma deliver_success m :
  msg_d m = "render" ->
  forall l pre w,
    listeners w = (pre ++ l)%list ->
    List.NoDup (List.map h_request (pre ++ l)) ->
    listeners (deliver m l w)
    = (pre ++ List.filter (fun h => negb (matches h m)) l)%list
    /\ resolved (deliver m l w)
       = resolved w
         ∪ list_to_set (List.map h_request (List.filter (fun h => matches h m) l)).
Proof.
  intros Hd. induction l as [|h l IH]; intros pre w Hw Hnd.
  - cbn. rewrite Hw. split; [reflexivity|]. now rewrite (right_id_L ∅ (∪)).
  - cbn [deliver List.fold_left List.filter].
    change (List.fold_left _ l ?W) with (deliver m l W).
    destruct (matches h m) eqn:Hm; cbn [negb].
    + destruct (IH pre (handler h m w)) as [IH1 IH2].
      * rewrite handler_render_listeners by assumption.
        rewrite Hw. now apply filter_own_request.
      * rewrite List.map_app in *. cbn [List.map] in Hnd.
        now apply List.NoDup_remove_1 in Hnd.
      * split; [exact IH1|]. rewrite IH2, handler_success_resolved by assumption.
        cbn [List.map list_to_set].
        rewrite (comm_L (∪) {[h_request h]} (resolved w)).
        now rewrite <- (assoc_L (∪)).
    + rewrite handler_no_match by exact Hm.
      destruct (IH (pre ++ [h])%list w) as [IH1 IH2].
      * now rewrite <- List.app_assoc.
      * now rewrite <- List.app_assoc.
      * rewrite <- List.app_assoc in IH1. split; [exact IH1|exact IH2].
Qed.

Lemma deliver_children m el :
  msg_d m = "render" ->
  forall l w,
    (exists h, In h l /\ matches h m = true /\ h_el h = el) ->
    children el (deliver m l w) = [Img (msg_data m)].
Proof.
  intros Hd l. induction l as [|x l IH] using List.rev_ind; intros w (h & Hin & Hm & Hel).
  - destruct Hin.
  - rewrite deliver_snoc.
    destruct (Nat.eq_dec (h_el x) el) as [Ex|Ex].
    + destruct (matches x m) eqn:Hx.
      * rewrite <- Ex. now apply children_handler_success.
      * rewrite handler_no_match by exact Hx. apply IH.
        apply List.in_app_or in Hin as [Hin|[->|[]]]; [eauto|congruence].
    + rewrite children_handler_other by exact Ex. apply IH.
      apply List.in_app_or in Hin as [Hin|[->|[]]]; [eauto|congruence].
Qed.

(** X13: one screenshot answers every request that waits for its fingerprint:
    all their listeners are taken off and all their promises resolved,
    each of their elements shows the picture alone, and the listeners of
    requests for other graphs stay registered. *)
Theorem screenshot_answers_every_request_for_the_graph m w :
  msg_d m = "render" ->
  List.NoDup (List.map h_request (listeners w)) ->
  listeners (dispatch m w) = List.filter (fun h => negb (matches h m)) (listeners w)
  /\ resolved (dispatch m w)
     = resolved w
       ∪ list_to_set (List.map h_request (List.filter (fun h => matches h m) (listeners w)))
  /\ (forall h, In h (listeners w) -> matches h m = true ->
        children (h_el h) (dispatch m w) = [Img (msg_data m)]).
Proof.
  intros Hd Hnd.
  destruct (deliver_success m Hd (listeners w) [] w eq_refl Hnd) as [H1 H2].
  split; [exact H1|]. split; [exact H2|].
  intros h Hin Hm. apply (deliver_children m (h_el h) Hd (listeners w) w). eauto.
Qed.

Lemma screenshot_answers_every_request_for_the_graph_witness :
  let w :=
    render Sample.posix "/vault" Sample.spec_yx 1
      (render Sample.posix "/vault" Sample.spec_yx 0
         (Sample.world Sample.settings_off_fs ∅ ∅)) in
  listeners (dispatch Sample.render_message w) = []
  /\ resolved (dispatch Sample.render_message w) = {[0%nat; 1%nat]}
  /\ children 0 (dispatch Sample.render_message w) = [Img Sample.picture]
  /\ children 1 (dispatch Sample.render_message w) = [Img Sample.picture].
Proof.
  intros w.
  assert (Hnd : List.NoDup (List.map h_request (listeners w))).
  { vm_compute. repeat constructor; cbn; intuition discriminate. }
  destruct (screenshot_answers_every_request_for_the_graph
              Sample.render_message w eq_refl Hnd) as (H1 & H2 & H3).
  split; [exact H1|]. split; [rewrite H2; vm_compute; reflexivity|].
  split; [apply (H3 (List.nth 0 (listeners w) (mkHandler 0 EmptyString 0 EmptyString EmptyString)))
         |apply (H3 (List.nth 1 (listeners w) (mkHandler 0 EmptyString 0 EmptyString EmptyString)))];
    vm_compute; auto.
Defined.

(** *** The error signal *)

Lemma matches_analysis_error h data : matches h (analysis_error (h_hash h) data) = true.
Proof. unfold matches. cbn. now rewrite String.eqb_refl. Qed.

Lemma deliver_error m :
  msg_d m = "error" ->
  forall l w,
    listeners (deliver m l w) = listeners w
    /\ resolved (deliver m l w) = resolved w
    /\ graph_cache (deliver m l w) = graph_cache w
    /\ files (deliver m l w) = files w
    /\ pending (deliver m l w) = pending w.
Proof.
  intros Hd. induction l as [|h l IH]; intros w; [repeat split|].
  cbn [deliver List.fold_left]. change (List.fold_left _ l ?W) with (deliver m l W).
  destruct (IH (handler h m w)) as (I1 & I2 & I3 & I4 & I5).
  destruct (RendererFacts.handler_error_cache h m w Hd) as (G1 & G2 & G3 & G4 & G5).
  rewrite I1, I2, I3, I4, I5. auto.
Qed.

Lemma submit_listeners P root args el w :
  listeners (submit P root args el w)
  = (listeners w
     ++ [{| h_request := next_request w;
            h_hash := Dsl.hash args;
            h_el := el;
            h_cache_dir := cache_dir P root (settings w);
            h_cache_target := cache_target P root (settings w) (Dsl.hash args) |}])%list.
Proof. reflexivity. Qed.

(** C3: a request that misses the cache registers one listener, and a
    matching error signal does not take it off, where a matching
    screenshot does: after the error signal the listeners are those from
    before the signal, the listener of the request among them, while the
    element holds the error box alone: the calculator page of the request
    has been removed from the element with the rest of its content. *)
Theorem error_signal_leaves_listener_registered P root args el data w :
  memory_hit args w = false ->
  filesystem_hit P root args w = false ->
  let w1 := render P root args el w in
  let w2 := dispatch (analysis_error (Dsl.hash args) data) w1 in
  exists h,
    listeners w1 = (listeners w ++ [h])%list
    /\ h_request h = next_request w
    /\ h_hash h = Dsl.hash args
    /\ matches h (analysis_error (Dsl.hash args) data) = true
    /\ listeners w2 = listeners w1
    /\ In h (listeners w2)
    /\ children el w2 = [ErrorBox data]
    /\ renderer_invoked el w2 = false
    /\ (forall picture,
          ~ In h (listeners (dispatch (screenshot (Dsl.hash args) picture) w1))).
Proof.
  intros Hmem Hfs w1 w2. subst w2 w1. rewrite render_miss by assumption.
  set (h := {| h_request := next_request w;
               h_hash := Dsl.hash args;
               h_el := el;
               h_cache_dir := cache_dir P root (settings w);
               h_cache_target := cache_target P root (settings w) (Dsl.hash args) |}).
  set (w1 := submit P root args el w).
  assert (Hl : listeners w1 = (listeners w ++ [h])%list) by reflexivity.
  assert (Hm : matches h (analysis_error (Dsl.hash args) data) = true)
    by apply (matches_analysis_error h).
  destruct (deliver_error (analysis_error (Dsl.hash args) data) eq_refl (listeners w1) w1)
    as (L & _).
  assert (Hc : children el (dispatch (analysis_error (Dsl.hash args) data) w1)
               = [ErrorBox data]).
  { unfold dispatch. rewrite Hl.
    change (List.fold_left _ ?l ?W)
      with (deliver (analysis_error (Dsl.hash args) data) l W).
    rewrite deliver_snoc, RendererFacts.handler_error by (exact Hm || reflexivity).
    apply RendererFacts.children_renderError. }
  exists h. split; [exact Hl|]. split; [reflexivity|]. split; [reflexivity|].
  split; [exact Hm|]. split; [exact L|].
  split; [unfold dispatch; fold (deliver (analysis_error (Dsl.hash args) data)
                                   (listeners w1) w1);
          rewrite L, Hl; apply in_app_iff; right; now left|].
  split; [exact Hc|]. split; [unfold renderer_invoked; now rewrite Hc|].
  intros picture Hin. unfold dispatch in Hin. rewrite Hl in Hin.
  change (List.fold_left _ ?l ?W)
    with (deliver (screenshot (Dsl.hash args) picture) l W) in Hin.
  rewrite deliver_snoc in Hin.
  rewrite RendererFacts.handler_render_listeners in Hin
    by (apply (matches_screenshot h) || reflexivity).
  apply filter_In in Hin as [_ Hin]. rewrite Nat.eqb_refl in Hin. discriminate Hin.
Qed.

Lemma error_signal_leaves_listener_registered_witness :
  let w1 := render Sample.posix "/vault" Sample.spec_yx 0
              (Sample.cold DEFAULT_SETTINGS_STATIC) in
  let w2 := dispatch (analysis_error (Dsl.hash Sample.spec_yx) "Too many variables") w1 in
  exists h,
    listeners w1 = (listeners (Sample.cold DEFAULT_SETTINGS_STATIC) ++ [h])%list
    /\ h_request h = next_request (Sample.cold DEFAULT_SETTINGS_STATIC)
    /\ h_hash h = Dsl.hash Sample.spec_yx
    /\ matches h (analysis_error (Dsl.hash Sample.spec_yx) "Too many variables") = true
    /\ listeners w2 = listeners w1
    /\ In h (listeners w2)
    /\ children 0 w2 = [ErrorBox "Too many variables"]
    /\ renderer_invoked 0 w2 = false
    /\ (forall picture,
          ~ In h (listeners
                    (dispatch (screenshot (Dsl.hash Sample.spec_yx) picture) w1))).
Proof.
  apply (error_signal_leaves_listener_registered Sample.posix "/vault" Sample.spec_yx 0
           "Too many variables" (Sample.cold DEFAULT_SETTINGS_STATIC));
    reflexivity.
Defined.

(** C4: a matching error signal shows the error with the message of the
    renderer and writes nothing to the cache, but it does not resolve the
    promise of the request, and it does not bar the cache write for the
    fingerprint: the listener stays, and a screenshot of the same request
    that arrives afterwards replaces the error by the picture, resolves
    the promise and writes the picture to the cache. *)
Theorem error_signal_settles_nothing P root args el err data w :
  location (cache (settings w)) = Memory ->
  graph_cache w !! Dsl.hash args = None ->
  let w1 := render P root args el w in
  let w2 := dispatch (analysis_error (Dsl.hash args) err) w1 in
  let w3 := dispatch (screenshot (Dsl.hash args) data) w2 in
  children el w2 = [ErrorBox err]
  /\ resolved w2 = resolved w
  /\ graph_cache w2 = graph_cache w
  /\ pending w2 = pending w
  /\ children el w3 = [Img data]
  /\ next_request w ∈ resolved w3
  /\ graph_cache w3 !! Dsl.hash args = Some data.
Proof.
  intros Hloc Hc w1 w2 w3. subst w3 w2 w1. rewrite render_memory_miss by assumption.
  set (h := {| h_request := next_request w;
               h_hash := Dsl.hash args;
               h_el := el;
               h_cache_dir := cache_dir P root (settings w);
               h_cache_target := cache_target P root (settings w) (Dsl.hash args) |}).
  set (w1 := submit P root args el w).
  assert (Hl : listeners w1 = (listeners w ++ [h])%list) by reflexivity.
  set (bad := analysis_error (Dsl.hash args) err).
  set (good := screenshot (Dsl.hash args) data).
  destruct (deliver_error bad eq_refl (listeners w1) w1) as (L & R & G & _ & Pn).
  change (deliver bad (listeners w1) w1) with (dispatch bad w1) in L, R, G, Pn.
  split.
  { unfold dispatch. rewrite Hl.
    change (List.fold_left _ ?l ?W) with (deliver bad l W).
    rewrite deliver_snoc, RendererFacts.handler_error
      by (apply (matches_analysis_error h) || reflexivity).
    apply RendererFacts.children_renderError. }
  split; [exact R|]. split; [exact G|]. split; [exact Pn|].
  set (w2 := dispatch bad w1) in *.
  assert (E3 : dispatch good w2 = handler h good (deliver good (listeners w) w2)).
  { unfold dispatch at 1. rewrite L, Hl.
    change (List.fold_left _ ?l ?W) with (deliver good l W).
    apply deliver_snoc. }
  assert (Hm : matches h good = true) by apply (matches_screenshot h).
  rewrite E3. split; [now apply (children_handler_success h good)|].
  split.
  - rewrite handler_success_resolved by (exact Hm || reflexivity).
    apply elem_of_union_l. now apply elem_of_singleton.
  - rewrite handler_success by (exact Hm || reflexivity).
    unfold populate, Js.truthy_object.
    cbn [settings set_resolved appendChild set_dom removeEventListener set_listeners
         Renderer.empty].
    rewrite deliver_settings. unfold w2. rewrite dispatch_settings.
    change (settings w1) with (settings w). rewrite Hloc. cbn. apply lookup_insert_eq.
Qed.

Lemma error_signal_settles_nothing_witness :
  let w := Sample.cold DEFAULT_SETTINGS_STATIC in
  let w1 := render Sample.posix "/vault" Sample.spec_yx 0 w in
  let w2 := dispatch (analysis_error (Dsl.hash Sample.spec_yx) "Too many variables") w1 in
  let w3 := dispatch (screenshot (Dsl.hash Sample.spec_yx) Sample.picture) w2 in
  children 0 w2 = [ErrorBox "Too many variables"]
  /\ resolved w2 = resolved w
  /\ graph_cache w2 = graph_cache w
  /\ pending w2 = pending w
  /\ children 0 w3 = [Img Sample.picture]
  /\ next_request w ∈ resolved w3
  /\ graph_cache w3 !! Dsl.hash Sample.spec_yx = Some Sample.picture.
Proof.
  apply (error_signal_settles_nothing Sample.posix "/vault" Sample.spec_yx 0
           "Too many variables" Sample.picture (Sample.cold DEFAULT_SETTINGS_STATIC));
    reflexivity.
Defined.

End CacheFacts.

(** ** The plugin and its settings *)

Module PluginFacts.

Import Renderer Plugin.

(** *** The debounce field of the settings tab *)

(** X14: whatever is typed into the debounce field, the stored debounce time is
    never negative, and the cache settings are left alone: a text that is
    no number, or a negative one, stores the default of 500. *)
Theorem stored_debounce_is_never_negative value s :
  0 <= debounce (debounce_onChange value s)
  /\ cache (debounce_onChange value s) = cache s
  /\ (debounce (debounce_onChange value s) = 500
      \/ Js.parseInt value = Some (debounce (debounce_onChange value s))).
Proof.
  unfold debounce_onChange. cbn [debounce cache].
  destruct (Js.parseInt value) as [val|]; [|cbn; intuition lia].
  destruct (Z.ltb_spec val 0); cbn; intuition lia.
Qed.

(** X15: the settings tab shows the debounce time with [toString]; for a
    debounce time that is a safe integer and not negative, typing back
    what it shows stores the same time. *)
Theorem displayed_debounce_is_read_back s :
  0 <= debounce s ->
  Js.isSafeInteger (debounce s) = true ->
  debounce_onChange (Js.number_toString (debounce s)) s = s.
Proof.
  intros H _. unfold debounce_onChange. rewrite NumberFacts.parseInt_number_toString.
  destruct (Z.ltb_spec (debounce s) 0); [lia|]. now destruct s.
Qed.

Lemma displayed_debounce_is_read_back_witness :
  Js.number_toString 500 = "500"
  /\ debounce_onChange "500" DEFAULT_SETTINGS_STATIC = DEFAULT_SETTINGS_STATIC
  /\ Js.number_toString Js.MAX_SAFE_INTEGER = "9007199254740991"
  /\ debounce_onChange "9007199254740991"
       {| debounce := Js.MAX_SAFE_INTEGER; cache := cache DEFAULT_SETTINGS_STATIC |}
     = {| debounce := Js.MAX_SAFE_INTEGER; cache := cache DEFAULT_SETTINGS_STATIC |}.
Proof.
  split; [reflexivity|]. split.
  - apply (displayed_debounce_is_read_back DEFAULT_SETTINGS_STATIC); [cbn; lia|reflexivity].
  - split; [reflexivity|].
    apply (displayed_debounce_is_read_back
             {| debounce := Js.MAX_SAFE_INTEGER; cache := cache DEFAULT_SETTINGS_STATIC |});
      [vm_compute; discriminate|reflexivity].
Defined.

(** *** The code block processor *)

Lemma render_source_settings P root source el w :
  settings (render_source P root source el w) = settings w.
Proof.
  unfold render_source. destruct (Dsl.parse source); [|reflexivity].
  apply CacheFacts.render_settings.
Qed.

(** X16: after a layout change the next code block is rendered at once,
    whatever the debounce time, and only that one: with a debounce time
    of at least 1 the block after it is handed to the debounced renderer
    and the call itself renders nothing. *)
Theorem layout_change_skips_one_debounce P root source el source' el' p :
  1 <= debounce (settings (world p)) ->
  let first := code_block_processor P root source el (layout_change p) in
  let second := code_block_processor P root source' el' (snd first) in
  fst first = Immediate
  /\ world (snd first) = render_source P root source el (world p)
  /\ fst second = Debounced source' el'
  /\ snd second = snd first.
Proof.
  intros Hd first second.
  assert (E1 : first
               = (Immediate,
                  {| skip_debounce := false;
                     world := render_source P root source el (world p) |}))
    by reflexivity.
  subst second. rewrite E1. cbn [fst snd world].
  split; [reflexivity|]. split; [reflexivity|].
  unfold code_block_processor. cbn [skip_debounce world orb].
  rewrite render_source_settings.
  destruct (Z.eqb_spec (debounce (settings (world p))) 0) as [E|_]; [lia|].
  destruct (Z.ltb_spec (debounce (settings (world p))) 1) as [E|_]; [lia|].
  split; reflexivity.
Qed.

Lemma layout_change_skips_one_debounce_witness :
  let p := {| skip_debounce := false;
              world := Sample.cold DEFAULT_SETTINGS_STATIC |} in
  let first := code_block_processor Sample.posix "/vault" "y=x" 0 (layout_change p) in
  let second := code_block_processor Sample.posix "/vault" "y=2x" 1 (snd first) in
  fst first = Immediate
  /\ world (snd first) = render_source Sample.posix "/vault" "y=x" 0 (world p)
  /\ fst second = Debounced "y=2x" 1
  /\ snd second = snd first.
Proof.
  apply (layout_change_skips_one_debounce Sample.posix "/vault" "y=x" 0 "y=2x" 1
           {| skip_debounce := false; world := Sample.cold DEFAULT_SETTINGS_STATIC |}).
  cbn. lia.
Defined.

(** X17: a source the parser rejects never reaches the renderer: the element
    shows the error box with the parser's message alone, and no request,
    listener, cache entry or file operation is made.  An accepted source
    is rendered, which adds at most one child to the element and never
    an error box. *)
Theorem rejected_source_shows_only_the_error P root source el w :
  match Dsl.parse source with
  | Dsl.Err err =>
      children el (render_source P root source el w)
      = [ErrorBox (Dsl.error_message err)]
      /\ listeners (render_source P root source el w) = listeners w
      /\ graph_cache (render_source P root source el w) = graph_cache w
      /\ pending (render_source P root source el w) = pending w
      /\ next_request (render_source P root source el w) = next_request w
  | Dsl.Ok args =>
      render_source P root source el w = render P root args el w
      /\ (children el (render_source P root source el w) = children el w
          \/ exists n,
               children el (render_source P root source el w)
               = (children el w ++ [n])%list
               /\ forall err, n <> ErrorBox err)
  end.
Proof.
  unfold render_source. destruct (Dsl.parse source) as [args|err].
  - split; [reflexivity|]. unfold render, Js.truthy_object.
    destruct (memory_hit args w).
    + destruct (graph_cache w !! Dsl.hash args) as [data|]; [|now left].
      right. exists (Img data). split; [|discriminate].
      unfold children at 1. cbn. now rewrite lookup_insert_eq.
    + destruct (filesystem_hit P root args w); [now left|].
      right. exists (Iframe args). split; [|discriminate].
      unfold children at 1. cbn. now rewrite lookup_insert_eq.
  - split; [apply RendererFacts.children_renderError|]. repeat split.
Qed.

End PluginFacts.

(** ** The earlier parser and renderer *)

Module LegacyFacts.

Import LegacyDsl.

Lemma strict_equals_NaN s : strict_equals s None = false.
Proof. now destruct s. Qed.

Lemma setting_step_insert settings setting :
  setting_step settings setting
  = <[fst setting := parse_value (snd setting)]> settings.
Proof. unfold setting_step. now rewrite strict_equals_NaN. Qed.

Lemma fold_settings_lookup entries :
  forall s0 key,
    List.fold_left setting_step entries s0 !! key
    = match last_pair key entries with
      | Some v => Some (parse_value v)
      | None => s0 !! key
      end.
Proof.
  induction entries as [|[k v] entries IH]; intros s0 key; [reflexivity|].
  cbn [List.fold_left last_pair]. rewrite IH, setting_step_insert. cbn [fst snd].
  destruct (last_pair key entries); [reflexivity|].
  destruct (String.eqb_spec k key) as [->|Hne].
  - now rewrite lookup_insert_eq.
  - now rewrite lookup_insert_ne.
Qed.

Lemma parse_settings_lookup block key :
  parse_settings block !! key
  = match last_pair key (setting_pairs block) with
    | Some v => Some (parse_value v)
    | None => None
    end.
Proof.
  unfold parse_settings. rewrite fold_settings_lookup.
  destruct (last_pair key (setting_pairs block)); [reflexivity|apply lookup_empty].
Qed.

Lemma is_undefined_lookup block key :
  is_undefined (parse_settings block !! key) = negb (given key (setting_pairs block)).
Proof.
  rewrite parse_settings_lookup. unfold given.
  now destruct (last_pair key (setting_pairs block)).
Qed.

Lemma legacy_parse_two_segments source block body :
  Js.split "---" source = [block; body] ->
  parse source
  = let settings := parse_settings block in
    if incomplete (settings !! "boundry_left") (settings !! "boundry_right")
    then inl IncompleteLeftRight
    else if incomplete (settings !! "boundry_bottom") (settings !! "boundry_top")
    then inl IncompleteBottomTop
    else inr (new_Dsl (Dsl.lines body)
                (settings !! "width") (settings !! "height")
                (settings !! "boundry_left") (settings !! "boundry_right")
                (settings !! "boundry_bottom") (settings !! "boundry_top")).
Proof. intros Hs. unfold parse. rewrite Hs. reflexivity. Qed.

(** X18: the earlier parser stores for a setting what [parseInt] gives for
    its last entry, NaN included: the test [s === NaN] never holds, so a
    value that is no number is not replaced by the default (only a setting
    without any entry gets it). *)
Theorem legacy_setting_is_stored_as_read source block body d :
  Js.split "---" source = [block; body] ->
  parse source = inr d ->
  let read key default :=
    match last_pair key (setting_pairs block) with
    | Some value => parse_value value
    | None => Some default
    end in
  width d = read "width" 600
  /\ height d = read "height" 400
  /\ boundry_left d = read "boundry_left" (-10)
  /\ boundry_right d = read "boundry_right" 10
  /\ boundry_bottom d = read "boundry_bottom" (-7)
  /\ boundry_top d = read "boundry_top" 7
  /\ equations d = Dsl.lines body.
Proof.
  intros Hs H read. rewrite (legacy_parse_two_segments _ _ _ Hs) in H. cbv zeta in H.
  destruct (incomplete _ _); [discriminate|].
  destruct (incomplete _ _); [discriminate|].
  injection H as <-. unfold new_Dsl, read. cbn.
  rewrite !parse_settings_lookup.
  repeat split;
    match goal with
    | |- context [last_pair ?k ?e] => destruct (last_pair k e); reflexivity
    end.
Qed.

Lemma legacy_setting_is_stored_as_read_witness :
  exists d,
    parse "width=wide; height=300; height=200---y=x" = inr d
    /\ width d = None
    /\ height d = Some 200
    /\ boundry_left d = Some (-10)
    /\ boundry_right d = Some 10
    /\ boundry_bottom d = Some (-7)
    /\ boundry_top d = Some 7
    /\ equations d = ["y=x"].
Proof.
  assert (E : exists d, parse "width=wide; height=300; height=200---y=x" = inr d)
    by (eexists; vm_compute; reflexivity).
  destruct E as [d E]. exists d. split; [exact E|].
  exact (legacy_setting_is_stored_as_read
           "width=wide; height=300; height=200---y=x"
           "width=wide; height=300; height=200" "y=x" d eq_refl E).
Defined.

Lemma incomplete_given block a b :
  incomplete (parse_settings block !! a) (parse_settings block !! b)
  = negb (Bool.eqb (given a (setting_pairs block)) (given b (setting_pairs block))).
Proof.
  unfold incomplete. rewrite !is_undefined_lookup.
  now destruct (given a _), (given b _).
Qed.

(** X19: the earlier parser accepts a source with a settings block exactly
    when each pair of boundaries is given completely or not at all; the
    left/right pair is looked at first.  The values play no part: no
    order between them is asked for. *)
Theorem legacy_boundaries_must_be_paired source block body :
  Js.split "---" source = [block; body] ->
  let has key := given key (setting_pairs block) in
  (parse source = inl IncompleteLeftRight
   <-> has "boundry_left" <> has "boundry_right")
  /\ (parse source = inl IncompleteBottomTop
      <-> has "boundry_left" = has "boundry_right"
          /\ has "boundry_bottom" <> has "boundry_top")
  /\ ((exists d, parse source = inr d)
      <-> has "boundry_left" = has "boundry_right"
          /\ has "boundry_bottom" = has "boundry_top").
Proof.
  intros Hs has. rewrite (legacy_parse_two_segments _ _ _ Hs). cbv zeta.
  rewrite !incomplete_given. fold (has "boundry_left") (has "boundry_right")
    (has "boundry_bottom") (has "boundry_top").
  destruct (has "boundry_left"), (has "boundry_right"),
    (has "boundry_bottom"), (has "boundry_top"); cbn;
    repeat split; try congruence; try discriminate; intros;
    repeat match goal with
           | H : _ /\ _ |- _ => destruct H
           | H : exists _, _ |- _ => destruct H
           end;
    try congruence; try discriminate; eauto.
Qed.

Lemma legacy_boundaries_must_be_paired_witness :
  parse "boundry_left=10; boundry_top=1---y=x" = inl IncompleteLeftRight
  /\ parse "boundry_top=1---y=x" = inl IncompleteBottomTop
  /\ exists d, parse "boundry_left=10; boundry_right=-10---y=x" = inr d.
Proof.
  split; [|split].
  - apply (legacy_boundaries_must_be_paired "boundry_left=10; boundry_top=1---y=x"
             "boundry_left=10; boundry_top=1" "y=x" eq_refl).
    discriminate.
  - apply (legacy_boundaries_must_be_paired "boundry_top=1---y=x"
             "boundry_top=1" "y=x" eq_refl).
    split; [reflexivity|discriminate].
  - apply (legacy_boundaries_must_be_paired "boundry_left=10; boundry_right=-10---y=x"
             "boundry_left=10; boundry_right=-10" "y=x" eq_refl).
    split; reflexivity.
Defined.

End LegacyFacts.

(** *** The earlier renderer *)

Module LegacyRendererFacts.

Import Renderer LegacyRenderer.

Ltac legacy_handler_cases :=
  unfold handler;
  repeat match goal with
         | |- context [if ?b then _ else _] => destruct b
         end;
  try reflexivity.

Lemma legacy_handler_settings h m w : settings (handler h m w) = settings w.
Proof. legacy_handler_cases. Qed.

Lemma legacy_handler_files h m w : files (handler h m w) = files w.
Proof. legacy_handler_cases. Qed.

Lemma legacy_deliver_settings m l : forall w, settings (deliver m l w) = settings w.
Proof.
  induction l as [|h l IH]; intros w; [reflexivity|].
  cbn. unfold deliver in IH. now rewrite IH, legacy_handler_settings.
Qed.

Lemma legacy_deliver_files m l : forall w, files (deliver m l w) = files w.
Proof.
  induction l as [|h l IH]; intros w; [reflexivity|].
  cbn. unfold deliver in IH. now rewrite IH, legacy_handler_files.
Qed.

Lemma legacy_deliver_snoc m l h w :
  deliver m (l ++ [h]) w = handler h m (deliver m l w).
Proof. unfold deliver. now rewrite fold_left_app. Qed.

Lemma legacy_handler_cache_off h m w :
  cache (settings w) = false ->
  pending (handler h m w) = pending w /\ notices (handler h m w) = notices w.
Proof.
  intros Hc. unfold handler. destruct (matches m); [|now split].
  cbn [settings appendChild empty set_listeners]. rewrite Hc. now split.
Qed.

Lemma legacy_deliver_cache_off m l :
  forall w, cache (settings w) = false ->
            pending (deliver m l w) = pending w /\ notices (deliver m l w) = notices w.
Proof.
  induction l as [|h l IH]; intros w Hc; [now split|].
  cbn. destruct (IH (handler h m w)) as [IH1 IH2].
  - now rewrite legacy_handler_settings.
  - destruct (legacy_handler_cache_off h m w Hc) as [H1 H2].
    unfold deliver in *. rewrite IH1, IH2. now split.
Qed.

(** X20: in the earlier renderer the cache switch does gate the cache:
    with [settings.cache] off a request always goes to the calculator
    page, even when the cache file is there, and neither the request nor
    any message starts a file operation or raises a notice. *)
Theorem legacy_cache_switch_gates_the_cache P root args el m w :
  cache (settings w) = false ->
  let w1 := render P root args el w in
  children el w1 = (children el w ++ [Iframe args])%list
  /\ pending w1 = pending w
  /\ pending (dispatch m w1) = pending w
  /\ notices (dispatch m w1) = notices w
  /\ files (dispatch m w1) = files w.
Proof.
  intros Hc w1.
  assert (E : w1 = set_listeners
                     (listeners (appendChild el (Iframe args) (next w))
                      ++ [{| h_request := next_request w; h_el := el;
                             h_cache_dir := cache_dir P root (settings w);
                             h_cache_target :=
                               cache_target P root (settings w) (LegacyDsl.hash args) |}])%list
                     (appendChild el (Iframe args) (next w))).
  { subst w1. unfold render. now rewrite Hc. }
  split; [rewrite E; unfold children; cbn; now rewrite lookup_insert_eq|].
  split; [now rewrite E|].
  assert (Hc1 : cache (settings w1) = false) by (rewrite E; exact Hc).
  destruct (legacy_deliver_cache_off m (listeners w1) w1 Hc1) as [H1 H2].
  unfold dispatch. rewrite H1, H2, legacy_deliver_files, E. repeat split.
Qed.

Lemma legacy_cache_switch_gates_the_cache_witness :
  let args := LegacyDsl.new_Dsl ["y=x"] None None None None None None in
  let w :=
    {| settings := {| cache := false; cache_directory := None |};
       files := {[ cache_target Sample.posix "/vault"
                     {| cache := false; cache_directory := None |}
                     (LegacyDsl.hash args) := File "iVBORw0KGgo=";
                   "/tmp" := Directory ]};
       dom := ∅; listeners := []; pending := []; notices := []; next_request := 0 |} in
  let w1 := render Sample.posix "/vault" args 0 w in
  children 0 w1 = (children 0 w ++ [Iframe args])%list
  /\ pending w1 = pending w
  /\ pending (dispatch Sample.render_message w1) = pending w
  /\ notices (dispatch Sample.render_message w1) = notices w
  /\ files (dispatch Sample.render_message w1) = files w.
Proof.
  intros args w.
  apply (legacy_cache_switch_gates_the_cache Sample.posix "/vault" args 0
           Sample.render_message w).
  reflexivity.
Defined.

(** *** One message, every request *)

Lemma legacy_handler_match h m w :
  matches m = true ->
  handler h m w
  = let w2 :=
      appendChild (h_el h) (Img (msg_data m))
        (empty (h_el h)
           (set_listeners
              (List.filter (fun h' => negb (Nat.eqb (h_request h') (h_request h)))
                 (listeners w)) w)) in
    if cache (settings w)
    then if existsSync (h_cache_dir h) w
         then start (WriteFile (h_cache_target h) (strip_png_prefix (msg_data m))) w2
         else Notice ("desmos-graph: cache directory not found: '" ++ h_cache_dir h ++ "'") w2
    else w2.
Proof. intros Hm. unfold handler. rewrite Hm. reflexivity. Qed.

Lemma legacy_handler_listeners h m w :
  matches m = true ->
  listeners (handler h m w)
  = List.filter (fun h' => negb (Nat.eqb (h_request h') (h_request h))) (listeners w).
Proof.
  intros Hm. rewrite legacy_handler_match by exact Hm. cbv zeta.
  destruct (cache (settings w)); [destruct (existsSync (h_cache_dir h) w)|]; reflexivity.
Qed.

Lemma legacy_handler_children h m w :
  matches m = true -> children (h_el h) (handler h m w) = [Img (msg_data m)].
Proof.
  intros Hm. rewrite legacy_handler_match by exact Hm. cbv zeta.
  assert (E : forall W, dom W = dom (appendChild (h_el h) (Img (msg_data m))
                                      (empty (h_el h)
                                         (set_listeners
                                            (List.filter
                                               (fun h' => negb (Nat.eqb (h_request h') (h_request h)))
                                               (listeners w)) w))) ->
                        children (h_el h) W = [Img (msg_data m)]).
  { intros W HW. unfold children. rewrite HW. cbn. rewrite lookup_insert_eq. cbn.
    unfold children. cbn. now rewrite lookup_insert_eq. }
  destruct (cache (settings w)); [destruct (existsSync (h_cache_dir h) w)|];
    apply E; reflexivity.
Qed.

Lemma legacy_handler_children_other h m w el :
  h_el h <> el -> children el (handler h m w) = children el w.
Proof.
  intros Hne. unfold children.
  assert (H : dom (handler h m w) !! el = dom w !! el); [|now rewrite H].
  unfold handler. destruct (matches m); [|reflexivity].
  cbn [settings appendChild empty set_listeners].
  destruct (cache (settings w)); [destruct (existsSync _ _)|]; cbn;
    now rewrite !lookup_insert_ne by exact Hne.
Qed.

Lemma legacy_handler_pending h m w op :
  In op (pending w) -> In op (pending (handler h m w)).
Proof.
  intros Hin. unfold handler. destruct (matches m); [|exact Hin].
  cbn [settings appendChild empty set_listeners].
  destruct (cache (settings w)); [destruct (existsSync _ _)|]; cbn;
    try exact Hin. apply in_app_iff. now left.
Qed.

Lemma legacy_deliver_pending m l :
  forall w op, In op (pending w) -> In op (pending (deliver m l w)).
Proof.
  induction l as [|h l IH]; intros w op Hin; [exact Hin|].
  cbn. apply (IH (handler h m w)). now apply legacy_handler_pending.
Qed.

Lemma legacy_deliver_listeners m :
  matches m = true ->
  forall l w,
    listeners (deliver m l w)
    = List.filter
        (fun h' => negb (existsb (fun h => Nat.eqb (h_request h') (h_request h)) l))
        (listeners w).
Proof.
  intros Hm. induction l as [|h l IH]; intros w.
  - cbn. induction (listeners w) as [|x xs IHx]; [reflexivity|]. cbn. now rewrite <- IHx.
  - cbn [deliver List.fold_left]. change (List.fold_left _ l ?W) with (deliver m l W).
    rewrite IH, legacy_handler_listeners by exact Hm.
    induction (listeners w) as [|x xs IHx]; [reflexivity|].
    cbn [List.filter existsb].
    destruct (Nat.eqb (h_request x) (h_request h)); cbn [negb orb List.filter].
    + exact IHx.
    + destruct (existsb _ l); cbn [negb]; now rewrite IHx.
Qed.

Lemma legacy_deliver_children m el :
  matches m = true ->
  forall l w,
    (exists h, In h l /\ h_el h = el) ->
    children el (deliver m l w) = [Img (msg_data m)].
Proof.
  intros Hm l. induction l as [|x l IH] using List.rev_ind; intros w (h & Hin & Hel).
  - destruct Hin.
  - rewrite legacy_deliver_snoc.
    destruct (Nat.eq_dec (h_el x) el) as [Ex|Ex].
    + rewrite <- Ex. now apply legacy_handler_children.
    + rewrite legacy_handler_children_other by exact Ex. apply IH.
      apply List.in_app_or in Hin as [Hin|[->|[]]]; [eauto|congruence].
Qed.

Lemma legacy_deliver_writes m :
  matches m = true ->
  forall l w h,
    In h l -> cache (settings w) = true -> existsSync (h_cache_dir h) w = true ->
    In (WriteFile (h_cache_target h) (strip_png_prefix (msg_data m)))
       (pending (deliver m l w)).
Proof.
  intros Hm. induction l as [|x l IH]; intros w h Hin Hc He; [destruct Hin|].
  cbn [deliver List.fold_left]. change (List.fold_left _ l ?W) with (deliver m l W).
  destruct Hin as [->|Hin].
  - apply legacy_deliver_pending. rewrite legacy_handler_match by exact Hm.
    cbv zeta. rewrite Hc, He. cbn. apply in_app_iff. right. now left.
  - apply IH; [exact Hin| |].
    + now rewrite legacy_handler_settings.
    + unfold existsSync in *. now rewrite legacy_handler_files.
Qed.

(** X21: the handler of the earlier renderer does not look at the graph a
    message is for: one screenshot answers every waiting request.  All
    listeners are taken off, every waiting element shows that picture,
    and with the cache on it is written to the cache file of every
    waiting graph whose cache directory exists. *)
Theorem legacy_screenshot_answers_every_request m w :
  matches m = true ->
  listeners (dispatch m w) = []
  /\ (forall h, In h (listeners w) ->
        children (h_el h) (dispatch m w) = [Img (msg_data m)])
  /\ (forall h, In h (listeners w) ->
        cache (settings w) = true -> existsSync (h_cache_dir h) w = true ->
        In (WriteFile (h_cache_target h) (strip_png_prefix (msg_data m)))
           (pending (dispatch m w))).
Proof.
  intros Hm. unfold dispatch. split; [|split].
  - rewrite legacy_deliver_listeners by exact Hm.
    assert (H : forall l l', (forall x, In x l -> In x l') ->
              List.filter
                (fun h' => negb (existsb (fun h => Nat.eqb (h_request h') (h_request h)) l'))
                l = []).
    { induction l as [|x xs IH]; intros l' Hsub; [reflexivity|]. cbn.
      assert (Hx : existsb (fun h => Nat.eqb (h_request x) (h_request h)) l' = true).
      { apply existsb_exists. exists x. split; [apply Hsub; now left|apply Nat.eqb_refl]. }
      rewrite Hx. cbn. apply IH. intros y Hy. apply Hsub. now right. }
    apply H. auto.
  - intros h Hin. apply legacy_deliver_children; eauto.
  - intros h Hin Hc He. now apply legacy_deliver_writes.
Qed.

Lemma legacy_screenshot_answers_every_request_witness :
  let s := {| cache := true; cache_directory := None |} in
  let line := LegacyDsl.new_Dsl ["y=x"] None None None None None None in
  let parabola := LegacyDsl.new_Dsl ["y=x^2"] None None None None None None in
  let w :=
    render Sample.posix "/vault" parabola 1
      (render Sample.posix "/vault" line 0
         {| settings := s; files := {[ "/tmp" := Directory ]}; dom := ∅;
            listeners := []; pending := []; notices := []; next_request := 0 |}) in
  LegacyDsl.hash line <> LegacyDsl.hash parabola
  /\ listeners (dispatch Sample.render_message w) = []
  /\ children 0 (dispatch Sample.render_message w) = [Img Sample.picture]
  /\ children 1 (dispatch Sample.render_message w) = [Img Sample.picture]
  /\ In (WriteFile (cache_target Sample.posix "/vault" s (LegacyDsl.hash line))
           "iVBORw0KGgo=")
        (pending (dispatch Sample.render_message w))
  /\ In (WriteFile (cache_target Sample.posix "/vault" s (LegacyDsl.hash parabola))
           "iVBORw0KGgo=")
        (pending (dispatch Sample.render_message w)).
Proof.
  intros s line parabola w.
  destruct (legacy_screenshot_answers_every_request Sample.render_message w eq_refl)
    as (H1 & H2 & H3).
  assert (Hl : listeners w
               = [ {| h_request := 0; h_el := 0; h_cache_dir := "/tmp";
                      h_cache_target :=
                        cache_target Sample.posix "/vault" s (LegacyDsl.hash line) |};
                   {| h_request := 1; h_el := 1; h_cache_dir := "/tmp";
                      h_cache_target :=
                        cache_target Sample.posix "/vault" s (LegacyDsl.hash parabola) |} ])
    by reflexivity.
  split; [vm_compute; discriminate|]. split; [exact H1|].
  split; [apply (H2 _ ltac:(rewrite Hl; left; reflexivity))|].
  split; [apply (H2 _ ltac:(rewrite Hl; right; left; reflexivity))|].
  split.
  - apply (H3 _ ltac:(rewrite Hl; left; reflexivity)); reflexivity.
  - apply (H3 _ ltac:(rewrite Hl; right; left; reflexivity)); reflexivity.
Defined.

(** *** The plotting command *)

Lemma count_replace_backslash c s :
  Ascii.eqb c "\" = false ->
  DslInvariant.count c (JsReplace.replace Expressions.BACKSLASH "\\" s)
  = DslInvariant.count c s.
Proof.
  intros Hc. induction s as [|d s IH]; [reflexivity|].
  unfold Expressions.BACKSLASH in *. cbn [JsReplace.replace].
  rewrite SplitFacts.prefix_cons, SplitFacts.prefix_nil.
  destruct (Ascii.eqb_spec "\" d) as [<-|Hne].
  - rewrite ExpressionFacts.count_app. cbn [String.length JsReplace.slice_from].
    cbn [DslInvariant.count]. rewrite Hc. reflexivity.
  - cbn [DslInvariant.count]. now rewrite IH.
Qed.

(** X22: the earlier renderer puts an equation into the script as it was
    written, but for its first backslash: every double quote of the
    equation is in the plotting command, beside the two that delimit the
    [latex] text. *)
Theorem legacy_expression_keeps_quotes equation :
  DslInvariant.count Dsl.DQUOTE (expression equation)
  = (2 + DslInvariant.count Dsl.DQUOTE equation)%nat.
Proof.
  unfold expression. rewrite !ExpressionFacts.count_app. cbn [DslInvariant.count].
  rewrite count_replace_backslash by reflexivity.
  cbn. lia.
Qed.

End LegacyRendererFacts.
